(** * Password-based note encryption of the notes application

    The repository holds four generations of one Remix route
    ([app/routes/$id.tsx]), each with its own client-side "encryption" of a
    note's text before it is handed to the key-value store:

    - [Age]       : a base64 armor that imitates the age file format;
    - [RawKeyGcm] : AES-GCM under the key string padded to 32 code units;
    - [Pbkdf2Gcm] : PBKDF2-SHA256 key derivation followed by AES-GCM;
    - [AesCbc]    : AES-CBC under the raw password bytes.

    The route's own functions are embedded one module per generation.  The
    browser functions they call are modelled in the first part of the file:
    strings as sequences of UTF-16 code units, [TextEncoder]/[TextDecoder],
    [btoa]/[atob], [JSON.stringify]/[JSON.parse] and the typed-array
    constructors are executable definitions; the cryptographic primitives of
    [crypto.subtle] are fields of a [Platform] record, and every fact about
    them that a proof uses is an explicit hypothesis of that proof. *)

From Stdlib Require Import List NArith ZArith Lia Bool String Ascii.
From Stdlib Require Import Strings.Byte.
Import ListNotations.

Local Open Scope N_scope.

(** lia decides goals with division and remainder by constants. *)
Ltac Zify.zify_convert_to_euclidean_division_equations_flag ::= constr:(true).

(* ================================================================== *)
(** * Values of the host language *)
(* ================================================================== *)

(** A [Uint8Array] is a list of bytes. *)
Definition bytes := list byte.

(** A JavaScript string is a sequence of UTF-16 code units, each a number
    below 2^16. *)
Definition jsstring := list N.

(** The byte holding [n mod 256] (what storing [n] in a [Uint8Array] keeps). *)
Definition byte_of_N (n : N) : byte :=
  match Byte.of_N (n mod 256) with
  | Some b => b
  | None => x00
  end.

(** An ASCII literal as a JavaScript string. *)
Definition js (s : string) : jsstring :=
  map N_of_ascii (list_ascii_of_string s).

(** [String.fromCharCode(...bytes)]: one code unit per byte. *)
Definition fromCharCode (bs : bytes) : jsstring := map Byte.to_N bs.

(** [Uint8Array.from(s, c => c.charCodeAt(0))]: one byte per code unit. *)
Definition charCodes (s : jsstring) : bytes := map byte_of_N s.

Definition jsstring_eqb (a b : jsstring) : bool :=
  if list_eq_dec N.eq_dec a b then true else false.

(** ** Exceptions and the result of a call *)

Inductive exn : Type :=
| SyntaxError
| TypeError
| RangeError
| DataError
| OperationError
| InvalidCharacterError
| Error (message : string).

(** An [async] function settles: [inr v] when it returns [v], [inl e] when
    it throws [e]. *)
Definition result (A : Type) : Type := (exn + A)%type.

Definition ret {A} (a : A) : result A := inr a.
Definition throw {A} (e : exn) : result A := inl e.

Definition bind {A B} (m : result A) (k : A -> result B) : result B :=
  match m with
  | inl e => inl e
  | inr a => k a
  end.

(** [try { body } catch (err) { handler(err) }] *)
Definition try_catch {A} (body : result A) (handler : exn -> result A)
  : result A :=
  match body with
  | inl e => handler e
  | inr a => inr a
  end.

Declare Scope result_scope.
Delimit Scope result_scope with result.
Notation "x <- m ;; k" := (bind m (fun x => k))
  (at level 61, m at next level, right associativity) : result_scope.
Notation "' pat <- m ;; k" := (bind m (fun x => let pat := x in k))
  (at level 61, pat pattern, m at next level, right associativity)
  : result_scope.

(** Sequential [for (const x of xs) out.push(await f(x))]: the first
    exception ends the loop. *)
Fixpoint mapM {A B} (f : A -> result B) (xs : list A) : result (list B) :=
  match xs with
  | [] => ret []
  | x :: rest =>
      bind (f x) (fun y => bind (mapM f rest) (fun ys => ret (y :: ys)))
  end.

(* ================================================================== *)
(** * TextEncoder and TextDecoder (WHATWG Encoding, UTF-8) *)
(* ================================================================== *)

Definition is_high_surrogate (c : N) : bool := (0xD800 <=? c) && (c <=? 0xDBFF).
Definition is_low_surrogate (c : N) : bool := (0xDC00 <=? c) && (c <=? 0xDFFF).

(** Conversion of a string to scalar values: a surrogate pair is one code
    point, a surrogate that is not part of a pair becomes U+FFFD. *)
Fixpoint code_points (s : jsstring) : list N :=
  match s with
  | [] => []
  | c :: rest =>
      if is_high_surrogate c then
        match rest with
        | d :: rest' =>
            if is_low_surrogate d
            then (0x10000 + (c - 0xD800) * 0x400 + (d - 0xDC00)) :: code_points rest'
            else 0xFFFD :: code_points rest
        | [] => [0xFFFD]
        end
      else if is_low_surrogate c then 0xFFFD :: code_points rest
      else c :: code_points rest
  end.

(** The UTF-8 bytes of one scalar value. *)
Definition utf8_of_code_point (cp : N) : bytes :=
  if cp <? 0x80 then [byte_of_N cp]
  else if cp <? 0x800 then
    [byte_of_N (0xC0 + cp / 64); byte_of_N (0x80 + cp mod 64)]
  else if cp <? 0x10000 then
    [byte_of_N (0xE0 + cp / 4096); byte_of_N (0x80 + (cp / 64) mod 64);
     byte_of_N (0x80 + cp mod 64)]
  else
    [byte_of_N (0xF0 + cp / 262144); byte_of_N (0x80 + (cp / 4096) mod 64);
     byte_of_N (0x80 + (cp / 64) mod 64); byte_of_N (0x80 + cp mod 64)].

(** [new TextEncoder().encode(s)] *)
Definition TextEncoder_encode (s : jsstring) : bytes :=
  flat_map utf8_of_code_point (code_points s).

(** The state of the UTF-8 decoder: the code point under construction, the
    number of continuation bytes still expected, and the bounds the next
    continuation byte has to respect. *)
Record utf8_state : Type := mk_utf8_state {
  u_code_point : N;
  u_remaining : N;
  u_lower : N;
  u_upper : N
}.

Definition utf8_init : utf8_state := mk_utf8_state 0 0 0x80 0xBF.

(** A byte read when no sequence is open. *)
Definition utf8_lead (b : N) : list N * utf8_state :=
  if b <=? 0x7F then ([b], utf8_init)
  else if (0xC2 <=? b) && (b <=? 0xDF) then
    ([], mk_utf8_state (N.land b 0x1F) 1 0x80 0xBF)
  else if (0xE0 <=? b) && (b <=? 0xEF) then
    ([], mk_utf8_state (N.land b 0xF) 2
           (if b =? 0xE0 then 0xA0 else 0x80)
           (if b =? 0xED then 0x9F else 0xBF))
  else if (0xF0 <=? b) && (b <=? 0xF4) then
    ([], mk_utf8_state (N.land b 0x7) 3
           (if b =? 0xF0 then 0x90 else 0x80)
           (if b =? 0xF4 then 0x8F else 0xBF))
  else ([0xFFFD], utf8_init).

(** One byte through the decoder: the code points emitted and the next
    state.  A byte that cannot continue the open sequence ends it with
    U+FFFD and is read again as a lead byte. *)
Definition utf8_step (st : utf8_state) (b : N) : list N * utf8_state :=
  if u_remaining st =? 0 then utf8_lead b
  else if (u_lower st <=? b) && (b <=? u_upper st) then
    let cp := N.lor (N.shiftl (u_code_point st) 6) (N.land b 0x3F) in
    if u_remaining st =? 1 then ([cp], utf8_init)
    else ([], mk_utf8_state cp (u_remaining st - 1) 0x80 0xBF)
  else
    let '(out, st') := utf8_lead b in (0xFFFD :: out, st').

Fixpoint utf8_run (st : utf8_state) (bs : bytes) : list N :=
  match bs with
  | [] => if u_remaining st =? 0 then [] else [0xFFFD]
  | b :: rest =>
      let '(out, st') := utf8_step st (Byte.to_N b) in
      out ++ utf8_run st' rest
  end.

(** The UTF-16 code units of one scalar value. *)
Definition utf16_of_code_point (cp : N) : jsstring :=
  if cp <? 0x10000 then [cp]
  else [0xD800 + (cp - 0x10000) / 0x400; 0xDC00 + (cp - 0x10000) mod 0x400].

(** UTF-8 decoding with replacement, the byte order mark kept. *)
Definition utf8_decode (bs : bytes) : jsstring :=
  flat_map utf16_of_code_point (utf8_run utf8_init bs).

(** A decoder created without options ignores no byte order mark: three
    leading bytes EF BB BF are dropped before decoding. *)
Definition strip_bom (bs : bytes) : bytes :=
  match bs with
  | xef :: xbb :: xbf :: rest => rest
  | _ => bs
  end.

(** [new TextDecoder().decode(bs)] *)
Definition TextDecoder_decode (bs : bytes) : jsstring :=
  utf8_decode (strip_bom bs).

(** A string that is well-formed Unicode text: every surrogate is part of
    a pair, every code unit is below 2^16. *)
Fixpoint well_formed (s : jsstring) : bool :=
  match s with
  | [] => true
  | c :: rest =>
      if is_high_surrogate c then
        match rest with
        | d :: rest' => is_low_surrogate d && well_formed rest'
        | [] => false
        end
      else negb (is_low_surrogate c) && (c <? 0x10000) && well_formed rest
  end.

(** The string begins with U+FEFF. *)
Definition starts_with_bom (s : jsstring) : bool :=
  match s with
  | c :: _ => c =? 0xFEFF
  | [] => false
  end.


(* ================================================================== *)
(** * btoa and atob (WHATWG forgiving-base64) *)
(* ================================================================== *)

(** The character of a sextet: A-Z, a-z, 0-9, + and /. *)
Definition base64_char (v : N) : N :=
  if v <? 26 then 65 + v
  else if v <? 52 then 97 + (v - 26)
  else if v <? 62 then 48 + (v - 52)
  else if v =? 62 then 43
  else 47.

(** The sextet of a character of the alphabet. *)
Definition base64_value (c : N) : option N :=
  if (65 <=? c) && (c <=? 90) then Some (c - 65)
  else if (97 <=? c) && (c <=? 122) then Some (c - 97 + 26)
  else if (48 <=? c) && (c <=? 57) then Some (c - 48 + 52)
  else if c =? 43 then Some 62
  else if c =? 47 then Some 63
  else None.

(** The code unit of [=]. *)
Definition pad_char : N := 61.

Fixpoint base64_encode (bs : bytes) : jsstring :=
  match bs with
  | [] => []
  | [a] =>
      let a := Byte.to_N a in
      [base64_char (a / 4); base64_char (a mod 4 * 16); pad_char; pad_char]
  | [a; b] =>
      let a := Byte.to_N a in
      let b := Byte.to_N b in
      [base64_char (a / 4); base64_char (a mod 4 * 16 + b / 16);
       base64_char (b mod 16 * 4); pad_char]
  | a :: b :: c :: rest =>
      let a := Byte.to_N a in
      let b := Byte.to_N b in
      let c := Byte.to_N c in
      base64_char (a / 4) :: base64_char (a mod 4 * 16 + b / 16) ::
      base64_char (b mod 16 * 4 + c / 64) :: base64_char (c mod 64) ::
      base64_encode rest
  end.

(** [btoa(s)]: every code unit has to be a byte. *)
Definition btoa (s : jsstring) : result jsstring :=
  if forallb (fun c => c <? 256) s
  then ret (base64_encode (charCodes s))
  else throw InvalidCharacterError.

Definition is_ascii_whitespace (c : N) : bool :=
  (c =? 9) || (c =? 10) || (c =? 12) || (c =? 13) || (c =? 32).

(** One or two [=] at the end are removed. *)
Definition strip_padding (d : jsstring) : jsstring :=
  match rev d with
  | c1 :: c2 :: r =>
      if c1 =? pad_char
      then if c2 =? pad_char then rev r else rev (c2 :: r)
      else d
  | [c1] => if c1 =? pad_char then [] else d
  | [] => d
  end.

Fixpoint sextets_of_chars (s : jsstring) : option (list N) :=
  match s with
  | [] => Some []
  | c :: rest =>
      match base64_value c, sextets_of_chars rest with
      | Some v, Some vs => Some (v :: vs)
      | _, _ => None
      end
  end.

(** Four sextets are three bytes; the bits of an incomplete last group
    that do not fill a byte are dropped. *)
Fixpoint bytes_of_sextets (vs : list N) : bytes :=
  match vs with
  | v1 :: v2 :: v3 :: v4 :: rest =>
      byte_of_N (v1 * 4 + v2 / 16) :: byte_of_N (v2 mod 16 * 16 + v3 / 4) ::
      byte_of_N (v3 mod 4 * 64 + v4) :: bytes_of_sextets rest
  | [v1; v2; v3] =>
      [byte_of_N (v1 * 4 + v2 / 16); byte_of_N (v2 mod 16 * 16 + v3 / 4)]
  | [v1; v2] => [byte_of_N (v1 * 4 + v2 / 16)]
  | _ => []
  end.

(** [atob(s)] *)
Definition atob (s : jsstring) : result jsstring :=
  let d := filter (fun c => negb (is_ascii_whitespace c)) s in
  let d := if Nat.eqb (Nat.modulo (List.length d) 4) 0 then strip_padding d else d in
  if Nat.eqb (Nat.modulo (List.length d) 4) 1 then throw InvalidCharacterError
  else
    match sextets_of_chars d with
    | None => throw InvalidCharacterError
    | Some vs => ret (fromCharCode (bytes_of_sextets vs))
    end.


(* ================================================================== *)
(** * JSON.parse and JSON.stringify (ECMA-404) *)
(* ================================================================== *)

Local Set Warnings "-register-all".

(** A number read by [JSON.parse]: an integer literal of at most 2^53 in
    absolute value is that integer; any other literal (a fraction, an
    exponent, a larger integer) is kept as written, its floating-point
    value left to the platform. *)
Inductive jsnumber : Type :=
| Int (z : Z)
| Literal (lexeme : jsstring).

Inductive json : Type :=
| JNull
| JBool (b : bool)
| JNumber (n : jsnumber)
| JString (s : jsstring)
| JArray (elements : list json)
| JObject (members : list (jsstring * json)).

(** The code unit of an ASCII character. *)
Definition ch (a : ascii) : N := N_of_ascii a.
Definition quote : N := 34.
Definition backslash : N := 92.

Definition is_json_ws (c : N) : bool :=
  (c =? 32) || (c =? 9) || (c =? 10) || (c =? 13).

Definition is_digit (c : N) : bool := (48 <=? c) && (c <=? 57).

(** The characters a number literal is made of. *)
Definition is_number_char (c : N) : bool :=
  is_digit c || (c =? ch "-") || (c =? ch "+") || (c =? ch ".") ||
  (c =? ch "e") || (c =? ch "E").

Fixpoint skip_ws (s : jsstring) : jsstring :=
  match s with
  | c :: rest => if is_json_ws c then skip_ws rest else s
  | [] => []
  end.

(** The longest prefix of characters satisfying [p], and what follows. *)
Fixpoint span (p : N -> bool) (s : jsstring) : jsstring * jsstring :=
  match s with
  | c :: rest =>
      if p c then let '(run, tail) := span p rest in (c :: run, tail)
      else ([], s)
  | [] => ([], [])
  end.

Definition digits_value (ds : jsstring) : N :=
  fold_left (fun acc d => acc * 10 + (d - 48)) ds 0.

(** The digits of a fraction or of an exponent: at least one. *)
Definition some_digits (s : jsstring) : option jsstring :=
  match span is_digit s with
  | ([], _) => None
  | (_, tail) => Some tail
  end.

(** The number a literal denotes, when it follows the grammar: an optional
    minus sign; a zero, or a non-zero digit and further digits; optionally
    a point and digits; optionally an exponent mark, a sign and digits. *)
Definition number_of_lexeme (lexeme : jsstring) : option jsnumber :=
  let '(negative, s1) :=
    match lexeme with
    | c :: rest => if c =? ch "-" then (true, rest) else (false, lexeme)
    | [] => (false, lexeme)
    end in
  let '(int_digits, s2) := span is_digit s1 in
  let int_ok :=
    match int_digits with
    | [] => false
    | d :: more => negb (d =? 48) || match more with [] => true | _ => false end
    end in
  let after_fraction :=
    match s2 with
    | c :: rest => if c =? ch "." then some_digits rest else Some s2
    | [] => Some s2
    end in
  let after_exponent :=
    match after_fraction with
    | Some (c :: rest) =>
        if (c =? ch "e") || (c =? ch "E") then
          match rest with
          | sign :: rest' =>
              if (sign =? ch "+") || (sign =? ch "-")
              then some_digits rest' else some_digits rest
          | [] => None
          end
        else Some (c :: rest)
    | other => other
    end in
  match after_exponent with
  | Some [] =>
      if int_ok then
        match s2 with
        | [] =>
            let v := digits_value int_digits in
            if v <=? 2 ^ 53
            then Some (Int (if negative then Z.opp (Z.of_N v) else Z.of_N v))
            else Some (Literal lexeme)
        | _ => Some (Literal lexeme)
        end
      else None
  | _ => None
  end.

Definition hex_value (c : N) : option N :=
  if is_digit c then Some (c - 48)
  else if (65 <=? c) && (c <=? 70) then Some (c - 55)
  else if (97 <=? c) && (c <=? 102) then Some (c - 87)
  else None.

Definition hex4 (h1 h2 h3 h4 : N) : option N :=
  match hex_value h1, hex_value h2, hex_value h3, hex_value h4 with
  | Some a, Some b, Some c, Some d => Some (((a * 16 + b) * 16 + c) * 16 + d)
  | _, _, _, _ => None
  end.

(** The character a one-letter escape stands for. *)
Definition unescape (e : N) : option N :=
  if e =? quote then Some quote
  else if e =? backslash then Some backslash
  else if e =? ch "/" then Some (ch "/")
  else if e =? ch "b" then Some 8
  else if e =? ch "f" then Some 12
  else if e =? ch "n" then Some 10
  else if e =? ch "r" then Some 13
  else if e =? ch "t" then Some 9
  else None.

(** A string after its opening quote: its value and what follows the
    closing quote. *)
Fixpoint parse_string_body (s : jsstring) : option (jsstring * jsstring) :=
  match s with
  | [] => None
  | c :: rest =>
      if c =? quote then Some ([], rest)
      else if c =? backslash then
        match rest with
        | e :: rest' =>
            if e =? ch "u" then
              match rest' with
              | h1 :: h2 :: h3 :: h4 :: rest'' =>
                  match hex4 h1 h2 h3 h4, parse_string_body rest'' with
                  | Some u, Some (str, tail) => Some (u :: str, tail)
                  | _, _ => None
                  end
              | _ => None
              end
            else
              match unescape e, parse_string_body rest' with
              | Some u, Some (str, tail) => Some (u :: str, tail)
              | _, _ => None
              end
        | [] => None
        end
      else if c <? 0x20 then None
      else
        match parse_string_body rest with
        | Some (str, tail) => Some (c :: str, tail)
        | None => None
        end
  end.

(** [s] without the prefix [word], when it starts with it. *)
Fixpoint after_prefix (word s : jsstring) : option jsstring :=
  match word, s with
  | [], _ => Some s
  | w :: word', c :: rest => if w =? c then after_prefix word' rest else None
  | _ :: _, [] => None
  end.

Definition parse_literal (word : string) (v : json) (s : jsstring)
  : option (json * jsstring) :=
  match after_prefix (js word) s with
  | Some tail => Some (v, tail)
  | None => None
  end.

Definition parse_number (s : jsstring) : option (json * jsstring) :=
  let '(lexeme, tail) := span is_number_char s in
  match number_of_lexeme lexeme with
  | Some n => Some (JNumber n, tail)
  | None => None
  end.

(** Recursive descent; [fuel] bounds the number of nested calls. *)
Fixpoint parse_value (fuel : nat) (s : jsstring) {struct fuel}
  : option (json * jsstring) :=
  match fuel with
  | O => None
  | S fuel' =>
      match skip_ws s with
      | [] => None
      | c :: rest =>
          if c =? ch "[" then
            match skip_ws rest with
            | c' :: rest' =>
                if c' =? ch "]" then Some (JArray [], rest')
                else
                  match parse_elements fuel' rest with
                  | Some (vs, tail) => Some (JArray vs, tail)
                  | None => None
                  end
            | [] => None
            end
          else if c =? ch "{" then
            match skip_ws rest with
            | c' :: rest' =>
                if c' =? ch "}" then Some (JObject [], rest')
                else
                  match parse_members fuel' rest with
                  | Some (ms, tail) => Some (JObject ms, tail)
                  | None => None
                  end
            | [] => None
            end
          else if c =? quote then
            match parse_string_body rest with
            | Some (str, tail) => Some (JString str, tail)
            | None => None
            end
          else if c =? ch "t" then parse_literal "true" (JBool true) (c :: rest)
          else if c =? ch "f" then parse_literal "false" (JBool false) (c :: rest)
          else if c =? ch "n" then parse_literal "null" JNull (c :: rest)
          else parse_number (c :: rest)
      end
  end

with parse_elements (fuel : nat) (s : jsstring) {struct fuel}
  : option (list json * jsstring) :=
  match fuel with
  | O => None
  | S fuel' =>
      match parse_value fuel' s with
      | Some (v, tail) =>
          match skip_ws tail with
          | c :: rest =>
              if c =? ch "," then
                match parse_elements fuel' rest with
                | Some (vs, tail') => Some (v :: vs, tail')
                | None => None
                end
              else if c =? ch "]" then Some ([v], rest)
              else None
          | [] => None
          end
      | None => None
      end
  end

with parse_members (fuel : nat) (s : jsstring) {struct fuel}
  : option (list (jsstring * json) * jsstring) :=
  match fuel with
  | O => None
  | S fuel' =>
      match skip_ws s with
      | q :: rest =>
          if q =? quote then
            match parse_string_body rest with
            | Some (key, tail) =>
                match skip_ws tail with
                | colon :: tail' =>
                    if colon =? ch ":" then
                      match parse_value fuel' tail' with
                      | Some (v, tail'') =>
                          match skip_ws tail'' with
                          | c :: rest' =>
                              if c =? ch "," then
                                match parse_members fuel' rest' with
                                | Some (ms, t) => Some ((key, v) :: ms, t)
                                | None => None
                                end
                              else if c =? ch "}" then Some ([(key, v)], rest')
                              else None
                          | [] => None
                          end
                      | None => None
                      end
                    else None
                | [] => None
                end
            | None => None
            end
          else None
      | [] => None
      end
  end.

(** [JSON.parse(text)] *)
Definition JSON_parse (text : jsstring) : result json :=
  match parse_value (2 * List.length text + 2) text with
  | Some (v, tail) =>
      match skip_ws tail with
      | [] => ret v
      | _ :: _ => throw SyntaxError
      end
  | None => throw SyntaxError
  end.

(** The decimal digits of a byte. *)
Definition decimal (n : N) : jsstring :=
  if n <? 10 then [48 + n]
  else if n <? 100 then [48 + n / 10; 48 + n mod 10]
  else [48 + n / 100; 48 + n / 10 mod 10; 48 + n mod 10].

(** The elements of a non-empty array, separated by commas. *)
Fixpoint stringify_elements (b : byte) (bs : bytes) : jsstring :=
  match bs with
  | [] => decimal (Byte.to_N b)
  | b' :: bs' => decimal (Byte.to_N b) ++ ch "," :: stringify_elements b' bs'
  end.

(** [JSON.stringify(Array.from(bytes))] *)
Definition stringify_array (bs : bytes) : jsstring :=
  match bs with
  | [] => [ch "["; ch "]"]
  | b :: bs' => ch "[" :: stringify_elements b bs' ++ [ch "]"]
  end.

(** [JSON.stringify({ iv: Array.from(iv), data: Array.from(data) })] *)
Definition stringify_iv_data (iv data : bytes) : jsstring :=
  ch "{" :: quote :: js "iv" ++ quote :: ch ":" :: stringify_array iv ++
  ch "," :: quote :: js "data" ++ quote :: ch ":" :: stringify_array data ++
  [ch "}"].

(** The value that text denotes. *)
Definition number_of_byte (b : byte) : json := JNumber (Int (Z.of_N (Byte.to_N b))).

Definition iv_data_object (iv data : bytes) : json :=
  JObject [(js "iv", JArray (map number_of_byte iv));
           (js "data", JArray (map number_of_byte data))].


(* ================================================================== *)
(** * Objects, typed arrays and the Web Crypto API *)
(* ================================================================== *)

(** What the route takes from the browser without defining it: the
    primitives of [crypto.subtle], the number of arguments a call may
    spread, and the typed-array conversion of values that are no arrays of
    integers.  Nothing is assumed of them here; a proof that needs a
    property of a primitive states it as a hypothesis. *)
Record Platform : Type := {
  (** PBKDF2 with HMAC-SHA-256: password, salt, iterations, to 256 bits. *)
  pbkdf2_sha256 : bytes -> bytes -> N -> bytes;
  (** AES-GCM under a key and a nonce: the ciphertext followed by its tag. *)
  aes_gcm_encrypt : bytes -> bytes -> bytes -> bytes;
  (** AES-GCM decryption; [None] when the operation fails (the tag does not
      verify, or the input is no ciphertext). *)
  aes_gcm_decrypt : bytes -> bytes -> bytes -> option bytes;
  (** The AES block cipher on one 16-byte block, and its inverse. *)
  aes_encrypt_block : bytes -> bytes -> bytes;
  aes_decrypt_block : bytes -> bytes -> bytes;
  (** The largest number of arguments [f(...array)] may pass. *)
  max_arguments : nat;
  (** [new Uint8Array(v)] for the values not covered by [Uint8Array_of]. *)
  Uint8Array_of_other : json -> result bytes
}.

(** ** The random source *)

(** The bytes [crypto.getRandomValues] will hand out, in order. *)
Definition rng : Type := nat -> byte.

(** [crypto.getRandomValues(new Uint8Array(n))]: the next [n] bytes. *)
Definition getRandomValues (n : nat) (g : rng) : bytes * rng :=
  (map g (seq 0 n), fun i => g (n + i)%nat).

(** ** Strings *)

(** [String.fromCharCode(...bs)]: one argument per byte. *)
Definition fromCharCode_spread (W : Platform) (bs : bytes) : result jsstring :=
  if Nat.leb (List.length bs) (max_arguments W)
  then ret (fromCharCode bs)
  else throw RangeError.

(** [s.padEnd(n, fill)] for a one-character [fill]. *)
Definition padEnd (s : jsstring) (n : nat) (fill : N) : jsstring :=
  s ++ repeat fill (n - List.length s).

(** [s.slice(0, n)] *)
Definition slice_to (s : jsstring) (n : nat) : jsstring := firstn n s.

(** [s.split(sep)] for a one-character separator. *)
Fixpoint split (sep : N) (s : jsstring) : list jsstring :=
  match s with
  | [] => [[]]
  | c :: rest =>
      if c =? sep then [] :: split sep rest
      else
        match split sep rest with
        | part :: parts => (c :: part) :: parts
        | [] => [[c]]
        end
  end.

(** ** Objects *)

(** The value of the last member named [name]. *)
Fixpoint lookup (name : jsstring) (members : list (jsstring * json))
  : option json :=
  match members with
  | [] => None
  | (k, v) :: rest =>
      match lookup name rest with
      | Some later => Some later
      | None => if jsstring_eqb k name then Some v else None
      end
  end.

(** [obj.name] for a value read by [JSON.parse] and a name that no
    prototype defines; [None] is [undefined]. *)
Definition get_property (obj : json) (name : jsstring) : result (option json) :=
  match obj with
  | JNull => throw TypeError
  | JObject members => ret (lookup name members)
  | _ => ret None
  end.

(** ** Typed arrays *)

(** The byte a number is stored as: the number modulo 256. *)
Definition byte_of_Z (z : Z) : byte := byte_of_N (Z.to_N (z mod 256)).

Fixpoint integers (xs : list json) : option (list Z) :=
  match xs with
  | [] => Some []
  | JNumber (Int z) :: rest =>
      match integers rest with
      | Some zs => Some (z :: zs)
      | None => None
      end
  | _ :: _ => None
  end.

(** [new Uint8Array(v)]: an array of integers gives its elements modulo
    256; [undefined], [null] and [false] give the empty array, [true] one
    zero byte. *)
Definition Uint8Array_of (W : Platform) (v : option json) : result bytes :=
  match v with
  | None => ret []
  | Some JNull => ret []
  | Some (JBool false) => ret []
  | Some (JBool true) => ret [x00]
  | Some (JArray xs) =>
      match integers xs with
      | Some zs => ret (map byte_of_Z zs)
      | None => Uint8Array_of_other W (JArray xs)
      end
  | Some other => Uint8Array_of_other W other
  end.

(** ** Keys *)

(** [crypto.subtle.importKey("raw", keyData, {name: "AES-..."}, ...)]: an
    AES key has 128, 192 or 256 bits. *)
Definition import_aes_key (keyData : bytes) : result bytes :=
  match List.length keyData with
  | 16%nat | 24%nat | 32%nat => ret keyData
  | _ => throw DataError
  end.

(** [crypto.subtle.decrypt({name: "AES-GCM", iv}, key, data)] *)
Definition subtle_decrypt_gcm (W : Platform) (key iv data : bytes) : result bytes :=
  match aes_gcm_decrypt W key iv data with
  | Some plaintext => ret plaintext
  | None => throw OperationError
  end.

(** ** AES-CBC with PKCS#7 padding *)

Definition byte_xor (a b : byte) : byte :=
  byte_of_N (N.lxor (Byte.to_N a) (Byte.to_N b)).

(** Byte-wise exclusive or, as long as the shorter sequence. *)
Fixpoint xor_bytes (a b : bytes) : bytes :=
  match a, b with
  | x :: a', y :: b' => byte_xor x y :: xor_bytes a' b'
  | _, _ => []
  end.

(** The padding of a plaintext: [n] bytes of value [n], with [n] between 1
    and 16 completing the last block. *)
Definition pkcs7_pad (p : bytes) : bytes :=
  let n := (16 - Nat.modulo (List.length p) 16)%nat in
  p ++ repeat (byte_of_N (N.of_nat n)) n.

Definition pkcs7_unpad (padded : bytes) : option bytes :=
  let n := N.to_nat (Byte.to_N (last padded x00)) in
  if Nat.leb 1 n && Nat.leb n 16 && Nat.leb n (List.length padded) &&
     forallb (fun b => Byte.eqb b (last padded x00))
             (skipn (List.length padded - n) padded)
  then Some (firstn (List.length padded - n) padded)
  else None.

(** CBC over the blocks of [input]; [blocks] bounds their number. *)
Fixpoint cbc_encrypt_blocks (W : Platform) (blocks : nat) (key prev input : bytes)
  : bytes :=
  match blocks with
  | O => []
  | S blocks' =>
      match input with
      | [] => []
      | _ :: _ =>
          let c := aes_encrypt_block W key (xor_bytes (firstn 16 input) prev) in
          c ++ cbc_encrypt_blocks W blocks' key c (skipn 16 input)
      end
  end.

Fixpoint cbc_decrypt_blocks (W : Platform) (blocks : nat) (key prev input : bytes)
  : bytes :=
  match blocks with
  | O => []
  | S blocks' =>
      match input with
      | [] => []
      | _ :: _ =>
          let c := firstn 16 input in
          xor_bytes (aes_decrypt_block W key c) prev ++
          cbc_decrypt_blocks W blocks' key c (skipn 16 input)
      end
  end.

(** [crypto.subtle.encrypt({name: "AES-CBC", iv}, key, data)] *)
Definition subtle_encrypt_cbc (W : Platform) (key iv data : bytes) : result bytes :=
  if Nat.eqb (List.length iv) 16 then
    let padded := pkcs7_pad data in
    ret (cbc_encrypt_blocks W (List.length padded) key iv padded)
  else throw OperationError.

(** [crypto.subtle.decrypt({name: "AES-CBC", iv}, key, data)] *)
Definition subtle_decrypt_cbc (W : Platform) (key iv data : bytes) : result bytes :=
  if Nat.eqb (List.length iv) 16 &&
     Nat.eqb (Nat.modulo (List.length data) 16) 0 &&
     negb (Nat.eqb (List.length data) 0)
  then
    match pkcs7_unpad (cbc_decrypt_blocks W (List.length data) key iv data) with
    | Some plaintext => ret plaintext
    | None => throw OperationError
    end
  else throw OperationError.


(** A note as the loader returns it. *)
Record note : Type := mk_note {
  note_id : jsstring;
  note_text : jsstring
}.

(* ================================================================== *)
(** * PBKDF2 and AES-GCM: app/routes/$id.tsx, first version *)
(* ================================================================== *)

Module Pbkdf2Gcm.

Local Open Scope result_scope.

Section WithPlatform.

Variable W : Platform.

(** The constants of [deriveKey] (lines 14 and 26). *)
Definition salt : bytes := TextEncoder_encode (js "fixed-salt-for-derivation").
Definition iterations : N := 150000.

(** [deriveKey(password)] (lines 12-34): the key material is the encoded
    password, imported as it is; importing PBKDF2 key material and deriving
    from it reject no password. *)
Definition deriveKey (password : jsstring) : result bytes :=
  let keyMaterial := TextEncoder_encode password in
  ret (pbkdf2_sha256 W keyMaterial salt iterations).

(** [encryptText(password, plaintext)] (lines 36-49), with the random
    source threaded. *)
Definition encryptText (password plaintext : jsstring) (g : rng)
  : result jsstring * rng :=
  match deriveKey password with
  | inl e => (inl e, g)
  | inr key =>
      let '(iv, g') := getRandomValues 12 g in
      let encoded := TextEncoder_encode plaintext in
      let ciphertext := aes_gcm_encrypt W key iv encoded in
      (ret (stringify_iv_data iv ciphertext), g')
  end.

(** What the handler of [decryptText] throws. *)
Definition bad_password : exn := Error "Bad password or corrupted data".

(** [decryptText(password, cipherJson)] (lines 51-69): whatever the body
    throws, the handler throws [bad_password]. *)
Definition decryptText (password cipherJson : jsstring) : result jsstring :=
  try_catch
    (key <- deriveKey password ;;
     obj <- JSON_parse cipherJson ;;
     iv_value <- get_property obj (js "iv") ;;
     iv <- Uint8Array_of W iv_value ;;
     data_value <- get_property obj (js "data") ;;
     data <- Uint8Array_of W data_value ;;
     plaintext <- subtle_decrypt_gcm W key iv data ;;
     ret (TextDecoder_decode plaintext))
    (fun _ => throw bad_password).

(** The state of the component (lines 116-119). *)
Record state : Type := mk_state {
  password : jsstring;
  unlocked : bool;
  decryptedNotes : list note;
  error : jsstring
}.

(** [useState] initial values. *)
Definition initial_state : state := mk_state [] false [] [].

(** [attemptUnlock()] (lines 121-134): one [try] around the loop over all
    notes; the handler sets the error and nothing else. *)
Definition attemptUnlock (notes : list note) (st : state) : state :=
  match mapM (fun n =>
                dec <- decryptText (password st) (note_text n) ;;
                ret (mk_note (note_id n) dec)) notes with
  | inr out => mk_state (password st) true out []
  | inl _ =>
      mk_state (password st) (unlocked st) (decryptedNotes st)
               (js "Incorrect password")
  end.

(** The key [deriveKey] gives. *)
Definition key_of (password : jsstring) : bytes :=
  pbkdf2_sha256 W (TextEncoder_encode password) salt iterations.

End WithPlatform.

End Pbkdf2Gcm.


(* ================================================================== *)
(** * AES-GCM under the padded key string: unnamed/part_001 *)
(* ================================================================== *)

Module RawKeyGcm.

Local Open Scope result_scope.

Section WithPlatform.

Variable W : Platform.

(** [!key] *)
Definition is_empty (s : jsstring) : bool :=
  match s with
  | [] => true
  | _ :: _ => false
  end.

(** [encoder.encode(key.padEnd(32, '0').slice(0, 32))] *)
Definition keyData (key : jsstring) : bytes :=
  TextEncoder_encode (slice_to (padEnd key 32 (ch "0")) 32).

(** [encryptText(text, key)] (lines 10-44), with the random source
    threaded. *)
Definition encryptText (text key : jsstring) (g : rng) : result jsstring * rng :=
  if is_empty key then (ret text, g)
  else
    match import_aes_key (keyData key) with
    | inl e => (inl e, g)
    | inr cryptoKey =>
        let '(iv, g') := getRandomValues 12 g in
        let encrypted := aes_gcm_encrypt W cryptoKey iv (TextEncoder_encode text) in
        let combined := iv ++ encrypted in
        (s <- fromCharCode_spread W combined ;; btoa s, g')
    end.

(** What the handler of [decryptText] puts before the stored text. *)
Definition failure_prefix : jsstring := js "[Decryption Failed - Invalid Key?] ".

(** [decryptText(encryptedText, key)] (lines 46-83): the handler returns
    a string, it throws nothing. *)
Definition decryptText (encryptedText key : jsstring) : result jsstring :=
  if is_empty key then ret encryptedText
  else
    try_catch
      (decoded <- atob encryptedText ;;
       let combined := charCodes decoded in
       let iv := firstn 12 combined in
       let encrypted := skipn 12 combined in
       cryptoKey <- import_aes_key (keyData key) ;;
       decrypted <- subtle_decrypt_gcm W cryptoKey iv encrypted ;;
       ret (TextDecoder_decode decrypted))
      (fun _ => ret (failure_prefix ++ encryptedText)).

(** An entry of the list the component shows (line 129). *)
Record shown_note : Type := mk_shown {
  shown_id : jsstring;
  shown_text : jsstring;
  isEncrypted : bool
}.

(** The state of the component (lines 127-130). *)
Record state : Type := mk_state {
  encryptKey : jsstring;
  decryptKey : jsstring;
  decryptedNotes : list shown_note;
  showDecryptAll : bool
}.

(** The effect on [notes] (lines 133-139): every note as it is stored. *)
Definition show_stored (notes : list note) : list shown_note :=
  map (fun n => mk_shown (note_id n) (note_text n) false) notes.

(** The callback [handleDecryptAll] maps over the notes (lines 187-202). *)
Definition decrypt_note (key : jsstring) (n : note) : result shown_note :=
  try_catch
    (decryptedText <- decryptText (note_text n) key ;;
     ret (mk_shown (note_id n) decryptedText
                   (negb (jsstring_eqb (note_text n) decryptedText))))
    (fun _ => ret (mk_shown (note_id n) (note_text n) false)).

(** [handleDecryptAll()] (lines 180-206): [Promise.all] over the notes,
    then [setDecryptedNotes]. *)
Definition handleDecryptAll (notes : list note) (st : state) : state :=
  if is_empty (decryptKey st) then st
  else
    match mapM (decrypt_note (decryptKey st)) notes with
    | inr decrypted =>
        mk_state (encryptKey st) (decryptKey st) decrypted (showDecryptAll st)
    | inl _ => st
    end.

(** [handleResetDecrypt()] (lines 208-215) *)
Definition handleResetDecrypt (notes : list note) (st : state) : state :=
  mk_state (encryptKey st) [] (show_stored notes) (showDecryptAll st).

End WithPlatform.

End RawKeyGcm.

(* ================================================================== *)
(** * AES-CBC under the raw password: app/routes/$id.tsx, second version *)
(* ================================================================== *)

Module AesCbc.

Local Open Scope result_scope.

Section WithPlatform.

Variable W : Platform.

(** [importKey(password)] (lines 271-279) *)
Definition importKey (password : jsstring) : result bytes :=
  import_aes_key (TextEncoder_encode password).

(** [iv_b64 + ":" + ct_b64] *)
Definition join_record (iv_b64 ct_b64 : jsstring) : jsstring :=
  iv_b64 ++ ch ":" :: ct_b64.

(** [encryptText(text, password)] (lines 281-297), with the random source
    threaded. *)
Definition encryptText (text password : jsstring) (g : rng)
  : result jsstring * rng :=
  match importKey password with
  | inl e => (inl e, g)
  | inr key =>
      let '(iv, g') := getRandomValues 16 g in
      let encoded := TextEncoder_encode text in
      (ciphertext <- subtle_encrypt_cbc W key iv encoded ;;
       iv_chars <- fromCharCode_spread W iv ;;
       iv_b64 <- btoa iv_chars ;;
       ct_chars <- fromCharCode_spread W ciphertext ;;
       ct_b64 <- btoa ct_chars ;;
       ret (join_record iv_b64 ct_b64), g')
  end.

(** [decryptText(text, password)] (lines 299-312); a missing second part
    is [undefined], which [atob] reads as the string "undefined".  There is
    no handler: what a step throws, the function throws. *)
Definition decryptText (text password : jsstring) : result jsstring :=
  let parts := split (ch ":") text in
  let ivB64 := nth 0 parts (js "undefined") in
  let ctB64 := nth 1 parts (js "undefined") in
  iv_chars <- atob ivB64 ;;
  let iv := charCodes iv_chars in
  ct_chars <- atob ctB64 ;;
  let ciphertext := charCodes ct_chars in
  key <- importKey password ;;
  plaintext <- subtle_decrypt_cbc W key iv ciphertext ;;
  ret (TextDecoder_decode plaintext).

End WithPlatform.

End AesCbc.

(* ================================================================== *)
(** * The age armor: unnamed/part_000 *)
(* ================================================================== *)

Module Age.

Local Open Scope result_scope.

Section WithPlatform.

Variable W : Platform.

(** The recipient (line 65). *)
Definition AGE_PUBLIC_KEY : jsstring :=
  js "age1hxapl72mrxyuxq7ks4h52tggsajq97mycz2r0520327v5hqgd33q553djp".

(** The line feed. *)
Definition LF : N := 10.

(** The armor lines (lines 83-84). *)
Definition header : jsstring := js "-----BEGIN AGE ENCRYPTED FILE-----" ++ [LF].
Definition footer : jsstring := LF :: js "-----END AGE ENCRYPTED FILE-----".

(** What stands between the header and the payload. *)
Definition recipient_line : jsstring :=
  js "Recipient: " ++ AGE_PUBLIC_KEY ++ [LF; LF].

(** [encryptWithAge(text)] (lines 75-96); the handler throws what it
    caught. *)
Definition encryptWithAge (text : jsstring) : result jsstring :=
  try_catch
    (let data := TextEncoder_encode text in
     chars <- fromCharCode_spread W data ;;
     payload <- btoa chars ;;
     let ageFormat := header ++ recipient_line ++ payload ++ footer in
     ret ageFormat)
    (fun err => throw err).

End WithPlatform.

(** A reader without any key: the payload between the recipient line and
    the footer, decoded from base64 and from UTF-8. *)
Definition payload_of (record : jsstring) : jsstring :=
  let body := skipn (List.length (header ++ recipient_line)) record in
  firstn (List.length body - List.length footer) body.

Definition read_without_key (record : jsstring) : result jsstring :=
  bind (atob (payload_of record))
       (fun chars => ret (utf8_decode (charCodes chars))).

End Age.


(* ================================================================== *)
(** * The notions the theorems are stated with *)
(* ================================================================== *)

(** ** What is assumed of the primitives, where it is assumed *)

(** AES-GCM decrypts what it encrypted. *)
Definition gcm_correct (W : Platform) : Prop :=
  forall key iv plaintext,
    aes_gcm_decrypt W key iv (aes_gcm_encrypt W key iv plaintext) = Some plaintext.

(** AES maps 16-byte blocks to 16-byte blocks. *)
Definition block_cipher (W : Platform) : Prop :=
  forall key block,
    List.length (aes_decrypt_block W key block) = 16%nat /\
    List.length (aes_encrypt_block W key block) = 16%nat.

(** The block cipher is inverted by its inverse. *)
Definition block_inverse (W : Platform) : Prop :=
  forall key block,
    List.length block = 16%nat ->
    aes_decrypt_block W key (aes_encrypt_block W key block) = block.

(** ** Parts of a record and of a run *)

(** The nonce an encryption started with the random source [g] draws. *)
Definition nonce_of (size : nat) (g : rng) : bytes := fst (getRandomValues size g).

(** The result of a run that is known to return. *)
Definition returned (r : result jsstring) : jsstring :=
  match r with
  | inr s => s
  | inl _ => []
  end.

(** The nonce and the AES-GCM output inside a record of the raw-key
    version. *)
Definition rawkey_nonce (record : jsstring) : bytes :=
  firstn 12 (charCodes (returned (atob record))).
Definition rawkey_ciphertext (record : jsstring) : bytes :=
  skipn 12 (charCodes (returned (atob record))).

(** [bs] with the byte at index [i] combined with [mask] by exclusive or. *)
Definition flip_byte (i : nat) (mask : byte) (bs : bytes) : bytes :=
  firstn i bs ++
  match skipn i bs with
  | b :: rest => byte_xor b mask :: rest
  | [] => []
  end.


(** ** Keys *)

(** The key string the raw-key version really uses. *)
Definition padded_key (key : jsstring) : jsstring :=
  slice_to (padEnd key 32 (ch "0")) 32.

(** A string of ASCII characters. *)
Definition is_ascii (s : jsstring) : bool := forallb (fun c => c <? 0x80) s.

(* ================================================================== *)
(** * A platform to run the route on *)
(* ================================================================== *)

(** Stand-ins for the primitives, simple enough to compute with: they keep
    the interface of the real ones (an authenticated cipher that accepts
    what it produced and compares a 16-byte tag, a block cipher on 16-byte
    blocks with its inverse) and none of their strength.  The concrete runs
    below use them; the theorems hold for every platform. *)
Module Sample.

Definition bytes_eqb (a b : bytes) : bool :=
  if list_eq_dec Byte.byte_eq_dec a b then true else false.

Definition checksum (bs : bytes) : byte := fold_left byte_xor bs x00.

(** A tag that depends on the key, the nonce and the text. *)
Definition tag (key iv text : bytes) : bytes :=
  map (fun i => byte_xor (nth i key x00)
                  (byte_xor (nth i iv x00) (checksum text)))
      (seq 0 16).

Definition gcm_encrypt (key iv plaintext : bytes) : bytes :=
  plaintext ++ tag key iv plaintext.

Definition gcm_decrypt (key iv data : bytes) : option bytes :=
  let n := (List.length data - 16)%nat in
  if Nat.leb 16 (List.length data) &&
     bytes_eqb (skipn n data) (tag key iv (firstn n data))
  then Some (firstn n data)
  else None.

Definition pbkdf2 (password salt : bytes) (iterations : N) : bytes :=
  firstn 32 (password ++ salt ++ repeat x00 32).

(** A block of exactly 16 bytes. *)
Definition block16 (bs : bytes) : bytes := firstn 16 (bs ++ repeat x00 16).

Definition encrypt_block (key block : bytes) : bytes :=
  xor_bytes (block16 block) (block16 key).

Definition platform : Platform := {|
  pbkdf2_sha256 := pbkdf2;
  aes_gcm_encrypt := gcm_encrypt;
  aes_gcm_decrypt := gcm_decrypt;
  aes_encrypt_block := encrypt_block;
  aes_decrypt_block := encrypt_block;
  max_arguments := 65536;
  Uint8Array_of_other := fun _ => ret []
|}.

(** A random source. *)
Definition random : rng := fun i => byte_of_N (N.of_nat (7 * i + 1)).

End Sample.

(** ** Notes stored on the sample platform *)


(** The text [buy milk] behind a byte order mark, under [hunter2]. *)
Definition bom_record : jsstring :=
  Eval vm_compute in
    match fst (Pbkdf2Gcm.encryptText Sample.platform (js "hunter2")
                 (0xFEFF :: js "buy milk") Sample.random) with
    | inr r => r
    | inl _ => []
    end.

(** The note [buy milk] as the raw-key version stores it under the key
    [correct], and as the PBKDF2 version stores it under [hunter2]. *)
Definition milk_record : jsstring :=
  Eval vm_compute in
    returned (fst (RawKeyGcm.encryptText Sample.platform (js "buy milk")
                     (js "correct") Sample.random)).

Definition hunter2_record : jsstring :=
  Eval vm_compute in
    returned (fst (Pbkdf2Gcm.encryptText Sample.platform (js "hunter2")
                     (js "buy milk") Sample.random)).

(** The same note as the raw-key version stores it under [hunter2]. *)
Definition hunter2_b64 : jsstring :=
  Eval vm_compute in
    returned (fst (RawKeyGcm.encryptText Sample.platform (js "buy milk")
                     (js "hunter2") Sample.random)).

(** The record of [buy milk] under the key [abc]. *)
Definition abc_record : jsstring :=
  Eval vm_compute in
    returned (fst (RawKeyGcm.encryptText Sample.platform (js "buy milk")
                     (js "abc") Sample.random)).

(** The 16-byte note [attack at dawn!!] under a 16-byte password, as the
    CBC version stores it: the nonce and the ciphertext of the record. *)
Definition dawn_password : jsstring := js "0123456789abcdef".
Definition dawn_iv : bytes := Eval vm_compute in nonce_of 16 Sample.random.
Definition dawn_ciphertext : bytes :=
  Eval vm_compute in
    match subtle_encrypt_cbc Sample.platform
            (TextEncoder_encode dawn_password) dawn_iv
            (TextEncoder_encode (js "attack at dawn!!")) with
    | inr c => c
    | inl _ => []
    end.

(** Three notes of the PBKDF2 version: the first under [alpha], the others
    under [bravo]. *)
Definition three_notes : list note :=
  Eval vm_compute in
    let '(r1, g1) := Pbkdf2Gcm.encryptText Sample.platform (js "alpha")
                       (js "first") Sample.random in
    let '(r2, g2) := Pbkdf2Gcm.encryptText Sample.platform (js "bravo")
                       (js "second") g1 in
    let '(r3, _) := Pbkdf2Gcm.encryptText Sample.platform (js "bravo")
                      (js "third") g2 in
    [mk_note (js "1") (returned r1); mk_note (js "2") (returned r2);
     mk_note (js "3") (returned r3)].

(** The record of an accented note. *)
Definition cafe_record : jsstring :=
  Eval vm_compute in
    returned (Age.encryptWithAge Sample.platform (js "caf" ++ [0xE9; 0x20AC])).

(* ================================================================== *)
(** * Auxiliary definitions of the proofs *)
(* ================================================================== *)

(** ** A bounded universal quantifier that computes *)

Definition forall_below (n : N) (P : N -> bool) : bool :=
  snd (N.iter n (fun '(i, ok) => (N.succ i, ok && P i)) (0, true)).

(** ** Decoding what the encoder wrote *)

(** [cp] is a Unicode scalar value. *)
Definition is_scalar (cp : N) : bool :=
  (cp <? 0xD800) || ((0xE000 <=? cp) && (cp <? 0x110000)).

(** The decoder run over [bs] with what follows left open: the code points
    emitted and the state reached. *)
Fixpoint utf8_feed (st : utf8_state) (bs : bytes) : list N * utf8_state :=
  match bs with
  | [] => ([], st)
  | b :: rest =>
      let '(out, st') := utf8_step st (Byte.to_N b) in
      let '(out', st'') := utf8_feed st' rest in
      (out ++ out', st'')
  end.


(** The sextets of a byte sequence, and the padding that completes its
    last group. *)
Fixpoint sextets_of_bytes (bs : bytes) : list N :=
  match bs with
  | [] => []
  | [a] =>
      let a := Byte.to_N a in [a / 4; a mod 4 * 16]
  | [a; b] =>
      let a := Byte.to_N a in
      let b := Byte.to_N b in
      [a / 4; a mod 4 * 16 + b / 16; b mod 16 * 4]
  | a :: b :: c :: rest =>
      let a := Byte.to_N a in
      let b := Byte.to_N b in
      let c := Byte.to_N c in
      a / 4 :: (a mod 4 * 16 + b / 16) :: (b mod 16 * 4 + c / 64) :: c mod 64 ::
      sextets_of_bytes rest
  end.

Fixpoint padding_of (bs : bytes) : jsstring :=
  match bs with
  | [] => []
  | [_] => [pad_char; pad_char]
  | [_; _] => [pad_char]
  | _ :: _ :: _ :: rest => padding_of rest
  end.


(** What the parser needs to know of the digits of a byte. *)
Definition decimal_ok (n : N) : bool :=
  forallb is_number_char (decimal n) &&
  match decimal n with
  | d :: _ => is_digit d
  | [] => false
  end &&
  match number_of_lexeme (decimal n) with
  | Some (Int z) => Z.eqb z (Z.of_N n)
  | _ => false
  end.

(** The separators that end an element are no part of a number. *)
Definition ends_number (c : N) : Prop := c = ch "," \/ c = ch "]" \/ c = ch "}".

(* ================================================================== *)
(** * Forms, the note manager and the rest of the route *)
(* ================================================================== *)

(** Around its encryption functions every version of the route has the
    same three parts: the server [action] that reads the posted form and
    calls the note manager, the handlers of the component that prepare the
    form, and the code that shows the stored notes.  They are embedded
    here, one module per version, over the functions of the sections
    above. *)

(** ** FormData *)

(** The value of a form entry: a string, or a file. *)
Inductive entry_value : Type :=
| Text (s : jsstring)
| File.

(** The entries of a [FormData], in order. *)
Definition FormData : Type := list (jsstring * entry_value).

(** [formData.get(name)]: the value of the first entry of that name;
    [None] is [null]. *)
Fixpoint FormData_get (name : jsstring) (formData : FormData)
  : option entry_value :=
  match formData with
  | [] => None
  | (k, v) :: rest =>
      if jsstring_eqb k name then Some v else FormData_get name rest
  end.

(** The entries of other names. *)
Definition FormData_delete (name : jsstring) (formData : FormData) : FormData :=
  filter (fun entry => negb (jsstring_eqb (fst entry) name)) formData.

(** [formData.set(name, value)]: the first entry of that name takes the
    value and the further entries of that name are removed; when there is
    none, the entry is appended. *)
Fixpoint FormData_set (name value : jsstring) (formData : FormData) : FormData :=
  match formData with
  | [] => [(name, Text value)]
  | (k, v) :: rest =>
      if jsstring_eqb k name
      then (name, Text value) :: FormData_delete name rest
      else (k, v) :: FormData_set name value rest
  end.

(** [String(v)] for what [formData.get] returned, as an argument declared
    a string converts it: [null] is the text [null], a file the text
    [[object File]]. *)
Definition String_of (v : option entry_value) : jsstring :=
  match v with
  | Some (Text s) => s
  | Some File => js "[object File]"
  | None => js "null"
  end.

(** Whether a condition takes what [formData.get] returned for true: a
    non-empty string or a file. *)
Definition truthy_entry (v : option entry_value) : bool :=
  match v with
  | Some (Text s) => negb (RawKeyGcm.is_empty s)
  | Some File => true
  | None => false
  end.

(** ** The note manager and the responses of the action *)

(** The class [TodoManager] is imported from [~/to-do-manager]; the route
    only calls it.  An action is described by the calls it makes, in
    order, and by the response it gives when they return. *)
Module TodoManager.

Inductive call : Type :=
| create (text : jsstring)
| toggle (id : option entry_value)
| delete (id : option entry_value).

End TodoManager.

(** [{ success: true }], or [Response.json({ error }, { status })]. *)
Inductive response : Type :=
| success
| failure (error : jsstring) (status : N).

(** ** String.prototype.trim *)

(** White space and line terminators of ECMAScript. *)
Definition is_white_space (c : N) : bool :=
  (c =? 0x09) || (c =? 0x0A) || (c =? 0x0B) || (c =? 0x0C) || (c =? 0x0D) ||
  (c =? 0x20) || (c =? 0xA0) || (c =? 0x1680) ||
  ((0x2000 <=? c) && (c <=? 0x200A)) ||
  (c =? 0x2028) || (c =? 0x2029) || (c =? 0x202F) || (c =? 0x205F) ||
  (c =? 0x3000) || (c =? 0xFEFF).

Fixpoint trimStart (s : jsstring) : jsstring :=
  match s with
  | c :: rest => if is_white_space c then trimStart rest else s
  | [] => []
  end.

(** [s.trim()] *)
Definition trim (s : jsstring) : jsstring :=
  rev (trimStart (rev (trimStart s))).

(** ** JSON.stringify of strings *)

(** A lower-case hexadecimal digit. *)
Definition hex_digit (d : N) : N := if d <? 10 then 48 + d else 87 + d.

(** The escape [\uXXXX] of a code unit. *)
Definition UnicodeEscape (c : N) : jsstring :=
  [backslash; ch "u"; hex_digit (c / 4096); hex_digit (c / 256 mod 16);
   hex_digit (c / 16 mod 16); hex_digit (c mod 16)].

(** What [JSON.stringify] writes for a code unit that is no surrogate:
    the short escapes, [\u00XX] for the other control characters, the
    character itself otherwise. *)
Definition escape_code_unit (c : N) : jsstring :=
  if c =? 8 then [backslash; ch "b"]
  else if c =? 9 then [backslash; ch "t"]
  else if c =? 10 then [backslash; ch "n"]
  else if c =? 12 then [backslash; ch "f"]
  else if c =? 13 then [backslash; ch "r"]
  else if c =? quote then [backslash; quote]
  else if c =? backslash then [backslash; backslash]
  else if c <? 0x20 then UnicodeEscape c
  else [c].

(** The characters between the quotes: a surrogate pair is written as it
    is, a surrogate outside a pair as its escape. *)
Fixpoint quoted_characters (s : jsstring) : jsstring :=
  match s with
  | [] => []
  | c :: rest =>
      if is_high_surrogate c then
        match rest with
        | d :: rest' =>
            if is_low_surrogate d then c :: d :: quoted_characters rest'
            else UnicodeEscape c ++ quoted_characters rest
        | [] => UnicodeEscape c
        end
      else if is_low_surrogate c then UnicodeEscape c ++ quoted_characters rest
      else escape_code_unit c ++ quoted_characters rest
  end.

(** [JSON.stringify(s)] for a string. *)
Definition QuoteJSONString (s : jsstring) : jsstring :=
  quote :: quoted_characters s ++ [quote].

(** [JSON.stringify(v)] for what [formData.get] returned: a file has no
    property of its own to write. *)
Definition stringify_entry (v : option entry_value) : jsstring :=
  match v with
  | Some (Text s) => QuoteJSONString s
  | Some File => js "{}"
  | None => js "null"
  end.

(** ** Truth of a value *)

Section Truth.

(** Whether a number literal that [JSON.parse] kept as written denotes
    zero ([0.0], [0e5], [1e-400]): floating point is the platform's. *)
Variable literal_is_zero : jsstring -> bool.

(** Whether [||] takes a value read by [JSON.parse] for true. *)
Definition truthy (v : json) : bool :=
  match v with
  | JNull => false
  | JBool b => b
  | JNumber (Int z) => negb (Z.eqb z 0)
  | JNumber (Literal lexeme) => negb (literal_is_zero lexeme)
  | JString s => negb (RawKeyGcm.is_empty s)
  | JArray _ => true
  | JObject _ => true
  end.

(** [v || other], where [None] is [undefined]. *)
Definition or_else (v : option json) (other : json) : json :=
  match v with
  | Some value => if truthy value then value else other
  | None => other
  end.

End Truth.


(* ================================================================== *)
(** * The rest of the PBKDF2 version: app/routes/$id.tsx, first version *)
(* ================================================================== *)

Module Pbkdf2GcmRoute.

Local Open Scope result_scope.

(** [action] (lines 83-107) *)
Definition action (formData : FormData) : list TodoManager.call * response :=
  match FormData_get (js "intent") formData with
  | Some (Text intent) =>
      if jsstring_eqb intent (js "create") then
        match FormData_get (js "text") formData with
        | Some (Text text) =>
            if RawKeyGcm.is_empty text
            then ([], failure (js "Invalid text") 400)
            else ([TodoManager.create text], success)
        | _ => ([], failure (js "Invalid text") 400)
        end
      else if jsstring_eqb intent (js "delete") then
        ([TodoManager.delete (FormData_get (js "id") formData)], success)
      else ([], failure (js "Invalid intent") 400)
  | _ => ([], failure (js "Invalid intent") 400)
  end.

Section WithPlatform.

Variable W : Platform.

(** [handleCreate(e)] (lines 136-145) on the data of the form,
    [new FormData(e.target)]: the form data it submits. *)
Definition handleCreate (password : jsstring) (formData : FormData) (g : rng)
  : result FormData * rng :=
  let plain := FormData_get (js "text") formData in
  let '(encrypted, g') :=
    Pbkdf2Gcm.encryptText W password (String_of plain) g in
  (encrypted <- encrypted ;;
   ret (FormData_set (js "text") encrypted formData), g').

End WithPlatform.

End Pbkdf2GcmRoute.


(* ================================================================== *)
(** * The rest of the raw-key version: unnamed/part_001 *)
(* ================================================================== *)

Module RawKeyGcmRoute.

Local Open Scope result_scope.

(** [textToStore] of [action] (line 108); [None] is [undefined]. *)
Definition textToStore (formData : FormData) : option jsstring :=
  let text := FormData_get (js "text") formData in
  let encryptedText := FormData_get (js "encryptedText") formData in
  if truthy_entry encryptedText then Some (String_of encryptedText)
  else
    match text with
    | Some _ => Some (String_of text)
    | None => None
    end.

(** [action] (lines 94-123) *)
Definition action (formData : FormData) : list TodoManager.call * response :=
  match FormData_get (js "intent") formData with
  | Some (Text intent) =>
      if jsstring_eqb intent (js "create") then
        match textToStore formData with
        | Some text =>
            if RawKeyGcm.is_empty text
            then ([], failure (js "Invalid text") 400)
            else ([TodoManager.create text], success)
        | None => ([], failure (js "Invalid text") 400)
        end
      else if jsstring_eqb intent (js "delete") then
        ([TodoManager.delete (FormData_get (js "id") formData)], success)
      else ([], failure (js "Invalid intent") 400)
  | _ => ([], failure (js "Invalid intent") 400)
  end.

Section WithPlatform.

Variable W : Platform.

(** [handleEncryptSubmit(event)] (lines 149-178) on the data of the form,
    [new FormData(form)]: the form data it submits, the hidden input
    last, or [None] when it returns without submitting. *)
Definition handleEncryptSubmit (encryptKey : jsstring) (formData : FormData)
           (g : rng) : option FormData * rng :=
  let text := FormData_get (js "text") formData in
  if negb (truthy_entry text) then (None, g)
  else if RawKeyGcm.is_empty encryptKey then
    (Some (formData ++ [(js "encryptedText", Text (String_of text))]), g)
  else
    match RawKeyGcm.encryptText W (String_of text) encryptKey g with
    | (inr encrypted, g') =>
        (Some (formData ++ [(js "encryptedText", Text encrypted)]), g')
    | (inl _, g') => (None, g')
    end.

End WithPlatform.

End RawKeyGcmRoute.


(* ================================================================== *)
(** * The rest of the AES-CBC version: app/routes/$id.tsx, second version *)
(* ================================================================== *)

Module AesCbcRoute.

Local Open Scope result_scope.

(** [action] (lines 327-352) *)
Definition action (formData : FormData) : list TodoManager.call * response :=
  match FormData_get (js "intent") formData with
  | Some (Text intent) =>
      if jsstring_eqb intent (js "create") then
        match FormData_get (js "text") formData with
        | Some (Text text) =>
            if RawKeyGcm.is_empty text
            then ([], failure (js "Invalid text") 400)
            else ([TodoManager.create text], success)
        | _ => ([], failure (js "Invalid text") 400)
        end
      else if jsstring_eqb intent (js "delete") then
        ([TodoManager.delete (FormData_get (js "id") formData)], success)
      else ([], failure (js "Invalid intent") 400)
  | _ => ([], failure (js "Invalid intent") 400)
  end.

(** What the notes show when decryption throws (line 443). *)
Definition failed_to_decrypt : jsstring := js "[Failed to decrypt]".

Section WithPlatform.

Variable W : Platform.

(** The handler [onSubmit] of the create form (lines 380-393), on the
    values of the text area and of the key input: the entries of the form
    that is submitted.  The controls of the form are the text area [text],
    the input [key] and the button [intent] (lines 395-416); a button
    counts only for the submission it started, not for [form.submit()].
    When [encryptText] throws, nothing is submitted. *)
Definition onSubmit (textArea keyInput : jsstring) (g : rng)
  : result FormData * rng :=
  let key := trim keyInput in
  if negb (RawKeyGcm.is_empty key) then
    let '(encrypted, g') := AesCbc.encryptText W textArea key g in
    (encrypted <- encrypted ;;
     ret [(js "text", Text encrypted); (js "key", Text keyInput)], g')
  else
    (ret [(js "text", Text textArea); (js "key", Text keyInput);
          (js "intent", Text (js "create"))], g).

(** The handler [onClick] of the button that decrypts all notes (lines
    430-446), on the value of the key input and the text contents of the
    note elements: their text contents afterwards. *)
Definition onClick (keyInput : jsstring) (noteElements : list jsstring)
  : list jsstring :=
  let key := trim keyInput in
  if RawKeyGcm.is_empty key then noteElements
  else
    map (fun encrypted =>
           match AesCbc.decryptText W encrypted key with
           | inr plain => plain
           | inl _ => failed_to_decrypt
           end)
        noteElements.

End WithPlatform.

End AesCbcRoute.


(* ================================================================== *)
(** * The rest of the age version: unnamed/part_000 *)
(* ================================================================== *)

Module AgeRoute.

Local Open Scope result_scope.

(** [JSON.stringify({ text, encrypted, timestamp })] (lines 36-40) *)
Definition stringify_noteData (text : jsstring) (encrypted : bool)
           (timestamp : option entry_value) : jsstring :=
  ch "{" :: quote :: js "text" ++ quote :: ch ":" :: QuoteJSONString text ++
  ch "," :: quote :: js "encrypted" ++ quote :: ch ":" ::
  (if encrypted then js "true" else js "false") ++
  ch "," :: quote :: js "timestamp" ++ quote :: ch ":" ::
  stringify_entry timestamp ++ [ch "}"].

(** [formData.get("encrypted") === "true"] (line 29) *)
Definition encrypted_flag (formData : FormData) : bool :=
  match FormData_get (js "encrypted") formData with
  | Some (Text s) => jsstring_eqb s (js "true")
  | _ => false
  end.

(** [action] (lines 18-58) *)
Definition action (formData : FormData) : list TodoManager.call * response :=
  match FormData_get (js "intent") formData with
  | Some (Text intent) =>
      if jsstring_eqb intent (js "create") then
        let text := FormData_get (js "text") formData in
        let encrypted := encrypted_flag formData in
        let timestamp := FormData_get (js "timestamp") formData in
        match text with
        | Some (Text text) =>
            if RawKeyGcm.is_empty text
            then ([], failure (js "Invalid text") 400)
            else
              let noteData := stringify_noteData text encrypted timestamp in
              ([TodoManager.create noteData], success)
        | _ => ([], failure (js "Invalid text") 400)
        end
      else if jsstring_eqb intent (js "toggle") then
        ([TodoManager.toggle (FormData_get (js "id") formData)], success)
      else if jsstring_eqb intent (js "delete") then
        ([TodoManager.delete (FormData_get (js "id") formData)], success)
      else ([], failure (js "Invalid intent") 400)
  | _ => ([], failure (js "Invalid intent") 400)
  end.

(** What [parseNote] returns. *)
Record parsed_note : Type := mk_parsed {
  text : json;
  encrypted : json;
  timestamp : json
}.

Section WithTruth.

Variable literal_is_zero : jsstring -> bool.

(** The note as it is stored, taken for plain text (lines 107-111). *)
Definition as_it_is (n : note) : parsed_note :=
  mk_parsed (JString (note_text n)) (JBool false) JNull.

(** [parseNote(note)] (lines 98-113) *)
Definition parseNote (n : note) : result parsed_note :=
  try_catch
    (parsed <- JSON_parse (note_text n) ;;
     parsed_text <- get_property parsed (js "text") ;;
     parsed_encrypted <- get_property parsed (js "encrypted") ;;
     parsed_timestamp <- get_property parsed (js "timestamp") ;;
     ret (mk_parsed
            (or_else literal_is_zero parsed_text (JString (note_text n)))
            (or_else literal_is_zero parsed_encrypted (JBool false))
            (or_else literal_is_zero parsed_timestamp JNull)))
    (fun _ => ret (as_it_is n)).

End WithTruth.

End AgeRoute.


(* ================================================================== *)
(** * Further notions of the theorems *)
(* ================================================================== *)

(** The string has no colon. *)
Definition no_colon (s : jsstring) : Prop := Forall (fun c => c <> ch ":") s.

(** The timestamp [parseNote] shows for the entry the action stored: an
    empty or missing one is [null]. *)
Definition shown_timestamp (v : option entry_value) : json :=
  match v with
  | Some (Text s) => if RawKeyGcm.is_empty s then JNull else JString s
  | Some File => JObject []
  | None => JNull
  end.

(** The value [JSON.parse] reads where [JSON.stringify] wrote an entry. *)
Definition json_of_entry (v : option entry_value) : json :=
  match v with
  | Some (Text s) => JString s
  | Some File => JObject []
  | None => JNull
  end.

(** The calls of an action. *)
Definition calls_of (outcome : list TodoManager.call * response)
  : list TodoManager.call := fst outcome.

(** No literal is taken for zero: a reading of number literals to run
    [parseNote] with. *)
Definition no_zero_literal : jsstring -> bool := fun _ => false.

(** ** Forms on the sample platform *)

(** The data of the create form of the PBKDF2 and raw-key versions with
    [buy milk] typed in: the text area is its only control besides the
    button. *)
Definition milk_form : FormData := [(js "text", Text (js "buy milk"))].

(** What [handleEncryptSubmit] submits for it under the key [correct]. *)
Definition milk_submission : FormData :=
  Eval vm_compute in
    match fst (RawKeyGcmRoute.handleEncryptSubmit Sample.platform
                 (js "correct") milk_form Sample.random) with
    | Some submitted => submitted
    | None => []
    end.

(** The create form of the age version as it is posted for the note
    [buy milk], encryption switched off. *)
Definition age_form : FormData :=
  [(js "text", Text (js "buy milk"));
   (js "timestamp", Text (js "2024-05-01T10:00:00.000Z"));
   (js "encrypted", Text (js "false"));
   (js "intent", Text (js "create"))].

(** The record of [attack at dawn!!] under [dawn_password]. *)
Definition dawn_record : jsstring :=
  Eval vm_compute in
    returned (fst (AesCbc.encryptText Sample.platform (js "attack at dawn!!")
                     dawn_password Sample.random)).

(** The key of that record as it may be typed, with blanks around it. *)
Definition dawn_key_input : jsstring := js " 0123456789abcdef  ".

(** A key with an accented letter. *)
Definition accented_key : jsstring := js "caf" ++ [0xE9].


(* ================================================================== *)
(** * What decryptText reads from a text, and what a record begins with *)
(* ================================================================== *)


(** The nonce and the data decryptText of the PBKDF2 version reads from a
    text before it calls AES-GCM ([JSON.parse], [obj.iv], [obj.data]);
    nothing when one of these steps throws. *)
Definition pbkdf2_fields (W : Platform) (text : jsstring)
  : option (bytes * bytes) :=
  match JSON_parse text with
  | inl _ => None
  | inr obj =>
      match bind (get_property obj (js "iv")) (Uint8Array_of W) with
      | inl _ => None
      | inr iv =>
          match bind (get_property obj (js "data")) (Uint8Array_of W) with
          | inl _ => None
          | inr data => Some (iv, data)
          end
      end
  end.

(** The nonce and the data decryptText of the raw-key version reads from
    a text ([atob], the first 12 bytes, the rest); nothing when [atob]
    throws. *)
Definition rawkey_fields (stored : jsstring) : option (bytes * bytes) :=
  match atob stored with
  | inl _ => None
  | inr decoded =>
      Some (firstn 12 (charCodes decoded), skipn 12 (charCodes decoded))
  end.

(** What decryptText of the raw-key version returns for a stored text
    under a non-empty key, by what it read and what AES-GCM answers. *)
Definition rawkey_outcome (W : Platform) (stored key : jsstring) : jsstring :=
  match rawkey_fields stored with
  | None => RawKeyGcm.failure_prefix ++ stored
  | Some (iv, data) =>
      match import_aes_key (RawKeyGcm.keyData key) with
      | inl _ => RawKeyGcm.failure_prefix ++ stored
      | inr cryptoKey =>
          match aes_gcm_decrypt W cryptoKey iv data with
          | Some accepted => TextDecoder_decode accepted
          | None => RawKeyGcm.failure_prefix ++ stored
          end
      end
  end.

(** What every record of the PBKDF2 version begins with. *)
Definition iv_prefix : jsstring := ch "{" :: quote :: js "iv" ++ quote :: js ":[".

(** Every element is a UTF-16 code unit. *)
Definition code_units (s : jsstring) : bool := forallb (fun c => c <? 0x10000) s.

(** The text with every surrogate outside a pair replaced by U+FFFD. *)
Definition scalar_value_string (s : jsstring) : jsstring :=
  flat_map utf16_of_code_point (code_points s).

(** ** Further notes on the sample platform *)

(** Three notes of the raw-key version: the first under the key [alpha],
    the others under [bravo]. *)
Definition three_raw_notes : list note :=
  Eval vm_compute in
    let '(r1, g1) := RawKeyGcm.encryptText Sample.platform (js "first")
                       (js "alpha") Sample.random in
    let '(r2, g2) := RawKeyGcm.encryptText Sample.platform (js "second")
                       (js "bravo") g1 in
    let '(r3, _) := RawKeyGcm.encryptText Sample.platform (js "third")
                      (js "bravo") g2 in
    [mk_note (js "1") (returned r1); mk_note (js "2") (returned r2);
     mk_note (js "3") (returned r3)].

(** A text that is half a surrogate pair, and its age record. *)
Definition half_pair : jsstring := [0xD83D].
Definition half_pair_record : jsstring :=
  Eval vm_compute in returned (Age.encryptWithAge Sample.platform half_pair).

(** Two keys with an accented letter that pad to the same 32 code units. *)
Definition accented_key0 : jsstring := js "caf" ++ [0xE9; 48].

(* ================================================================== *)
(** * TextEncoder and TextDecoder: the decoder reads what the encoder wrote *)
(* ================================================================== *)

(** ** The model on known encodings *)

Example encode_euro : TextEncoder_encode [0x20AC] = [xe2; x82; xac].
Proof. reflexivity. Qed.
Example decode_euro : TextDecoder_decode [xe2; x82; xac] = [0x20AC].
Proof. reflexivity. Qed.
Example encode_emoji : TextEncoder_encode [0xD83D; 0xDE00] = [xf0; x9f; x98; x80].
Proof. reflexivity. Qed.
Example decode_emoji : TextDecoder_decode [xf0; x9f; x98; x80] = [0xD83D; 0xDE00].
Proof. reflexivity. Qed.
Example decode_truncated : TextDecoder_decode [x61; xe2; x82] = [0x61; 0xFFFD].
Proof. reflexivity. Qed.
Example decode_bom : TextDecoder_decode [xef; xbb; xbf; x61] = [0x61].
Proof. reflexivity. Qed.

(** ** Bytes and numbers *)

Lemma to_N_lt_256 (b : byte) : Byte.to_N b < 256.
Proof. pose proof (Byte.to_N_bounded b). lia. Qed.

Lemma to_N_byte_of_N (n : N) : Byte.to_N (byte_of_N n) = n mod 256.
Proof.
  unfold byte_of_N.
  destruct (Byte.of_N (n mod 256)) eqn:E.
  - now apply Byte.to_of_N.
  - apply Byte.of_N_None_iff in E.
    pose proof (N.mod_upper_bound n 256). lia.
Qed.

Lemma to_N_byte_of_N_small (n : N) : n < 256 -> Byte.to_N (byte_of_N n) = n.
Proof. intros H. rewrite to_N_byte_of_N. now apply N.mod_small. Qed.

Lemma byte_of_N_to_N (b : byte) : byte_of_N (Byte.to_N b) = b.
Proof.
  unfold byte_of_N.
  rewrite N.mod_small by apply to_N_lt_256.
  now rewrite Byte.of_to_N.
Qed.

Lemma to_N_inj (a b : byte) : Byte.to_N a = Byte.to_N b -> a = b.
Proof.
  intros H. rewrite <- (byte_of_N_to_N a), <- (byte_of_N_to_N b). now rewrite H.
Qed.

Lemma charCodes_fromCharCode (bs : bytes) : charCodes (fromCharCode bs) = bs.
Proof.
  unfold charCodes, fromCharCode. rewrite map_map.
  induction bs as [|b bs IH]; simpl; [reflexivity|].
  now rewrite byte_of_N_to_N, IH.
Qed.


Lemma forall_below_spec (n : N) (P : N -> bool) :
  forall_below n P = true -> forall i, i < n -> P i = true.
Proof.
  unfold forall_below.
  set (f := fun '(i, ok) => (N.succ i, ok && P i)).
  assert (H : forall m, fst (N.iter m f (0, true)) = m /\
                        (snd (N.iter m f (0, true)) = true ->
                         forall i, i < m -> P i = true)).
  { induction m as [|m [IH1 IH2]] using N.peano_ind.
    - simpl. split; [reflexivity|]. intros _ i Hi. lia.
    - rewrite N.iter_succ.
      destruct (N.iter m f (0, true)) as [j ok]. simpl in *. subst j.
      split; [reflexivity|].
      intros Hok i Hi. apply andb_true_iff in Hok. destruct Hok as [Hok HP].
      destruct (N.eq_dec i m) as [->|Hne]; [exact HP|].
      apply IH2; [exact Hok | lia]. }
  intros Hn. exact (proj2 (H n) Hn).
Qed.

Lemma utf8_run_app (st : utf8_state) (l1 l2 : bytes) :
  utf8_run st (l1 ++ l2) =
  fst (utf8_feed st l1) ++ utf8_run (snd (utf8_feed st l1)) l2.
Proof.
  revert st. induction l1 as [|b l1 IH]; intros st; simpl; [reflexivity|].
  destruct (utf8_step st (Byte.to_N b)) as [out st'].
  rewrite IH. destruct (utf8_feed st' l1) as [out' st'']. simpl.
  now rewrite app_assoc.
Qed.

(** Appending six payload bits to the code point under construction. *)
Lemma lor_shiftl_6 (c b : N) :
  N.lor (N.shiftl c 6) (N.land b 0x3F) = c * 64 + b mod 64.
Proof.
  change 0x3F with (N.ones 6). rewrite N.land_ones, N.shiftl_mul_pow2.
  change (2 ^ 6) with 64.
  rewrite <- N.lxor_lor, <- N.add_nocarry_lxor; trivial;
    apply N.bits_inj; intros n; rewrite N.land_spec, N.bits_0;
    change 64 with (2 ^ 6);
    (destruct (N.lt_ge_cases n 6) as [Hn|Hn];
     [ rewrite N.mul_pow2_bits_low by exact Hn; reflexivity
     | rewrite N.mod_pow2_bits_high by exact Hn; apply andb_false_r ]).
Qed.

Ltac bool_to_prop :=
  repeat match goal with
    | H : (_ && _) = true |- _ => apply andb_true_iff in H; destruct H
    | H : (_ && _) = false |- _ => apply andb_false_iff in H; destruct H
    | H : (_ || _) = true |- _ => apply orb_true_iff in H; destruct H
    | H : (_ || _) = false |- _ => apply orb_false_iff in H; destruct H
    | H : (_ <=? _) = true |- _ => apply N.leb_le in H
    | H : (_ <=? _) = false |- _ => apply N.leb_gt in H
    | H : (_ <? _) = true |- _ => apply N.ltb_lt in H
    | H : (_ <? _) = false |- _ => apply N.ltb_ge in H
    | H : (_ =? _) = true |- _ => apply N.eqb_eq in H
    | H : (_ =? _) = false |- _ => apply N.eqb_neq in H
    end.

(** Decide the next test of a cascade of conditionals by arithmetic. *)
Ltac decide_if :=
  match goal with
  | |- context [if ?c then _ else _] =>
      let E := fresh "E" in
      destruct c eqn:E; bool_to_prop; try (exfalso; lia)
  end.

Lemma is_scalar_lt (cp : N) : is_scalar cp = true -> cp < 0x110000.
Proof. unfold is_scalar. intros H. bool_to_prop; lia. Qed.

Lemma utf8_lead_ascii b : b <= 0x7F -> utf8_lead b = ([b], utf8_init).
Proof. intros H. unfold utf8_lead. apply N.leb_le in H. now rewrite H. Qed.

Lemma utf8_lead_2 b : 0xC2 <= b <= 0xDF ->
  utf8_lead b = ([], mk_utf8_state (b mod 32) 1 0x80 0xBF).
Proof.
  intros H. unfold utf8_lead.
  destruct (N.leb_spec b 0x7F); [lia|].
  destruct (N.leb_spec 0xC2 b); [|lia].
  destruct (N.leb_spec b 0xDF); [|lia]. simpl.
  change 0x1F with (N.ones 5). now rewrite N.land_ones.
Qed.

Lemma utf8_lead_3 b : 0xE0 <= b <= 0xEF ->
  utf8_lead b = ([], mk_utf8_state (b mod 16) 2
           (if b =? 0xE0 then 0xA0 else 0x80)
           (if b =? 0xED then 0x9F else 0xBF)).
Proof.
  intros H. unfold utf8_lead.
  destruct (N.leb_spec b 0x7F); [lia|].
  destruct (N.leb_spec 0xC2 b); [|lia].
  destruct (N.leb_spec b 0xDF); [lia|].
  destruct (N.leb_spec 0xE0 b); [|lia].
  destruct (N.leb_spec b 0xEF); [|lia]. simpl.
  change 0xF with (N.ones 4). now rewrite N.land_ones.
Qed.

Lemma utf8_lead_4 b : 0xF0 <= b <= 0xF4 ->
  utf8_lead b = ([], mk_utf8_state (b mod 8) 3
           (if b =? 0xF0 then 0x90 else 0x80)
           (if b =? 0xF4 then 0x8F else 0xBF)).
Proof.
  intros H. unfold utf8_lead.
  destruct (N.leb_spec b 0x7F); [lia|].
  destruct (N.leb_spec 0xC2 b); [|lia].
  destruct (N.leb_spec b 0xDF); [lia|].
  destruct (N.leb_spec 0xE0 b); [|lia].
  destruct (N.leb_spec b 0xEF); [lia|].
  destruct (N.leb_spec 0xF0 b); [|lia].
  destruct (N.leb_spec b 0xF4); [|lia]. simpl.
  change 0x7 with (N.ones 3). now rewrite N.land_ones.
Qed.

(** A continuation byte within the bounds of the open sequence. *)
Lemma utf8_step_continue c r lo hi b :
  r <> 0 -> lo <= b <= hi ->
  utf8_step (mk_utf8_state c r lo hi) b =
  if r =? 1 then ([c * 64 + b mod 64], utf8_init)
  else ([], mk_utf8_state (c * 64 + b mod 64) (r - 1) 0x80 0xBF).
Proof.
  intros Hr Hb. unfold utf8_step. cbn [u_remaining u_lower u_upper u_code_point].
  destruct (N.eqb_spec r 0); [contradiction|].
  destruct (N.leb_spec lo b); [|lia].
  destruct (N.leb_spec b hi); [|lia]. simpl.
  now rewrite lor_shiftl_6.
Qed.

Lemma utf8_step_init b : utf8_step utf8_init b = utf8_lead b.
Proof. reflexivity. Qed.

Ltac utf8_next :=
  cbv iota beta; rewrite ?to_N_byte_of_N_small by lia;
  change (3 - 1) with 2; change (2 - 1) with 1;
  change (1 =? 1) with true; change (2 =? 1) with false;
  change (3 =? 1) with false; cbv iota; cbn [app].

(** The bytes of a scalar value feed the decoder back to its initial state
    with exactly that scalar value emitted. *)
Lemma utf8_feed_code_point (cp : N) :
  is_scalar cp = true ->
  utf8_feed utf8_init (utf8_of_code_point cp) = ([cp], utf8_init).
Proof.
  intros Hs. pose proof (is_scalar_lt _ Hs) as Hlt.
  assert (Hsur : cp < 0xD800 \/ 0xE000 <= cp).
  { unfold is_scalar in Hs. bool_to_prop; lia. }
  clear Hs. unfold utf8_of_code_point.
  destruct (N.ltb_spec cp 0x80) as [H1|H1].
  { cbn [utf8_feed]. utf8_next.
    rewrite utf8_step_init, utf8_lead_ascii by lia. reflexivity. }
  destruct (N.ltb_spec cp 0x800) as [H2|H2].
  { cbn [utf8_feed]. utf8_next.
    rewrite utf8_step_init, utf8_lead_2 by lia. utf8_next.
    rewrite utf8_step_continue by lia. utf8_next.
    do 2 f_equal. lia. }
  destruct (N.ltb_spec cp 0x10000) as [H3|H3].
  { cbn [utf8_feed]. utf8_next.
    rewrite utf8_step_init, utf8_lead_3 by lia. utf8_next.
    rewrite utf8_step_continue;
      [ | discriminate
        | destruct (N.eqb_spec (0xE0 + cp / 4096) 0xE0);
          destruct (N.eqb_spec (0xE0 + cp / 4096) 0xED); lia ].
    utf8_next.
    rewrite utf8_step_continue by lia. utf8_next.
    do 2 f_equal. lia. }
  cbn [utf8_feed]. utf8_next.
  rewrite utf8_step_init, utf8_lead_4 by lia. utf8_next.
  rewrite utf8_step_continue;
    [ | discriminate
      | destruct (N.eqb_spec (0xF0 + cp / 262144) 0xF0);
        destruct (N.eqb_spec (0xF0 + cp / 262144) 0xF4); lia ].
  utf8_next.
  rewrite utf8_step_continue by lia. utf8_next.
  rewrite utf8_step_continue by lia. utf8_next.
  do 2 f_equal. lia.
Qed.

Lemma utf8_run_encoded (cps : list N) :
  forallb is_scalar cps = true ->
  utf8_run utf8_init (flat_map utf8_of_code_point cps) = cps.
Proof.
  induction cps as [|cp cps IH]; simpl; intros H; [reflexivity|].
  apply andb_true_iff in H. destruct H as [Hcp Hcps].
  rewrite utf8_run_app, utf8_feed_code_point by exact Hcp.
  simpl. now rewrite IH.
Qed.



(** ** Well-formed strings survive encoding and decoding *)

Lemma utf16_of_pair (c d : N) :
  is_high_surrogate c = true -> is_low_surrogate d = true ->
  utf16_of_code_point (0x10000 + (c - 0xD800) * 0x400 + (d - 0xDC00)) = [c; d].
Proof.
  unfold is_high_surrogate, is_low_surrogate, utf16_of_code_point.
  intros Hc Hd. bool_to_prop.
  destruct (N.ltb_spec (0x10000 + (c - 0xD800) * 0x400 + (d - 0xDC00)) 0x10000);
    [lia|].
  f_equal; [lia | f_equal; lia].
Qed.

Lemma is_scalar_pair (c d : N) :
  is_high_surrogate c = true -> is_low_surrogate d = true ->
  is_scalar (0x10000 + (c - 0xD800) * 0x400 + (d - 0xDC00)) = true.
Proof.
  unfold is_high_surrogate, is_low_surrogate, is_scalar.
  intros Hc Hd. bool_to_prop.
  apply orb_true_iff. right. apply andb_true_iff.
  split; [apply N.leb_le | apply N.ltb_lt]; lia.
Qed.

Lemma is_scalar_unit (c : N) :
  is_high_surrogate c = false -> is_low_surrogate c = false -> c < 0x10000 ->
  is_scalar c = true.
Proof.
  unfold is_high_surrogate, is_low_surrogate, is_scalar.
  intros Hh Hl Hc. apply orb_true_iff.
  destruct (N.ltb_spec c 0xD800); [now left | right].
  apply andb_true_iff. split; [apply N.leb_le | apply N.ltb_lt]; bool_to_prop; lia.
Qed.

Lemma code_points_well_formed (s : jsstring) :
  well_formed s = true ->
  forallb is_scalar (code_points s) = true /\
  flat_map utf16_of_code_point (code_points s) = s.
Proof.
  remember (List.length s) as n eqn:Hn.
  revert s Hn. induction n as [n IH] using lt_wf_ind. intros s Hn Hwf.
  destruct s as [|c rest]; [now split|].
  cbn [well_formed code_points] in Hwf |- *.
  destruct (is_high_surrogate c) eqn:Hh.
  - destruct rest as [|d rest']; [discriminate|].
    apply andb_true_iff in Hwf. destruct Hwf as [Hd Hwf]. rewrite Hd.
    destruct (IH (List.length rest')) with (s := rest') as [IH1 IH2];
      [cbn [List.length] in Hn; lia | reflexivity | exact Hwf |].
    cbn [flat_map forallb].
    rewrite is_scalar_pair, utf16_of_pair, IH1, IH2 by assumption.
    now split.
  - apply andb_true_iff in Hwf. destruct Hwf as [Hwf Hrest].
    apply andb_true_iff in Hwf. destruct Hwf as [Hl Hc].
    apply negb_true_iff in Hl. apply N.ltb_lt in Hc. rewrite Hl.
    destruct (IH (List.length rest)) with (s := rest) as [IH1 IH2];
      [cbn [List.length] in Hn; lia | reflexivity | exact Hrest |].
    cbn [flat_map forallb].
    rewrite is_scalar_unit, IH1, IH2 by assumption.
    unfold utf16_of_code_point. apply N.ltb_lt in Hc. rewrite Hc.
    now split.
Qed.

(** Decoding, the byte order mark kept, inverts encoding on well-formed
    strings. *)
Lemma utf8_decode_encode (s : jsstring) :
  well_formed s = true -> utf8_decode (TextEncoder_encode s) = s.
Proof.
  intros Hwf. destruct (code_points_well_formed s Hwf) as [Hsc Hs].
  unfold utf8_decode, TextEncoder_encode.
  now rewrite utf8_run_encoded.
Qed.

Lemma strip_bom_other_lead (b : byte) (rest : bytes) :
  b <> xef -> strip_bom (b :: rest) = b :: rest.
Proof. intros H. destruct b; try reflexivity. now elim H. Qed.

Lemma strip_bom_other_second (b2 : byte) (rest : bytes) :
  b2 <> xbb -> strip_bom (xef :: b2 :: rest) = xef :: b2 :: rest.
Proof. intros H. destruct b2; try reflexivity. now elim H. Qed.

Lemma strip_bom_other_third (b3 : byte) (rest : bytes) :
  b3 <> xbf -> strip_bom (xef :: xbb :: b3 :: rest) = xef :: xbb :: b3 :: rest.
Proof. intros H. destruct b3; try reflexivity. now elim H. Qed.

Lemma byte_of_N_neq (n : N) (b : byte) :
  n < 256 -> n <> Byte.to_N b -> byte_of_N n <> b.
Proof.
  intros Hn Hne Hb. apply Hne. rewrite <- Hb. now rewrite to_N_byte_of_N_small.
Qed.

Lemma strip_bom_code_point (cp : N) (rest : bytes) :
  cp < 0x110000 -> cp <> 0xFEFF ->
  strip_bom (utf8_of_code_point cp ++ rest) = utf8_of_code_point cp ++ rest.
Proof.
  intros Hlt Hne. unfold utf8_of_code_point.
  destruct (N.ltb_spec cp 0x80);
    [apply strip_bom_other_lead, byte_of_N_neq; cbn [Byte.to_N]; lia|].
  destruct (N.ltb_spec cp 0x800);
    [apply strip_bom_other_lead, byte_of_N_neq; cbn [Byte.to_N]; lia|].
  destruct (N.ltb_spec cp 0x10000);
    [|apply strip_bom_other_lead, byte_of_N_neq; cbn [Byte.to_N]; lia].
  cbn [app].
  destruct (Byte.byte_eq_dec (byte_of_N (0xE0 + cp / 4096)) xef) as [E1|E1];
    [rewrite E1 | now apply strip_bom_other_lead].
  destruct (Byte.byte_eq_dec (byte_of_N (0x80 + (cp / 64) mod 64)) xbb) as [E2|E2];
    [rewrite E2 | now apply strip_bom_other_second].
  apply strip_bom_other_third, byte_of_N_neq; [lia|].
  apply (f_equal Byte.to_N) in E1, E2.
  rewrite to_N_byte_of_N_small in E1, E2 by lia. cbn [Byte.to_N] in E1, E2 |- *. lia.
Qed.

Lemma strip_bom_encode (s : jsstring) :
  well_formed s = true -> starts_with_bom s = false ->
  strip_bom (TextEncoder_encode s) = TextEncoder_encode s.
Proof.
  intros Hwf Hbom. unfold TextEncoder_encode.
  destruct s as [|c rest]; [reflexivity|].
  cbn [well_formed code_points starts_with_bom] in Hwf, Hbom |- *.
  apply N.eqb_neq in Hbom.
  destruct (is_high_surrogate c) eqn:Hh.
  - destruct rest as [|d rest']; [discriminate|].
    apply andb_true_iff in Hwf. destruct Hwf as [Hd _]. rewrite Hd.
    cbn [flat_map]. apply strip_bom_code_point.
    + apply is_scalar_lt. now apply is_scalar_pair.
    + unfold is_high_surrogate, is_low_surrogate in *. bool_to_prop. lia.
  - apply andb_true_iff in Hwf. destruct Hwf as [Hwf _].
    apply andb_true_iff in Hwf. destruct Hwf as [Hl Hc].
    apply negb_true_iff in Hl. apply N.ltb_lt in Hc. rewrite Hl.
    cbn [flat_map]. apply strip_bom_code_point; [lia | exact Hbom].
Qed.

(** [new TextDecoder().decode(new TextEncoder().encode(s))] is [s] for
    well-formed text that does not begin with a byte order mark. *)
Lemma TextDecoder_TextEncoder (s : jsstring) :
  well_formed s = true -> starts_with_bom s = false ->
  TextDecoder_decode (TextEncoder_encode s) = s.
Proof.
  intros Hwf Hbom. unfold TextDecoder_decode.
  rewrite strip_bom_encode by assumption. now apply utf8_decode_encode.
Qed.

(** A leading byte order mark does not survive: the decoder drops it. *)
Lemma TextDecoder_TextEncoder_bom (s : jsstring) :
  well_formed s = true ->
  TextDecoder_decode (TextEncoder_encode (0xFEFF :: s)) = s.
Proof.
  intros Hwf. unfold TextDecoder_decode, TextEncoder_encode.
  change (code_points (0xFEFF :: s)) with (0xFEFF :: code_points s).
  change (flat_map utf8_of_code_point (0xFEFF :: code_points s))
    with (xef :: xbb :: xbf :: flat_map utf8_of_code_point (code_points s)).
  cbn [strip_bom]. now apply utf8_decode_encode.
Qed.

(* ================================================================== *)
(** * btoa and atob: atob reads what btoa wrote *)
(* ================================================================== *)

(** ** The model on known encodings *)

Example btoa_hello : btoa (js "hello") = ret (js "aGVsbG8=").
Proof. reflexivity. Qed.
Example atob_hello : atob (js "aGVsbG8=") = ret (js "hello").
Proof. reflexivity. Qed.
Example atob_unpadded : atob (js "aGVsbG8") = ret (js "hello").
Proof. reflexivity. Qed.
Example atob_spaces : atob (js " aGVs bG8= ") = ret (js "hello").
Proof. reflexivity. Qed.
Example atob_undefined : atob (js "undefined") = throw InvalidCharacterError.
Proof. reflexivity. Qed.
Example atob_bad_char : atob (js "ab!d") = throw InvalidCharacterError.
Proof. reflexivity. Qed.
Example atob_inner_pad : atob (js "ab=d") = throw InvalidCharacterError.
Proof. reflexivity. Qed.
Example btoa_wide : btoa [0x20AC] = throw InvalidCharacterError.
Proof. reflexivity. Qed.

(** ** atob inverts btoa *)

(** Induction over a byte sequence three bytes at a time. *)
Lemma bytes_ind3 (P : bytes -> Prop) :
  P [] -> (forall a, P [a]) -> (forall a b, P [a; b]) ->
  (forall a b c rest, P rest -> P (a :: b :: c :: rest)) ->
  forall bs, P bs.
Proof.
  intros H0 H1 H2 H3.
  fix IH 1. intros [|a [|b [|c rest]]];
    [exact H0 | apply H1 | apply H2 | apply H3, IH].
Qed.

Lemma base64_encode_split (bs : bytes) :
  base64_encode bs = map base64_char (sextets_of_bytes bs) ++ padding_of bs.
Proof.
  induction bs as [| a | a b | a b c rest IH] using bytes_ind3; try reflexivity.
  cbn [base64_encode sextets_of_bytes padding_of map app]. now rewrite IH.
Qed.

Lemma sextets_lt_64 (bs : bytes) : Forall (fun v => v < 64) (sextets_of_bytes bs).
Proof.
  induction bs as [| a | a b | a b c rest IH] using bytes_ind3;
    cbn [sextets_of_bytes]; cbv zeta;
    repeat match goal with
      | |- context [Byte.to_N ?x] =>
          let H := fresh in
          pose proof (to_N_lt_256 x) as H; generalize dependent (Byte.to_N x); intros
      end;
    repeat (constructor; [lia|]); auto.
Qed.

Lemma sextets_length (bs : bytes) :
  Nat.modulo (List.length (sextets_of_bytes bs)) 4 <> 1%nat.
Proof.
  induction bs as [| a | a b | a b c rest IH] using bytes_ind3;
    cbn [sextets_of_bytes List.length]; cbv zeta; cbn [List.length];
    try (cbv; discriminate).
  revert IH. generalize (List.length (sextets_of_bytes rest)). intros n IH.
  change (S (S (S (S n)))) with (4 + n)%nat.
  rewrite Nat.add_comm, <- (Nat.mul_1_l 4) at 1.
  now rewrite Nat.Div0.mod_add.
Qed.

Lemma encode_length (bs : bytes) :
  Nat.modulo (List.length (base64_encode bs)) 4 = 0%nat.
Proof.
  induction bs as [| a | a b | a b c rest IH] using bytes_ind3; try reflexivity.
  cbn [base64_encode]. cbv zeta. cbn [List.length].
  revert IH. generalize (List.length (base64_encode rest)). intros n IH.
  change (S (S (S (S n)))) with (4 + n)%nat.
  rewrite Nat.add_comm, <- (Nat.mul_1_l 4) at 1.
  now rewrite Nat.Div0.mod_add.
Qed.

Lemma bytes_of_sextets_of_bytes (bs : bytes) :
  bytes_of_sextets (sextets_of_bytes bs) = bs.
Proof.
  induction bs as [| a | a b | a b c rest IH] using bytes_ind3;
    cbn [sextets_of_bytes bytes_of_sextets]; cbv zeta;
    cbn [bytes_of_sextets]; rewrite ?IH;
    repeat match goal with
      | |- context [byte_of_N ?e] =>
          lazymatch e with
          | Byte.to_N _ => fail
          | _ => idtac
          end;
          match goal with
          | x : byte |- _ =>
              replace e with (Byte.to_N x)
                by (pose proof (to_N_lt_256 a); try pose proof (to_N_lt_256 b);
                    try pose proof (to_N_lt_256 c); lia)
          end
      end;
    rewrite ?byte_of_N_to_N; reflexivity.
Qed.

Lemma base64_value_char (v : N) : v < 64 -> base64_value (base64_char v) = Some v.
Proof.
  intros Hv.
  assert (H : forall_below 64
                (fun v => match base64_value (base64_char v) with
                          | Some w => w =? v
                          | None => false
                          end) = true) by (vm_compute; reflexivity).
  pose proof (forall_below_spec _ _ H v Hv) as E. cbv beta in E.
  destruct (base64_value (base64_char v)); [|discriminate].
  apply N.eqb_eq in E. now subst.
Qed.

(** Characters of the alphabet: neither white space, nor [=], nor [:]. *)
Lemma base64_char_plain (v : N) :
  is_ascii_whitespace (base64_char v) = false /\
  base64_char v <> pad_char /\ base64_char v <> 58.
Proof.
  unfold is_ascii_whitespace, base64_char, pad_char.
  repeat decide_if;
    (split; [| split; lia]);
    repeat (apply orb_false_iff; split); apply N.eqb_neq; lia.
Qed.

Lemma sextets_of_chars_map (vs : list N) :
  Forall (fun v => v < 64) vs ->
  sextets_of_chars (map base64_char vs) = Some vs.
Proof.
  induction 1 as [|v vs Hv _ IH]; [reflexivity|].
  cbn [map sextets_of_chars]. now rewrite base64_value_char, IH.
Qed.

Lemma padding_of_cases (bs : bytes) :
  padding_of bs = [] \/ padding_of bs = [pad_char] \/
  padding_of bs = [pad_char; pad_char].
Proof.
  induction bs as [| a | a b | a b c rest IH] using bytes_ind3; cbn; auto.
Qed.

Lemma filter_whitespace_encode (bs : bytes) :
  filter (fun c => negb (is_ascii_whitespace c)) (base64_encode bs) =
  base64_encode bs.
Proof.
  induction bs as [| a | a b | a b c rest IH] using bytes_ind3;
    cbn [base64_encode]; cbv zeta; cbn [filter];
    rewrite ?IH;
    repeat match goal with
      | |- context [is_ascii_whitespace (base64_char ?v)] =>
          rewrite (proj1 (base64_char_plain v))
      end; reflexivity.
Qed.

Lemma strip_padding_spec (m p : jsstring) :
  Forall (fun c => c <> pad_char) m ->
  p = [] \/ p = [pad_char] \/ p = [pad_char; pad_char] ->
  strip_padding (m ++ p) = m.
Proof.
  intros Hm Hp. unfold strip_padding. rewrite rev_app_distr.
  assert (Hrev : Forall (fun c => c <> pad_char) (rev m))
    by (apply Forall_forall; intros c Hc; apply in_rev in Hc;
        revert c Hc; now apply Forall_forall).
  destruct Hp as [-> | [-> | ->]]; cbn [rev app].
  - rewrite app_nil_r.
    destruct (rev m) as [|c1 [|c2 r]] eqn:E; [reflexivity | |];
      inversion Hrev as [|? ? Hc1 _]; subst;
      apply N.eqb_neq in Hc1; now rewrite Hc1.
  - destruct (rev m) as [|c2 r] eqn:E; rewrite N.eqb_refl.
    + apply (f_equal (@rev N)) in E. rewrite rev_involutive in E. now subst.
    + inversion Hrev as [|? ? Hc2 _]; subst. apply N.eqb_neq in Hc2.
      rewrite Hc2. change (rev r ++ [c2]) with (rev (c2 :: r)).
      rewrite <- E. apply rev_involutive.
  - rewrite !N.eqb_refl. apply rev_involutive.
Qed.

Lemma sextet_chars_no_pad (vs : list N) :
  Forall (fun c => c <> pad_char) (map base64_char vs).
Proof.
  induction vs as [|v vs IH]; constructor; [apply base64_char_plain | exact IH].
Qed.

(** [atob] gives back the bytes that [base64_encode] encoded. *)
Lemma atob_base64_encode (bs : bytes) :
  atob (base64_encode bs) = ret (fromCharCode bs).
Proof.
  unfold atob. rewrite filter_whitespace_encode, encode_length.
  cbn [Nat.eqb]. rewrite base64_encode_split.
  rewrite strip_padding_spec
    by (apply sextet_chars_no_pad || apply padding_of_cases).
  rewrite length_map.
  destruct (Nat.eqb_spec (Nat.modulo (List.length (sextets_of_bytes bs)) 4) 1)
    as [E|_]; [now apply sextets_length in E|].
  rewrite sextets_of_chars_map by apply sextets_lt_64.
  now rewrite bytes_of_sextets_of_bytes.
Qed.

Lemma btoa_fromCharCode (bs : bytes) :
  btoa (fromCharCode bs) = ret (base64_encode bs).
Proof.
  unfold btoa. rewrite charCodes_fromCharCode.
  replace (forallb (fun c => c <? 256) (fromCharCode bs)) with true;
    [reflexivity|].
  symmetry. apply forallb_forall. intros c Hc.
  apply in_map_iff in Hc. destruct Hc as [b [<- _]].
  apply N.ltb_lt, to_N_lt_256.
Qed.


(** No [:] and no white space occurs in an encoding. *)
Lemma base64_encode_no_colon (bs : bytes) :
  Forall (fun c => c <> 58) (base64_encode bs).
Proof.
  rewrite base64_encode_split. apply Forall_app. split.
  - induction (sextets_of_bytes bs) as [|v vs IH]; constructor;
      [apply base64_char_plain | exact IH].
  - destruct (padding_of_cases bs) as [-> | [-> | ->]];
      repeat constructor; unfold pad_char; lia.
Qed.

(* ================================================================== *)
(** * JSON: the parser reads what the route stringifies *)
(* ================================================================== *)

(** ** The model on known texts *)

Example stringify_example :
  stringify_iv_data [x01; xff] [x0a] =
  ch "{" :: quote :: js "iv" ++ quote :: js ":[1,255]," ++
  quote :: js "data" ++ quote :: js ":[10]}".
Proof. reflexivity. Qed.

Example parse_example :
  JSON_parse (stringify_iv_data [x01; xff] [x0a]) =
  ret (iv_data_object [x01; xff] [x0a]).
Proof. reflexivity. Qed.

Example parse_spaced :
  JSON_parse (js " [1, -2 , 3.5e1, true, null, {}, []] ") =
  ret (JArray [JNumber (Int 1); JNumber (Int (-2)); JNumber (Literal (js "3.5e1"));
               JBool true; JNull; JObject []; JArray []]).
Proof. reflexivity. Qed.

Example parse_not_json : JSON_parse (js "not json") = throw SyntaxError.
Proof. reflexivity. Qed.
Example parse_plain_text : JSON_parse (js "buy milk") = throw SyntaxError.
Proof. reflexivity. Qed.
Example parse_truncated : JSON_parse (ch "{" :: quote :: js "iv" ++ quote :: js ":[1,2")
                          = throw SyntaxError.
Proof. reflexivity. Qed.
Example parse_leading_zero : JSON_parse (js "[01]") = throw SyntaxError.
Proof. reflexivity. Qed.
Example parse_trailing : JSON_parse (js "[1] x") = throw SyntaxError.
Proof. reflexivity. Qed.
Example parse_number_text : JSON_parse (js "12345") = ret (JNumber (Int 12345)).
Proof. reflexivity. Qed.
Example parse_escape :
  JSON_parse (quote :: js "aA\n" ++ [quote]) = ret (JString [97; 65; 10]).
Proof. reflexivity. Qed.



(** ** JSON.parse reads back what JSON.stringify wrote *)

(** Replace the code units of ASCII characters by their numbers. *)
Ltac ch_compute :=
  repeat match goal with
    | |- context [ch ?a] =>
        let v := eval vm_compute in (ch a) in change (ch a) with v
    end;
  unfold quote, backslash.

Lemma span_app (p : N -> bool) (l : jsstring) (c : N) (rest : jsstring) :
  forallb p l = true -> p c = false ->
  span p (l ++ c :: rest) = (l, c :: rest).
Proof.
  intros Hl Hc. induction l as [|a l IH]; cbn [app span].
  - now rewrite Hc.
  - cbn [forallb] in Hl. apply andb_true_iff in Hl. destruct Hl as [Ha Hl].
    now rewrite Ha, IH.
Qed.

Lemma decimal_ok_all : forall_below 256 decimal_ok = true.
Proof. vm_compute. reflexivity. Qed.

Lemma decimal_spec (n : N) :
  n < 256 ->
  forallb is_number_char (decimal n) = true /\
  (exists d ds, decimal n = d :: ds /\ is_digit d = true) /\
  number_of_lexeme (decimal n) = Some (Int (Z.of_N n)).
Proof.
  intros Hn. pose proof (forall_below_spec _ _ decimal_ok_all n Hn) as H.
  unfold decimal_ok in H.
  apply andb_true_iff in H. destruct H as [H H3].
  apply andb_true_iff in H. destruct H as [H1 H2].
  split; [exact H1 | split].
  - destruct (decimal n) as [|d ds]; [discriminate|]. now exists d, ds.
  - destruct (number_of_lexeme (decimal n)) as [[z|?]|]; try discriminate.
    apply Z.eqb_eq in H3. now subst.
Qed.

Lemma parse_value_S (f : nat) (s : jsstring) :
  parse_value (S f) s =
  match skip_ws s with
  | [] => None
  | c :: rest =>
      if c =? ch "[" then
        match skip_ws rest with
        | c' :: rest' =>
            if c' =? ch "]" then Some (JArray [], rest')
            else
              match parse_elements f rest with
              | Some (vs, tail) => Some (JArray vs, tail)
              | None => None
              end
        | [] => None
        end
      else if c =? ch "{" then
        match skip_ws rest with
        | c' :: rest' =>
            if c' =? ch "}" then Some (JObject [], rest')
            else
              match parse_members f rest with
              | Some (ms, tail) => Some (JObject ms, tail)
              | None => None
              end
        | [] => None
        end
      else if c =? quote then
        match parse_string_body rest with
        | Some (str, tail) => Some (JString str, tail)
        | None => None
        end
      else if c =? ch "t" then parse_literal "true" (JBool true) (c :: rest)
      else if c =? ch "f" then parse_literal "false" (JBool false) (c :: rest)
      else if c =? ch "n" then parse_literal "null" JNull (c :: rest)
      else parse_number (c :: rest)
  end.
Proof. reflexivity. Qed.

Lemma parse_elements_S (f : nat) (s : jsstring) :
  parse_elements (S f) s =
  match parse_value f s with
  | Some (v, tail) =>
      match skip_ws tail with
      | c :: rest =>
          if c =? ch "," then
            match parse_elements f rest with
            | Some (vs, tail') => Some (v :: vs, tail')
            | None => None
            end
          else if c =? ch "]" then Some ([v], rest)
          else None
      | [] => None
      end
  | None => None
  end.
Proof. reflexivity. Qed.

Lemma skip_ws_plain (c : N) (rest : jsstring) :
  is_json_ws c = false -> skip_ws (c :: rest) = c :: rest.
Proof. intros H. cbn [skip_ws]. now rewrite H. Qed.

Lemma digit_not_ws (d : N) : is_digit d = true -> is_json_ws d = false.
Proof.
  unfold is_digit, is_json_ws. intros H. bool_to_prop.
  repeat (apply orb_false_iff; split); apply N.eqb_neq; lia.
Qed.

(** A value that starts with a digit is a number. *)
Lemma parse_value_digit (f : nat) (d : N) (rest : jsstring) :
  is_digit d = true -> parse_value (S f) (d :: rest) = parse_number (d :: rest).
Proof.
  intros Hd. rewrite parse_value_S, skip_ws_plain by now apply digit_not_ws.
  unfold is_digit in Hd. bool_to_prop. ch_compute.
  repeat match goal with
    | |- context [d =? ?k] => destruct (N.eqb_spec d k); [lia|]
    end.
  reflexivity.
Qed.

Lemma ends_number_char (c : N) : ends_number c -> is_number_char c = false.
Proof. intros [-> | [-> | ->]]; reflexivity. Qed.

Lemma parse_value_byte (f : nat) (b : byte) (c : N) (rest : jsstring) :
  ends_number c ->
  parse_value (S f) (decimal (Byte.to_N b) ++ c :: rest) =
  Some (number_of_byte b, c :: rest).
Proof.
  intros Hc.
  destruct (decimal_spec (Byte.to_N b) (to_N_lt_256 b))
    as [Hchars [[d [ds [Hd Hdigit]]] Hnum]].
  rewrite Hd at 1. cbn [app]. rewrite parse_value_digit by exact Hdigit.
  change (d :: ds ++ c :: rest) with ((d :: ds) ++ c :: rest). rewrite <- Hd.
  unfold parse_number.
  rewrite span_app by (try apply ends_number_char; assumption).
  now rewrite Hnum.
Qed.

Lemma parse_elements_bytes (bs : bytes) :
  forall (f : nat) (b : byte) (rest : jsstring),
  (List.length bs + 2 <= f)%nat ->
  parse_elements f (stringify_elements b bs ++ ch "]" :: rest) =
  Some (map number_of_byte (b :: bs), rest).
Proof.
  induction bs as [|b' bs IH]; intros f b rest Hf;
    (destruct f as [|[|f]]; [cbn [List.length] in Hf; lia ..|]);
    rewrite parse_elements_S; cbn [stringify_elements].
  - rewrite parse_value_byte by (right; now left). reflexivity.
  - rewrite <- app_assoc. cbn [app].
    rewrite parse_value_byte by now left.
    rewrite skip_ws_plain by reflexivity. rewrite N.eqb_refl.
    rewrite IH by (cbn [List.length] in Hf; lia). reflexivity.
Qed.

Lemma stringify_elements_head (b : byte) (bs : bytes) :
  exists d tail, stringify_elements b bs = d :: tail /\ is_digit d = true.
Proof.
  destruct (decimal_spec (Byte.to_N b) (to_N_lt_256 b))
    as [_ [[d [ds [Hd Hdigit]]] _]].
  destruct bs as [|b' bs]; cbn [stringify_elements]; rewrite Hd.
  - now exists d, ds.
  - cbn [app]. eexists d, _. split; [reflexivity | exact Hdigit].
Qed.

Lemma parse_value_array (bs : bytes) (f : nat) (rest : jsstring) :
  (List.length bs + 2 <= f)%nat ->
  parse_value f (stringify_array bs ++ rest) =
  Some (JArray (map number_of_byte bs), rest).
Proof.
  intros Hf. destruct f as [|f]; [lia|]. rewrite parse_value_S.
  destruct bs as [|b bs]; [reflexivity|].
  cbn [stringify_array app]. rewrite skip_ws_plain by reflexivity.
  rewrite N.eqb_refl, <- app_assoc. cbn [app].
  destruct (stringify_elements_head b bs) as [d [tail [Hd Hdigit]]].
  rewrite Hd at 1. cbn [app].
  rewrite skip_ws_plain by now apply digit_not_ws.
  replace (d =? ch "]") with false
    by (unfold is_digit in Hdigit; bool_to_prop; symmetry; apply N.eqb_neq;
        ch_compute; lia).
  rewrite parse_elements_bytes by (cbn [List.length] in Hf; lia).
  reflexivity.
Qed.

Lemma parse_members_S (f : nat) (s : jsstring) :
  parse_members (S f) s =
  match skip_ws s with
  | q :: rest =>
      if q =? quote then
        match parse_string_body rest with
        | Some (key, tail) =>
            match skip_ws tail with
            | colon :: tail' =>
                if colon =? ch ":" then
                  match parse_value f tail' with
                  | Some (v, tail'') =>
                      match skip_ws tail'' with
                      | c :: rest' =>
                          if c =? ch "," then
                            match parse_members f rest' with
                            | Some (ms, t) => Some ((key, v) :: ms, t)
                            | None => None
                            end
                          else if c =? ch "}" then Some ([(key, v)], rest')
                          else None
                      | [] => None
                      end
                  | None => None
                  end
                else None
            | [] => None
            end
        | None => None
        end
      else None
  | [] => None
  end.
Proof. reflexivity. Qed.

Lemma stringify_array_length (bs : bytes) :
  (List.length bs + 2 <= List.length (stringify_array bs))%nat.
Proof.
  destruct bs as [|b bs]; [cbn; lia|].
  cbn [stringify_array List.length]. rewrite length_app. cbn [List.length].
  enough (List.length bs + 1 <= List.length (stringify_elements b bs))%nat by lia.
  revert b. induction bs as [|b' bs IH]; intros b; cbn [stringify_elements].
  - destruct (decimal_spec (Byte.to_N b) (to_N_lt_256 b))
      as [_ [[d [ds [Hd _]]] _]]. rewrite Hd. cbn [List.length]. lia.
  - rewrite length_app. cbn [List.length]. specialize (IH b'). lia.
Qed.

(** [JSON.parse(JSON.stringify({iv, data}))] is the object with the two
    arrays of numbers. *)
Lemma JSON_parse_stringify (iv data : bytes) :
  JSON_parse (stringify_iv_data iv data) = ret (iv_data_object iv data).
Proof.
  unfold JSON_parse.
  assert (Hlen : (List.length iv + List.length data + 6
                  <= List.length (stringify_iv_data iv data))%nat).
  { unfold stringify_iv_data. cbn [List.length js map list_ascii_of_string app].
    rewrite !length_app. cbn [List.length].
    pose proof (stringify_array_length iv).
    pose proof (stringify_array_length data). rewrite length_app. lia. }
  remember (2 * List.length (stringify_iv_data iv data) + 2)%nat as fuel eqn:Hfuel.
  destruct fuel as [|[|[|f]]]; try lia.
  unfold stringify_iv_data.
  rewrite parse_value_S. rewrite skip_ws_plain by reflexivity.
  rewrite N.eqb_refl. rewrite skip_ws_plain by reflexivity.
  change (quote =? ch "}") with false. cbv iota.
  rewrite parse_members_S. rewrite skip_ws_plain by reflexivity.
  rewrite N.eqb_refl.
  change (parse_string_body (js "iv" ++ quote :: ch ":" :: ?x))
    with (Some (js "iv", ch ":" :: x)).
  cbv iota. rewrite skip_ws_plain by reflexivity. rewrite N.eqb_refl.
  rewrite parse_value_array by lia.
  rewrite skip_ws_plain by reflexivity.
  rewrite N.eqb_refl.
  rewrite parse_members_S. rewrite skip_ws_plain by reflexivity.
  rewrite N.eqb_refl.
  change (parse_string_body (js "data" ++ quote :: ch ":" :: ?x))
    with (Some (js "data", ch ":" :: x)).
  cbv iota. rewrite skip_ws_plain by reflexivity. rewrite N.eqb_refl.
  rewrite parse_value_array by lia.
  rewrite skip_ws_plain by reflexivity.
  change (ch "}" =? ch ",") with false. cbv iota. rewrite N.eqb_refl.
  reflexivity.
Qed.

(* ================================================================== *)
(** * Typed arrays, strings and the block mode *)
(* ================================================================== *)

(** ** Typed arrays and string functions *)

Lemma getRandomValues_length (n : nat) (g : rng) :
  List.length (fst (getRandomValues n g)) = n.
Proof. unfold getRandomValues. cbn [fst]. now rewrite length_map, length_seq. Qed.

Lemma integers_bytes (bs : bytes) :
  integers (map number_of_byte bs) = Some (map (fun b => Z.of_N (Byte.to_N b)) bs).
Proof.
  induction bs as [|b bs IH]; [reflexivity|].
  cbn [map integers number_of_byte]. now rewrite IH.
Qed.

Lemma byte_of_Z_to_N (b : byte) : byte_of_Z (Z.of_N (Byte.to_N b)) = b.
Proof.
  unfold byte_of_Z. pose proof (to_N_lt_256 b).
  rewrite Z.mod_small by lia. rewrite N2Z.id. apply byte_of_N_to_N.
Qed.

Lemma Uint8Array_of_bytes (W : Platform) (bs : bytes) :
  Uint8Array_of W (Some (JArray (map number_of_byte bs))) = ret bs.
Proof.
  unfold Uint8Array_of. rewrite integers_bytes, map_map. f_equal.
  induction bs as [|b bs IH]; [reflexivity|].
  cbn [map]. now rewrite byte_of_Z_to_N, IH.
Qed.

Example split_two : split 58 (js "ab:cd") = [js "ab"; js "cd"].
Proof. reflexivity. Qed.
Example split_none : split 58 (js "abcd") = [js "abcd"].
Proof. reflexivity. Qed.
Example split_empty : split 58 [] = [[]].
Proof. reflexivity. Qed.
Example split_three : split 58 (js "a::b") = [js "a"; []; js "b"].
Proof. reflexivity. Qed.
Example pad_short : padEnd (js "abc") 6 (ch "0") = js "abc000".
Proof. reflexivity. Qed.
Example pad_long : padEnd (js "abcdefgh") 6 (ch "0") = js "abcdefgh".
Proof. reflexivity. Qed.


(** ** decryptText of the PBKDF2 version, step by step *)

Lemma pbkdf2_decryptText_of_json (W : Platform) (password : jsstring)
      (iv data : bytes) :
  Pbkdf2Gcm.decryptText W password (stringify_iv_data iv data) =
  match aes_gcm_decrypt W (Pbkdf2Gcm.key_of W password) iv data with
  | Some plaintext => ret (TextDecoder_decode plaintext)
  | None => throw Pbkdf2Gcm.bad_password
  end.
Proof.
  unfold Pbkdf2Gcm.decryptText, Pbkdf2Gcm.deriveKey. cbn [bind ret].
  rewrite JSON_parse_stringify. cbn [bind ret].
  unfold iv_data_object. cbn [get_property bind ret].
  change (lookup (js "iv") _) with (Some (JArray (map number_of_byte iv))).
  change (lookup (js "data") _) with (Some (JArray (map number_of_byte data))).
  rewrite !Uint8Array_of_bytes. cbn [bind ret].
  unfold subtle_decrypt_gcm, Pbkdf2Gcm.key_of.
  destruct (aes_gcm_decrypt W _ iv data); reflexivity.
Qed.



(** ** decryptText of the raw-key version, step by step *)

Lemma rawkey_decryptText_of_base64 (W : Platform) (key : jsstring)
      (iv encrypted : bytes) :
  RawKeyGcm.is_empty key = false -> List.length iv = 12%nat ->
  RawKeyGcm.decryptText W (base64_encode (iv ++ encrypted)) key =
  match import_aes_key (RawKeyGcm.keyData key) with
  | inl _ => ret (RawKeyGcm.failure_prefix ++ base64_encode (iv ++ encrypted))
  | inr cryptoKey =>
      match aes_gcm_decrypt W cryptoKey iv encrypted with
      | Some plaintext => ret (TextDecoder_decode plaintext)
      | None => ret (RawKeyGcm.failure_prefix ++ base64_encode (iv ++ encrypted))
      end
  end.
Proof.
  intros Hkey Hiv. unfold RawKeyGcm.decryptText. rewrite Hkey.
  rewrite atob_base64_encode. cbn [bind ret].
  rewrite charCodes_fromCharCode.
  replace (firstn 12 (iv ++ encrypted)) with iv
    by (rewrite <- Hiv, firstn_app, Nat.sub_diag, firstn_all, firstn_O;
        now rewrite app_nil_r).
  replace (skipn 12 (iv ++ encrypted)) with encrypted
    by (rewrite <- Hiv, skipn_app, Nat.sub_diag, skipn_all; reflexivity).
  destruct (import_aes_key (RawKeyGcm.keyData key)) as [e|cryptoKey];
    [reflexivity|].
  cbn [bind try_catch]. unfold subtle_decrypt_gcm.
  destruct (aes_gcm_decrypt W cryptoKey iv encrypted); reflexivity.
Qed.

(** decryptText never throws. *)
Lemma rawkey_decryptText_returns (W : Platform) (encryptedText key : jsstring) :
  exists s, RawKeyGcm.decryptText W encryptedText key = ret s.
Proof.
  unfold RawKeyGcm.decryptText.
  destruct (RawKeyGcm.is_empty key); [now eexists|].
  match goal with |- context [try_catch ?b _] => destruct b end;
    cbn [try_catch]; now eexists.
Qed.

(** A record encryptText produced: the base64 of the nonce followed by the
    AES-GCM output. *)
Lemma rawkey_encryptText_record (W : Platform) (text key : jsstring) (g : rng)
      (r : jsstring) :
  RawKeyGcm.is_empty key = false ->
  fst (RawKeyGcm.encryptText W text key g) = ret r ->
  exists cryptoKey,
    import_aes_key (RawKeyGcm.keyData key) = ret cryptoKey /\
    r = base64_encode
          (fst (getRandomValues 12 g) ++
           aes_gcm_encrypt W cryptoKey (fst (getRandomValues 12 g))
                           (TextEncoder_encode text)).
Proof.
  intros Hkey. unfold RawKeyGcm.encryptText. rewrite Hkey.
  destruct (import_aes_key (RawKeyGcm.keyData key)) as [e|cryptoKey];
    [discriminate|].
  cbn [getRandomValues fst]. unfold fromCharCode_spread.
  destruct (Nat.leb _ (max_arguments W)); [|discriminate].
  cbn [bind ret]. rewrite btoa_fromCharCode. intros E. inversion E.
  now exists cryptoKey.
Qed.



(** ** Exclusive or of bytes *)

Lemma lxor_lt_256 (a b : N) : a < 256 -> b < 256 -> N.lxor a b < 256.
Proof.
  intros Ha Hb.
  assert (H : forall_below 256 (fun x =>
                forall_below 256 (fun y => N.lxor x y <? 256)) = true)
    by (vm_compute; reflexivity).
  pose proof (forall_below_spec _ _ H a Ha) as H'. cbv beta in H'.
  apply N.ltb_lt. exact (forall_below_spec _ _ H' b Hb).
Qed.

Lemma to_N_byte_xor (a b : byte) :
  Byte.to_N (byte_xor a b) = N.lxor (Byte.to_N a) (Byte.to_N b).
Proof.
  unfold byte_xor. apply to_N_byte_of_N_small, lxor_lt_256; apply to_N_lt_256.
Qed.

Lemma byte_xor_assoc (a b c : byte) :
  byte_xor a (byte_xor b c) = byte_xor (byte_xor a b) c.
Proof.
  apply to_N_inj. rewrite !to_N_byte_xor. symmetry. apply N.lxor_assoc.
Qed.

Lemma byte_xor_changes (b mask : byte) : mask <> x00 -> byte_xor b mask <> b.
Proof.
  intros Hm E. apply Hm, to_N_inj. apply (f_equal Byte.to_N) in E.
  rewrite to_N_byte_xor in E. cbn [Byte.to_N].
  assert (H : N.lxor (Byte.to_N b) (N.lxor (Byte.to_N b) (Byte.to_N mask))
              = Byte.to_N mask)
    by (rewrite <- N.lxor_assoc, N.lxor_nilpotent; apply N.lxor_0_l).
  rewrite E, N.lxor_nilpotent in H. now symmetry.
Qed.

Lemma flip_byte_cons (i : nat) (mask b : byte) (bs : bytes) :
  flip_byte (S i) mask (b :: bs) = b :: flip_byte i mask bs.
Proof. reflexivity. Qed.

Lemma flip_byte_length (i : nat) (mask : byte) (bs : bytes) :
  List.length (flip_byte i mask bs) = List.length bs.
Proof.
  revert bs. induction i as [|i IH]; intros [|b bs]; try reflexivity.
  rewrite flip_byte_cons. cbn [List.length]. now rewrite IH.
Qed.

Lemma flip_byte_app (i : nat) (mask : byte) (a b : bytes) :
  (i < List.length a)%nat ->
  flip_byte i mask (a ++ b) = flip_byte i mask a ++ b.
Proof.
  revert a. induction i as [|i IH]; intros [|x a] Hi;
    cbn [List.length] in Hi; try lia.
  - reflexivity.
  - cbn [app]. rewrite !flip_byte_cons. cbn [app]. rewrite IH by lia. reflexivity.
Qed.

Lemma flip_byte_changes (i : nat) (mask : byte) (bs : bytes) :
  mask <> x00 -> (i < List.length bs)%nat -> flip_byte i mask bs <> bs.
Proof.
  intros Hm. revert bs. induction i as [|i IH]; intros [|b bs] Hi;
    cbn [List.length] in Hi; try lia.
  - unfold flip_byte. cbn. intros E. inversion E as [E'].
    now apply (byte_xor_changes b mask).
  - rewrite flip_byte_cons. intros E. inversion E as [E'].
    apply (IH bs); [lia | exact E'].
Qed.

Lemma xor_bytes_flip (i : nat) (mask : byte) (d v : bytes) :
  (i < List.length d)%nat -> (i < List.length v)%nat ->
  xor_bytes d (flip_byte i mask v) = flip_byte i mask (xor_bytes d v).
Proof.
  revert d v. induction i as [|i IH]; intros [|x d] [|y v] Hd Hv;
    cbn [List.length] in Hd, Hv; try lia.
  - unfold flip_byte. cbn. now rewrite byte_xor_assoc.
  - rewrite flip_byte_cons. cbn [xor_bytes]. rewrite flip_byte_cons.
    rewrite IH by lia. reflexivity.
Qed.

Lemma xor_bytes_length (a b : bytes) :
  List.length (xor_bytes a b) = Nat.min (List.length a) (List.length b).
Proof.
  revert b. induction a as [|x a IH]; intros [|y b]; try reflexivity.
  cbn [xor_bytes List.length]. now rewrite IH.
Qed.

(** ** Splitting at a separator *)

Lemma split_no_separator (sep : N) (s : jsstring) :
  Forall (fun c => c <> sep) s -> split sep s = [s].
Proof.
  induction 1 as [|c s Hc _ IH]; [reflexivity|].
  cbn [split]. apply N.eqb_neq in Hc. now rewrite Hc, IH.
Qed.

Lemma split_at_separator (sep : N) (a b : jsstring) :
  Forall (fun c => c <> sep) a ->
  split sep (a ++ sep :: b) = a :: split sep b.
Proof.
  induction 1 as [|c a Hc _ IH]; cbn [app split].
  - now rewrite N.eqb_refl.
  - apply N.eqb_neq in Hc. now rewrite Hc, IH.
Qed.



(** ** The nonce of CBC is not authenticated *)

Lemma last_app_nonempty (a b : bytes) (d : byte) :
  b <> [] -> last (a ++ b) d = last b d.
Proof.
  intros Hb. induction a as [|x a IH]; [reflexivity|].
  cbn [app]. rewrite <- IH.
  destruct (a ++ b) eqn:E; [|reflexivity].
  apply app_eq_nil in E. now destruct E.
Qed.

(** Removing the padding only looks at the padding. *)
Lemma pkcs7_unpad_prefix (padded p q : bytes) :
  pkcs7_unpad padded = Some p -> List.length q = List.length p ->
  pkcs7_unpad (q ++ skipn (List.length p) padded) = Some q.
Proof.
  unfold pkcs7_unpad. intros H Hq.
  set (n := N.to_nat (Byte.to_N (last padded x00))) in *.
  destruct (Nat.leb 1 n && Nat.leb n 16 && Nat.leb n (List.length padded) &&
            forallb (fun b => Byte.eqb b (last padded x00))
                    (skipn (List.length padded - n) padded)) eqn:E;
    [|discriminate].
  assert (Hp : firstn (List.length padded - n) padded = p) by congruence.
  clear H.
  apply andb_true_iff in E. destruct E as [E Hall].
  apply andb_true_iff in E. destruct E as [E Hlen].
  apply andb_true_iff in E. destruct E as [H1 H16].
  apply Nat.leb_le in H1, H16, Hlen.
  assert (Hplen : List.length p = (List.length padded - n)%nat)
    by (rewrite <- Hp, length_firstn; lia).
  set (pad := skipn (List.length p) padded).
  assert (Hpadlen : List.length pad = n)
    by (unfold pad; rewrite length_skipn; lia).
  assert (Hpad : pad <> []) by (intros E; rewrite E in Hpadlen; cbn in Hpadlen; lia).
  assert (Hsplit : padded = p ++ pad)
    by (unfold pad; rewrite <- Hp at 1; rewrite Hplen; symmetry;
        apply firstn_skipn).
  assert (Hlast : last (q ++ pad) x00 = last padded x00)
    by (rewrite Hsplit, !last_app_nonempty by exact Hpad; reflexivity).
  rewrite Hlast. fold n.
  assert (Hqlen : List.length (q ++ pad) = List.length padded)
    by (rewrite Hsplit, !length_app; lia).
  rewrite Hqlen.
  replace (skipn (List.length padded - n) (q ++ pad)) with pad
    by (rewrite <- Hplen, <- Hq, skipn_app, Nat.sub_diag, skipn_all;
        reflexivity).
  replace (skipn (List.length padded - n) padded) with pad in Hall
    by (unfold pad; now rewrite Hplen).
  rewrite Hall.
  replace (Nat.leb 1 n && Nat.leb n 16 && Nat.leb n (List.length padded)) with true
    by (symmetry; rewrite !andb_true_iff; repeat split; now apply Nat.leb_le).
  cbn [andb]. f_equal.
  rewrite <- Hplen, <- Hq, firstn_app, Nat.sub_diag, firstn_all, firstn_O.
  apply app_nil_r.
Qed.

Lemma pkcs7_unpad_flip (padded p : bytes) (i : nat) (mask : byte) :
  pkcs7_unpad padded = Some p -> (i < List.length p)%nat ->
  pkcs7_unpad (flip_byte i mask padded) = Some (flip_byte i mask p).
Proof.
  intros H Hi.
  assert (Hk : exists k, p = firstn k padded).
  { unfold pkcs7_unpad in H.
    destruct (_ && _) in H; [|discriminate]. eexists. inversion H. reflexivity. }
  destruct Hk as [k Hk].
  assert (Hp : p = firstn (List.length p) padded).
  { rewrite Hk. rewrite length_firstn.
    destruct (Nat.min_spec k (List.length padded)) as [[_ ->]|[Hle ->]];
      [reflexivity|].
    rewrite firstn_all. apply firstn_all2. lia. }
  rewrite <- (firstn_skipn (List.length p) padded) at 1.
  rewrite <- Hp, flip_byte_app by exact Hi.
  apply pkcs7_unpad_prefix; [exact H | apply flip_byte_length].
Qed.

Lemma cbc_decrypt_blocks_flip (W : Platform) (n : nat) (key iv data : bytes)
      (i : nat) (mask : byte) :
  block_cipher W -> List.length iv = 16%nat -> (i < 16)%nat ->
  data <> [] -> n <> O ->
  cbc_decrypt_blocks W n key (flip_byte i mask iv) data =
  flip_byte i mask (cbc_decrypt_blocks W n key iv data).
Proof.
  intros Hblock Hiv Hi Hdata Hn.
  destruct n as [|n]; [contradiction|]. destruct data as [|b data]; [contradiction|].
  cbn [cbc_decrypt_blocks]. cbv zeta.
  destruct (Hblock key (firstn 16 (b :: data))) as [Hd _].
  rewrite flip_byte_app by (rewrite xor_bytes_length, Hd, Hiv; cbn; lia).
  rewrite xor_bytes_flip by lia. reflexivity.
Qed.

(** [crypto.subtle.decrypt] with one byte of the nonce changed succeeds all
    the same, with the same change in the first block of the plaintext. *)
Lemma subtle_decrypt_cbc_flip (W : Platform) (key iv data p : bytes)
      (i : nat) (mask : byte) :
  block_cipher W -> (i < 16)%nat -> (16 <= List.length p)%nat ->
  subtle_decrypt_cbc W key iv data = ret p ->
  subtle_decrypt_cbc W key (flip_byte i mask iv) data = ret (flip_byte i mask p).
Proof.
  intros Hblock Hi Hp. unfold subtle_decrypt_cbc.
  rewrite flip_byte_length.
  destruct (Nat.eqb_spec (List.length iv) 16) as [Hiv|]; [|discriminate].
  cbn [andb].
  destruct (Nat.eqb (Nat.modulo (List.length data) 16) 0); [|discriminate].
  destruct (Nat.eqb_spec (List.length data) 0) as [|Hdata]; [discriminate|].
  cbn [andb negb].
  destruct (pkcs7_unpad (cbc_decrypt_blocks W (List.length data) key iv data))
    as [p'|] eqn:E; [|discriminate].
  intros H. inversion H. subst p'.
  rewrite cbc_decrypt_blocks_flip; trivial;
    [| intros ->; now apply Hdata].
  now rewrite (pkcs7_unpad_flip _ _ i mask E) by lia.
Qed.


Lemma byte_xor_cancel (a b : byte) : byte_xor (byte_xor a b) b = a.
Proof.
  apply to_N_inj. rewrite !to_N_byte_xor.
  now rewrite N.lxor_assoc, N.lxor_nilpotent, N.lxor_0_r.
Qed.

Lemma xor_bytes_cancel (a b : bytes) :
  List.length a = List.length b -> xor_bytes (xor_bytes a b) b = a.
Proof.
  revert b. induction a as [|x a IH]; intros [|y b] H; try discriminate;
    [reflexivity|].
  cbn [xor_bytes]. rewrite byte_xor_cancel, IH; [reflexivity|].
  cbn [List.length] in H. lia.
Qed.

Lemma cbc_blocks_roundtrip (W : Platform) (key : bytes) (m : nat) :
  block_cipher W -> block_inverse W ->
  forall (n n' : nat) (iv padded : bytes),
    List.length padded = (16 * m)%nat -> (m <= n)%nat -> (m <= n')%nat ->
    List.length iv = 16%nat ->
    List.length (cbc_encrypt_blocks W n key iv padded) = (16 * m)%nat /\
    cbc_decrypt_blocks W n' key iv (cbc_encrypt_blocks W n key iv padded) = padded.
Proof.
  intros Hblock Hinv.
  induction m as [|m IH]; intros n n' iv padded Hlen Hn Hn' Hiv.
  - destruct padded; [|discriminate].
    destruct n, n'; split; reflexivity.
  - destruct n as [|n]; [lia|]. destruct n' as [|n']; [lia|].
    destruct padded as [|b0 rest0] eqn:Epadded; [discriminate|].
    rewrite <- Epadded in *. clear Epadded b0 rest0.
    assert (Hne : exists b0 rest0, padded = b0 :: rest0)
      by (destruct padded; [discriminate | eauto]).
    destruct Hne as [b0 [rest0 Epadded]].
    set (block := firstn 16 padded).
    set (rest := skipn 16 padded).
    assert (Hb : List.length block = 16%nat)
      by (unfold block; rewrite length_firstn; lia).
    assert (Hr : List.length rest = (16 * m)%nat)
      by (unfold rest; rewrite length_skipn; lia).
    set (c := aes_encrypt_block W key (xor_bytes block iv)).
    assert (Hc : List.length c = 16%nat) by apply Hblock.
    assert (Henc : cbc_encrypt_blocks W (S n) key iv padded
                   = c ++ cbc_encrypt_blocks W n key c rest)
      by (rewrite Epadded at 1; cbn [cbc_encrypt_blocks]; rewrite <- Epadded;
          reflexivity).
    destruct (IH n n' c rest Hr) as [IHlen IHdec]; [lia | lia | exact Hc |].
    rewrite Henc. split; [rewrite length_app; lia|].
    destruct c as [|c0 ctail] eqn:Ec; [discriminate|].
    cbn [cbc_decrypt_blocks app]. rewrite <- Ec in *.
    change (c0 :: ctail ++ cbc_encrypt_blocks W n key c rest)
      with ((c0 :: ctail) ++ cbc_encrypt_blocks W n key c rest).
    rewrite <- Ec.
    rewrite firstn_app, skipn_app, firstn_all2, skipn_all2 by lia.
    rewrite Hc. cbn [Nat.sub firstn skipn app]. rewrite app_nil_r.
    rewrite IHdec. unfold c at 1.
    rewrite Hinv by (rewrite xor_bytes_length; lia).
    rewrite xor_bytes_cancel by lia.
    apply firstn_skipn.
Qed.

Lemma pkcs7_pad_length (p : bytes) :
  exists m, List.length (pkcs7_pad p) = (16 * S m)%nat.
Proof.
  unfold pkcs7_pad. rewrite length_app, repeat_length.
  exists (Nat.div (List.length p) 16).
  pose proof (Nat.div_mod_eq (List.length p) 16).
  pose proof (Nat.mod_upper_bound (List.length p) 16). lia.
Qed.

Lemma last_repeat (b : byte) (n : nat) (p : bytes) :
  n <> O -> last (p ++ repeat b n) x00 = b.
Proof.
  intros Hn. rewrite last_app_nonempty by (destruct n; [contradiction|discriminate]).
  destruct n as [|n]; [contradiction|]. clear Hn.
  induction n as [|n IH]; [reflexivity|].
  change (repeat b (S (S n))) with (b :: repeat b (S n)).
  change (repeat b (S n)) with (b :: repeat b n) at 1.
  cbn [last]. exact IH.
Qed.

Lemma pkcs7_unpad_pad (p : bytes) : pkcs7_unpad (pkcs7_pad p) = Some p.
Proof.
  unfold pkcs7_unpad, pkcs7_pad.
  set (n := (16 - Nat.modulo (List.length p) 16)%nat).
  assert (Hn : (1 <= n <= 16)%nat)
    by (pose proof (Nat.mod_upper_bound (List.length p) 16); lia).
  rewrite last_repeat by lia.
  rewrite to_N_byte_of_N_small by lia. rewrite Nnat.Nat2N.id.
  rewrite length_app, repeat_length.
  replace (List.length p + n - n)%nat with (List.length p) by lia.
  rewrite skipn_app, Nat.sub_diag, skipn_all. cbn [skipn app].
  rewrite firstn_app, Nat.sub_diag, firstn_all, firstn_O, app_nil_r.
  replace (Nat.leb 1 n) with true by (symmetry; apply Nat.leb_le; lia).
  replace (Nat.leb n 16) with true by (symmetry; apply Nat.leb_le; lia).
  replace (Nat.leb n (List.length p + n)) with true
    by (symmetry; apply Nat.leb_le; lia).
  replace (forallb (fun b => Byte.eqb b (byte_of_N (N.of_nat n)))
                   (repeat (byte_of_N (N.of_nat n)) n)) with true;
    [reflexivity|].
  symmetry. apply forallb_forall. intros b Hb. apply repeat_spec in Hb.
  subst b. apply Byte.byte_dec_lb. reflexivity.
Qed.

(** [crypto.subtle.decrypt] inverts [crypto.subtle.encrypt] for AES-CBC. *)
Lemma subtle_cbc_roundtrip (W : Platform) (key iv data ciphertext : bytes) :
  block_cipher W -> block_inverse W ->
  subtle_encrypt_cbc W key iv data = ret ciphertext ->
  subtle_decrypt_cbc W key iv ciphertext = ret data.
Proof.
  intros Hblock Hinv. unfold subtle_encrypt_cbc, subtle_decrypt_cbc.
  destruct (Nat.eqb_spec (List.length iv) 16) as [Hiv|]; [|discriminate].
  intros E. assert (Hct : ciphertext = cbc_encrypt_blocks W
                            (List.length (pkcs7_pad data)) key iv (pkcs7_pad data))
    by (unfold ret in E; congruence).
  clear E. destruct (pkcs7_pad_length data) as [m Hm].
  destruct (cbc_blocks_roundtrip W key (S m) Hblock Hinv
              (List.length (pkcs7_pad data)) (List.length ciphertext)
              iv (pkcs7_pad data) Hm) as [Hlen Hdec];
    [lia | | exact Hiv |].
  { rewrite Hct.
    destruct (cbc_blocks_roundtrip W key (S m) Hblock Hinv
                (List.length (pkcs7_pad data)) (S m) iv (pkcs7_pad data) Hm)
      as [Hlen' _]; [lia | lia | exact Hiv |].
    rewrite Hlen'. lia. }
  rewrite <- Hct in Hlen, Hdec. rewrite Hdec, Hlen.
  replace (Nat.modulo (16 * S m) 16) with 0%nat
    by (rewrite Nat.mul_comm; symmetry; apply Nat.Div0.mod_mul).
  cbn [Nat.eqb andb negb Nat.mul Nat.add].
  now rewrite pkcs7_unpad_pad.
Qed.


(** What decryptText does with a record made of a nonce and a
    ciphertext. *)
Lemma aescbc_decryptText_of_joined (W : Platform) (password : jsstring)
      (iv ciphertext : bytes) :
  AesCbc.decryptText W
    (AesCbc.join_record (base64_encode iv) (base64_encode ciphertext)) password =
  bind (AesCbc.importKey password)
       (fun key => bind (subtle_decrypt_cbc W key iv ciphertext)
                        (fun plaintext => ret (TextDecoder_decode plaintext))).
Proof.
  unfold AesCbc.decryptText, AesCbc.join_record.
  rewrite split_at_separator by apply base64_encode_no_colon.
  rewrite split_no_separator by apply base64_encode_no_colon.
  cbn [nth]. rewrite !atob_base64_encode. cbn [bind ret].
  now rewrite !charCodes_fromCharCode.
Qed.


Lemma sample_tag_length (key iv text : bytes) :
  List.length (Sample.tag key iv text) = 16%nat.
Proof. unfold Sample.tag. now rewrite length_map, length_seq. Qed.

Lemma sample_gcm_correct : gcm_correct Sample.platform.
Proof.
  intros key iv p. cbn [aes_gcm_decrypt aes_gcm_encrypt Sample.platform].
  unfold Sample.gcm_decrypt, Sample.gcm_encrypt.
  rewrite length_app, sample_tag_length.
  replace (List.length p + 16 - 16)%nat with (List.length p) by lia.
  rewrite firstn_app, Nat.sub_diag, firstn_all, firstn_O, app_nil_r.
  rewrite skipn_app, Nat.sub_diag, skipn_all. cbn [skipn app].
  replace (Nat.leb 16 (List.length p + 16)) with true
    by (symmetry; apply Nat.leb_le; lia).
  unfold Sample.bytes_eqb. destruct (list_eq_dec _ _ _); [reflexivity | contradiction].
Qed.

Lemma sample_block16_length (bs : bytes) :
  List.length (Sample.block16 bs) = 16%nat.
Proof.
  unfold Sample.block16. rewrite length_firstn, length_app, repeat_length. lia.
Qed.

Lemma sample_block_cipher : block_cipher Sample.platform.
Proof.
  intros key block. cbn [aes_decrypt_block aes_encrypt_block Sample.platform].
  unfold Sample.encrypt_block.
  now rewrite xor_bytes_length, !sample_block16_length.
Qed.

Lemma sample_block16_fixed (bs : bytes) :
  List.length bs = 16%nat -> Sample.block16 bs = bs.
Proof.
  intros H. unfold Sample.block16.
  rewrite firstn_app, H, Nat.sub_diag, firstn_O, app_nil_r.
  rewrite <- H. apply firstn_all.
Qed.

Lemma sample_block_inverse : block_inverse Sample.platform.
Proof.
  intros key block Hlen.
  cbn [aes_decrypt_block aes_encrypt_block Sample.platform].
  unfold Sample.encrypt_block.
  rewrite (sample_block16_fixed block) by exact Hlen.
  rewrite sample_block16_fixed
    by (rewrite xor_bytes_length, sample_block16_length; lia).
  apply xor_bytes_cancel. now rewrite sample_block16_length.
Qed.

(* ================================================================== *)
(** * Forms, key lengths and what decryptText reads *)
(* ================================================================== *)

(** ** FormData *)

Lemma jsstring_eqb_eq (a b : jsstring) : jsstring_eqb a b = true <-> a = b.
Proof.
  unfold jsstring_eqb. destruct (list_eq_dec N.eq_dec a b); split; congruence.
Qed.

Lemma jsstring_eqb_refl (a : jsstring) : jsstring_eqb a a = true.
Proof. now apply jsstring_eqb_eq. Qed.

Lemma jsstring_eqb_neq (a b : jsstring) : jsstring_eqb a b = false <-> a <> b.
Proof.
  unfold jsstring_eqb. destruct (list_eq_dec N.eq_dec a b); split; congruence.
Qed.

Lemma FormData_get_delete (name other : jsstring) (formData : FormData) :
  other <> name ->
  FormData_get other (FormData_delete name formData) = FormData_get other formData.
Proof.
  intros Hne. induction formData as [|[k v] rest IH]; [reflexivity|].
  cbn [FormData_delete filter fst FormData_get].
  destruct (jsstring_eqb k name) eqn:Ek; cbn [negb].
  - apply jsstring_eqb_eq in Ek. subst k.
    replace (jsstring_eqb name other) with false
      by (symmetry; apply jsstring_eqb_neq; congruence).
    exact IH.
  - cbn [FormData_get]. destruct (jsstring_eqb k other); [reflexivity | exact IH].
Qed.

Lemma FormData_get_set (name value : jsstring) (formData : FormData) :
  FormData_get name (FormData_set name value formData) = Some (Text value).
Proof.
  induction formData as [|[k v] rest IH]; cbn [FormData_set FormData_get].
  - now rewrite jsstring_eqb_refl.
  - destruct (jsstring_eqb k name) eqn:Ek; cbn [FormData_get].
    + now rewrite jsstring_eqb_refl.
    + now rewrite Ek.
Qed.

Lemma FormData_get_set_other (name other value : jsstring) (formData : FormData) :
  other <> name ->
  FormData_get other (FormData_set name value formData)
  = FormData_get other formData.
Proof.
  intros Hne.
  assert (Hno : jsstring_eqb name other = false)
    by (apply jsstring_eqb_neq; congruence).
  induction formData as [|[k v] rest IH]; cbn [FormData_set FormData_get].
  - now rewrite Hno.
  - destruct (jsstring_eqb k name) eqn:Ek; cbn [FormData_get].
    + apply jsstring_eqb_eq in Ek. subst k. rewrite Hno.
      now apply FormData_get_delete.
    + destruct (jsstring_eqb k other); [reflexivity | exact IH].
Qed.

Lemma FormData_delete_none (name : jsstring) (formData : FormData)
      (v : entry_value) :
  ~ In (name, v) (FormData_delete name formData).
Proof.
  unfold FormData_delete. intros Hin. apply filter_In in Hin.
  destruct Hin as [_ H]. cbn [fst] in H. now rewrite jsstring_eqb_refl in H.
Qed.

(** After [set] every entry of the name holds the value. *)
Lemma FormData_set_all (name value : jsstring) (formData : FormData)
      (v : entry_value) :
  In (name, v) (FormData_set name value formData) -> v = Text value.
Proof.
  induction formData as [|[k x] rest IH]; cbn [FormData_set].
  - intros [H|[]]. congruence.
  - destruct (jsstring_eqb k name) eqn:Ek.
    + intros [H|H]; [congruence|]. now apply FormData_delete_none in H.
    + intros [H|H]; [|now apply IH].
      apply jsstring_eqb_neq in Ek. congruence.
Qed.

Lemma FormData_get_app (name : jsstring) (a b : FormData) :
  FormData_get name (a ++ b) =
  match FormData_get name a with
  | Some v => Some v
  | None => FormData_get name b
  end.
Proof.
  induction a as [|[k v] rest IH]; [reflexivity|].
  cbn [app FormData_get]. destruct (jsstring_eqb k name); [reflexivity | exact IH].
Qed.

Lemma handleCreate_submits (W : Platform) (password : jsstring)
      (formData : FormData) (g : rng) :
  fst (Pbkdf2GcmRoute.handleCreate W password formData g) =
  ret (FormData_set (js "text")
         (stringify_iv_data (nonce_of 12 g)
            (aes_gcm_encrypt W (Pbkdf2Gcm.key_of W password) (nonce_of 12 g)
               (TextEncoder_encode
                  (String_of (FormData_get (js "text") formData)))))
         formData).
Proof. reflexivity. Qed.

Lemma base64_encode_nonempty (b : byte) (bs : bytes) :
  RawKeyGcm.is_empty (base64_encode (b :: bs)) = false.
Proof. destruct bs as [|b2 [|b3 bs]]; reflexivity. Qed.

Lemma import_aes_key_other_length (keyData : bytes) :
  List.length keyData <> 16%nat -> List.length keyData <> 24%nat ->
  List.length keyData <> 32%nat ->
  import_aes_key keyData = throw DataError.
Proof.
  unfold import_aes_key. generalize (List.length keyData) as n.
  intros n H16 H24 H32.
  do 33 (destruct n as [|n]; [first [reflexivity | congruence]|]).
  reflexivity.
Qed.

Lemma utf8_of_code_point_length (cp : N) :
  (1 <= List.length (utf8_of_code_point cp))%nat /\
  (0x80 <= cp -> (2 <= List.length (utf8_of_code_point cp))%nat) /\
  (0x800 <= cp -> (3 <= List.length (utf8_of_code_point cp))%nat) /\
  (0x10000 <= cp -> (4 <= List.length (utf8_of_code_point cp))%nat).
Proof.
  unfold utf8_of_code_point.
  destruct (cp <? 0x80) eqn:E1;
    [|destruct (cp <? 0x800) eqn:E2; [|destruct (cp <? 0x10000) eqn:E3]];
    cbn [List.length]; bool_to_prop; repeat split; intros; lia.
Qed.

(** Every code unit takes at least one byte, and a string with a
    character outside ASCII takes more bytes than it has code units. *)
Lemma encode_length_bounded (n : nat) :
  forall s : jsstring,
  (List.length s <= n)%nat ->
  (List.length s <= List.length (TextEncoder_encode s))%nat /\
  (forallb (fun c => c <? 0x80) s = false ->
   (List.length s < List.length (TextEncoder_encode s))%nat).
Proof.
  unfold TextEncoder_encode.
  induction n as [|n IH]; intros s Hlen.
  - destruct s; [|cbn [List.length] in Hlen; lia].
    cbn. split; [lia | discriminate].
  - destruct s as [|c rest]; [cbn; split; [lia | discriminate]|].
    cbn [List.length] in Hlen. cbn [code_points forallb].
    assert (Hreplaced :
              forall tail, (List.length tail <= n)%nat ->
              (S (List.length tail) <
               List.length (flat_map utf8_of_code_point
                                     (0xFFFD%N :: code_points tail)))%nat).
    { intros tail Htail. cbn [flat_map]. rewrite length_app.
      destruct (IH tail Htail) as [IH1 _].
      destruct (utf8_of_code_point_length 0xFFFD) as [_ [_ [H3 _]]].
      specialize (H3 ltac:(lia)). lia. }
    destruct (is_high_surrogate c) eqn:Eh.
    + destruct rest as [|d rest'].
      * cbn. split; intros; lia.
      * destruct (is_low_surrogate d) eqn:El.
        -- cbn [flat_map List.length]. rewrite length_app.
           destruct (IH rest') as [IH1 _]; [cbn [List.length] in Hlen; lia|].
           destruct (utf8_of_code_point_length
                       (0x10000 + (c - 0xD800) * 0x400 + (d - 0xDC00)))
             as [_ [_ [_ H4]]].
           specialize (H4 ltac:(lia)). split; intros; lia.
        -- specialize (Hreplaced (d :: rest') ltac:(lia)).
           cbn [List.length] in *. split; intros; lia.
    + destruct (is_low_surrogate c) eqn:El.
      * specialize (Hreplaced rest ltac:(lia)).
        cbn [List.length] in *. split; intros; lia.
      * cbn [flat_map List.length]. rewrite length_app.
        destruct (IH rest ltac:(lia)) as [IH1 IH2].
        destruct (utf8_of_code_point_length c) as [H1 [H2 _]].
        split; [lia|].
        intros H. apply andb_false_iff in H. destruct H as [H|H].
        -- apply N.ltb_ge in H. specialize (H2 H). lia.
        -- specialize (IH2 H). lia.
Qed.

Lemma encode_longer (s : jsstring) :
  is_ascii s = false ->
  (List.length s < List.length (TextEncoder_encode s))%nat.
Proof.
  intros H. now apply (encode_length_bounded (List.length s) s).
Qed.

Lemma import_aes_key_32 (keyData : bytes) :
  List.length keyData = 32%nat -> import_aes_key keyData = ret keyData.
Proof. intros H. unfold import_aes_key. now rewrite H. Qed.

(** ** What decryptText reads from a text *)


(** decryptText of the raw-key version, under a key that is not empty,
    never throws: it returns [rawkey_outcome]. *)
Lemma rawkey_decryptText_outcome (W : Platform) (stored key : jsstring) :
  RawKeyGcm.is_empty key = false ->
  RawKeyGcm.decryptText W stored key = ret (rawkey_outcome W stored key).
Proof.
  intros Hkey. unfold RawKeyGcm.decryptText, rawkey_outcome, rawkey_fields.
  rewrite Hkey.
  destruct (atob stored) as [e|decoded]; [reflexivity|]. cbn [bind].
  destruct (import_aes_key (RawKeyGcm.keyData key)) as [e|cryptoKey];
    [reflexivity|]. cbn [bind].
  unfold subtle_decrypt_gcm.
  destruct (aes_gcm_decrypt W cryptoKey _ _); reflexivity.
Qed.

(** A record of the raw-key version is read as its nonce and its data. *)
Lemma rawkey_fields_record (iv data : bytes) :
  List.length iv = 12%nat ->
  rawkey_fields (base64_encode (iv ++ data)) = Some (iv, data).
Proof.
  intros Hiv. unfold rawkey_fields.
  rewrite atob_base64_encode. unfold ret. rewrite charCodes_fromCharCode.
  rewrite firstn_app, skipn_app, firstn_all2, skipn_all2 by lia.
  rewrite Hiv. cbn [Nat.sub firstn skipn app]. now rewrite app_nil_r.
Qed.

(** encryptText of the raw-key version returns once the key is imported
    and the bytes can be spread into one call. *)
Lemma rawkey_encryptText_returns (W : Platform) (text key : jsstring) (g : rng)
      (cryptoKey : bytes) :
  RawKeyGcm.is_empty key = false ->
  import_aes_key (RawKeyGcm.keyData key) = ret cryptoKey ->
  (12 + List.length (aes_gcm_encrypt W cryptoKey (nonce_of 12 g)
                                     (TextEncoder_encode text))
   <= max_arguments W)%nat ->
  RawKeyGcm.encryptText W text key g =
  (ret (base64_encode
          (nonce_of 12 g ++
           aes_gcm_encrypt W cryptoKey (nonce_of 12 g) (TextEncoder_encode text))),
   snd (getRandomValues 12 g)).
Proof.
  intros Hkey Himport Hlen. unfold RawKeyGcm.encryptText.
  rewrite Hkey, Himport.
  unfold nonce_of in *. destruct (getRandomValues 12 g) as [iv g'] eqn:E.
  assert (Hiv : List.length iv = 12%nat)
    by (pose proof (getRandomValues_length 12 g) as H; now rewrite E in H).
  cbn [fst snd] in *. unfold fromCharCode_spread, ret. cbv iota beta.
  assert (Hfits :
            Nat.leb (List.length
                       (iv ++ aes_gcm_encrypt W cryptoKey iv
                                              (TextEncoder_encode text)))
                    (max_arguments W) = true)
    by (apply Nat.leb_le; rewrite length_app; lia).
  rewrite Hfits. cbn [bind]. now rewrite btoa_fromCharCode.
Qed.

(** ** Text with surrogates outside pairs *)

Lemma code_points_scalar (s : jsstring) :
  code_units s = true -> forallb is_scalar (code_points s) = true.
Proof.
  unfold code_units.
  remember (List.length s) as n eqn:Hn.
  revert s Hn. induction n as [n IH] using lt_wf_ind. intros s Hn Hs.
  destruct s as [|c rest]; [reflexivity|].
  cbn [forallb] in Hs. apply andb_true_iff in Hs. destruct Hs as [Hc Hrest].
  apply N.ltb_lt in Hc.
  assert (Hrep : forallb is_scalar (0xFFFD :: code_points rest) = true).
  { cbn [forallb]. apply andb_true_iff. split; [reflexivity|].
    apply (IH (List.length rest)); [cbn [List.length] in Hn; lia | reflexivity
                                   | exact Hrest]. }
  cbn [code_points].
  destruct (is_high_surrogate c) eqn:Hh.
  - destruct rest as [|d rest']; [reflexivity|].
    destruct (is_low_surrogate d) eqn:Hl; [|exact Hrep].
    cbn [forallb]. apply andb_true_iff. split; [now apply is_scalar_pair|].
    cbn [forallb] in Hrest. apply andb_true_iff in Hrest.
    apply (IH (List.length rest')); [cbn [List.length] in Hn; lia | reflexivity
                                    | apply Hrest].
  - destruct (is_low_surrogate c) eqn:Hl; [exact Hrep|].
    cbn [forallb]. apply andb_true_iff. split; [now apply is_scalar_unit|].
    apply (IH (List.length rest)); [cbn [List.length] in Hn; lia | reflexivity
                                   | exact Hrest].
Qed.

(** Decoding, the byte order mark kept, what the encoder wrote gives the
    text with every surrogate outside a pair replaced. *)
Lemma utf8_decode_encode_any (s : jsstring) :
  code_units s = true ->
  utf8_decode (TextEncoder_encode s) = scalar_value_string s.
Proof.
  intros Hs. unfold utf8_decode, TextEncoder_encode, scalar_value_string.
  now rewrite utf8_run_encoded by now apply code_points_scalar.
Qed.

Lemma scalar_value_string_well_formed (s : jsstring) :
  well_formed s = true -> scalar_value_string s = s.
Proof. intros Hwf. now destruct (code_points_well_formed s Hwf). Qed.

Example scalar_value_string_replaces :
  scalar_value_string [97; 0xD83D; 98; 0xDE00; 0xD83D; 0xDE00] =
  [97; 0xFFFD; 98; 0xFFFD; 0xD83D; 0xDE00].
Proof. reflexivity. Qed.

(** The same, with the cases written out. *)
Lemma rawkey_decryptText_cases (W : Platform) (stored key : jsstring) :
  RawKeyGcm.is_empty key = false ->
  RawKeyGcm.decryptText W stored key =
  match rawkey_fields stored with
  | None => ret (RawKeyGcm.failure_prefix ++ stored)
  | Some (iv, data) =>
      match import_aes_key (RawKeyGcm.keyData key) with
      | inl _ => ret (RawKeyGcm.failure_prefix ++ stored)
      | inr cryptoKey =>
          match aes_gcm_decrypt W cryptoKey iv data with
          | Some accepted => ret (TextDecoder_decode accepted)
          | None => ret (RawKeyGcm.failure_prefix ++ stored)
          end
      end
  end.
Proof.
  intros Hkey. rewrite rawkey_decryptText_outcome by exact Hkey.
  unfold rawkey_outcome.
  destruct (rawkey_fields stored) as [[iv data]|]; [|reflexivity].
  destruct (import_aes_key (RawKeyGcm.keyData key)) as [e|cryptoKey];
    [reflexivity|].
  destruct (aes_gcm_decrypt W cryptoKey iv data); reflexivity.
Qed.


(* ================================================================== *)
(** * Encrypting, then decrypting *)
(* ================================================================== *)

(** encryptText of the PBKDF2 version always returns: the JSON text of the
    nonce and of the AES-GCM output under the derived key. *)
Lemma pbkdf2_encryptText_record (W : Platform) (password plaintext : jsstring)
      (g : rng) :
  fst (Pbkdf2Gcm.encryptText W password plaintext g) =
  ret (stringify_iv_data (nonce_of 12 g)
         (aes_gcm_encrypt W (Pbkdf2Gcm.key_of W password) (nonce_of 12 g)
                          (TextEncoder_encode plaintext))).
Proof. reflexivity. Qed.

Lemma pbkdf2_decrypt_encrypt (W : Platform) (password plaintext : jsstring)
      (g : rng) (record : jsstring) :
  gcm_correct W ->
  fst (Pbkdf2Gcm.encryptText W password plaintext g) = ret record ->
  Pbkdf2Gcm.decryptText W password record =
  ret (TextDecoder_decode (TextEncoder_encode plaintext)).
Proof.
  intros Hgcm Hrec. rewrite pbkdf2_encryptText_record in Hrec.
  inversion Hrec. rewrite pbkdf2_decryptText_of_json. now rewrite Hgcm.
Qed.

Lemma rawkey_decrypt_encrypt (W : Platform) (text key : jsstring)
      (g : rng) (record : jsstring) :
  gcm_correct W -> RawKeyGcm.is_empty key = false ->
  fst (RawKeyGcm.encryptText W text key g) = ret record ->
  RawKeyGcm.decryptText W record key =
  ret (TextDecoder_decode (TextEncoder_encode text)).
Proof.
  intros Hgcm Hkey Hrec.
  destruct (rawkey_encryptText_record W text key g record Hkey Hrec)
    as [cryptoKey [Himport ->]].
  rewrite rawkey_decryptText_of_base64
    by (exact Hkey || apply getRandomValues_length).
  rewrite Himport. unfold ret. now rewrite Hgcm.
Qed.

(** With an empty key nothing is encrypted and nothing decrypted. *)
Lemma rawkey_empty_key (W : Platform) (text : jsstring) (g : rng) :
  RawKeyGcm.encryptText W text [] g = (ret text, g) /\
  RawKeyGcm.decryptText W text [] = ret text.
Proof. split; reflexivity. Qed.

(** Round trip of the PBKDF2 version: well-formed text that does not begin
    with U+FEFF comes back as it was. *)
Theorem pbkdf2_roundtrip (W : Platform) (password plaintext : jsstring)
        (g : rng) (record : jsstring) :
  gcm_correct W ->
  well_formed plaintext = true -> starts_with_bom plaintext = false ->
  fst (Pbkdf2Gcm.encryptText W password plaintext g) = ret record ->
  Pbkdf2Gcm.decryptText W password record = ret plaintext.
Proof.
  intros Hgcm Hwf Hbom Hrec.
  rewrite (pbkdf2_decrypt_encrypt W password plaintext g record Hgcm Hrec).
  now rewrite TextDecoder_TextEncoder.
Qed.

(** Round trip of the raw-key version, for the same texts. *)
Theorem rawkey_roundtrip (W : Platform) (text key : jsstring)
        (g : rng) (record : jsstring) :
  gcm_correct W ->
  well_formed text = true -> starts_with_bom text = false ->
  fst (RawKeyGcm.encryptText W text key g) = ret record ->
  RawKeyGcm.decryptText W record key = ret text.
Proof.
  intros Hgcm Hwf Hbom Hrec.
  destruct (RawKeyGcm.is_empty key) eqn:Hkey.
  - destruct key; [|discriminate].
    destruct (rawkey_empty_key W text g) as [E _]. rewrite E in Hrec.
    inversion Hrec. subst. apply rawkey_empty_key. exact g.
  - rewrite (rawkey_decrypt_encrypt W text key g record Hgcm Hkey Hrec).
    now rewrite TextDecoder_TextEncoder.
Qed.

(** encryptText of the CBC version, when it returns: the base64 of the
    nonce, a colon, the base64 of the ciphertext. *)
Lemma aescbc_encryptText_record (W : Platform) (text password : jsstring)
      (g : rng) (record : jsstring) :
  fst (AesCbc.encryptText W text password g) = ret record ->
  exists key ciphertext,
    AesCbc.importKey password = ret key /\
    subtle_encrypt_cbc W key (nonce_of 16 g) (TextEncoder_encode text)
      = ret ciphertext /\
    record = AesCbc.join_record (base64_encode (nonce_of 16 g))
                                (base64_encode ciphertext).
Proof.
  unfold AesCbc.encryptText.
  destruct (AesCbc.importKey password) as [e|key] eqn:Hkey; [discriminate|].
  cbn [getRandomValues fst].
  change (map g (seq 0 16)) with (nonce_of 16 g).
  destruct (subtle_encrypt_cbc W key (nonce_of 16 g) (TextEncoder_encode text))
    as [e|ciphertext] eqn:Hct; [discriminate|].
  cbn [bind]. unfold fromCharCode_spread.
  destruct (Nat.leb (List.length (nonce_of 16 g)) (max_arguments W));
    [|discriminate].
  cbn [bind ret]. rewrite btoa_fromCharCode. cbn [bind ret].
  destruct (Nat.leb (List.length ciphertext) (max_arguments W)); [|discriminate].
  cbn [bind ret]. rewrite btoa_fromCharCode. cbn [bind ret].
  intros E. inversion E. now exists key, ciphertext.
Qed.

(** Round trip of the CBC version, for the same texts and every block
    cipher that its inverse inverts. *)
Theorem aescbc_roundtrip (W : Platform) (text password : jsstring)
        (g : rng) (record : jsstring) :
  block_cipher W -> block_inverse W ->
  well_formed text = true -> starts_with_bom text = false ->
  fst (AesCbc.encryptText W text password g) = ret record ->
  AesCbc.decryptText W record password = ret text.
Proof.
  intros Hblock Hinv Hwf Hbom Hrec.
  destruct (aescbc_encryptText_record W text password g record Hrec)
    as [key [ciphertext [Hkey [Hct ->]]]].
  rewrite aescbc_decryptText_of_joined, Hkey. cbn [bind ret].
  rewrite (subtle_cbc_roundtrip W key _ _ ciphertext Hblock Hinv Hct).
  cbn [bind ret]. now rewrite TextDecoder_TextEncoder.
Qed.

Lemma cons_neq {A} (x : A) (l : list A) : l <> x :: l.
Proof.
  intros E. apply (f_equal (@List.length A)) in E. cbn [List.length] in E. lia.
Qed.

(** C1. Decrypting what was encrypted under the same password does not
    return every plaintext: of a text that begins with U+FEFF (the byte
    order mark) the decoder created without options drops that first
    character, so the text comes back one character short. *)
Theorem roundtrip_drops_byte_order_mark (W : Platform)
        (password plaintext : jsstring) (g : rng) (record : jsstring) :
  gcm_correct W -> well_formed plaintext = true ->
  fst (Pbkdf2Gcm.encryptText W password (0xFEFF :: plaintext) g) = ret record ->
  Pbkdf2Gcm.decryptText W password record = ret plaintext /\
  plaintext <> 0xFEFF :: plaintext.
Proof.
  intros Hgcm Hwf Hrec. split; [|apply cons_neq].
  rewrite (pbkdf2_decrypt_encrypt W password _ g record Hgcm Hrec).
  now rewrite TextDecoder_TextEncoder_bom.
Qed.

Lemma roundtrip_drops_byte_order_mark_witness :
  Pbkdf2Gcm.decryptText Sample.platform (js "hunter2") bom_record
    = ret (js "buy milk") /\
  js "buy milk" <> 0xFEFF :: js "buy milk".
Proof.
  apply (roundtrip_drops_byte_order_mark Sample.platform (js "hunter2")
           (js "buy milk") Sample.random bom_record).
  - exact sample_gcm_correct.
  - reflexivity.
  - vm_compute. reflexivity.
Defined.

(* ================================================================== *)
(** * Decrypting with another password *)
(* ================================================================== *)

(** C2, as stated, fails on the raw-key version: decrypting the record of
    [buy milk] made under [correct] with the key [wrong] throws nothing and
    returns a string that contains the record; with the empty key it
    returns the record itself. *)
Lemma wrong_key_returns_a_string :
  fst (RawKeyGcm.encryptText Sample.platform (js "buy milk") (js "correct")
         Sample.random) = ret milk_record /\
  RawKeyGcm.decryptText Sample.platform milk_record (js "correct")
    = ret (js "buy milk") /\
  RawKeyGcm.decryptText Sample.platform milk_record (js "wrong")
    = ret (RawKeyGcm.failure_prefix ++ milk_record) /\
  RawKeyGcm.decryptText Sample.platform milk_record [] = ret milk_record.
Proof. repeat split; vm_compute; reflexivity. Qed.

(** C2 (amended). Decrypting a record under a second password fails
    exactly when AES-GCM rejects it under the second key.  The PBKDF2
    version, for every first password and every text, then throws its one
    error, and otherwise returns the decoding of what AES-GCM accepted.
    The raw-key version never throws: with the empty key it returns the
    stored text itself, and with any other key the failure text followed
    by the stored text whenever [atob] rejects the text, the key cannot be
    imported or AES-GCM rejects; for a record of encryptText the nonce and
    the data it reads are those of the record. *)
Theorem wrong_password_outcome (W : Platform)
        (first second plaintext : jsstring) (g : rng) :
  (exists json_record,
     fst (Pbkdf2Gcm.encryptText W first plaintext g) = ret json_record /\
     Pbkdf2Gcm.decryptText W second json_record =
       match aes_gcm_decrypt W (Pbkdf2Gcm.key_of W second) (nonce_of 12 g)
               (aes_gcm_encrypt W (Pbkdf2Gcm.key_of W first) (nonce_of 12 g)
                                (TextEncoder_encode plaintext)) with
       | Some accepted => ret (TextDecoder_decode accepted)
       | None => throw Pbkdf2Gcm.bad_password
       end) /\
  (forall stored key,
     exists shown, RawKeyGcm.decryptText W stored key = ret shown) /\
  (forall stored, RawKeyGcm.decryptText W stored [] = ret stored) /\
  (forall stored,
     RawKeyGcm.is_empty second = false ->
     RawKeyGcm.decryptText W stored second =
     match rawkey_fields stored with
     | None => ret (RawKeyGcm.failure_prefix ++ stored)
     | Some (iv, data) =>
         match import_aes_key (RawKeyGcm.keyData second) with
         | inl _ => ret (RawKeyGcm.failure_prefix ++ stored)
         | inr key2 =>
             match aes_gcm_decrypt W key2 iv data with
             | Some accepted => ret (TextDecoder_decode accepted)
             | None => ret (RawKeyGcm.failure_prefix ++ stored)
             end
         end
     end) /\
  (forall b64_record,
     RawKeyGcm.is_empty first = false ->
     fst (RawKeyGcm.encryptText W plaintext first g) = ret b64_record ->
     exists key1,
       import_aes_key (RawKeyGcm.keyData first) = ret key1 /\
       rawkey_fields b64_record =
         Some (nonce_of 12 g,
               aes_gcm_encrypt W key1 (nonce_of 12 g)
                               (TextEncoder_encode plaintext))).
Proof.
  split; [|split; [|split; [|split]]].
  - eexists. split; [apply pbkdf2_encryptText_record|].
    apply pbkdf2_decryptText_of_json.
  - intros stored key. apply rawkey_decryptText_returns.
  - reflexivity.
  - intros stored Hsecond. now apply rawkey_decryptText_cases.
  - intros b64_record Hfirst Hb64.
    destruct (rawkey_encryptText_record W plaintext first g b64_record
                Hfirst Hb64) as [key1 [Hkey1 ->]].
    exists key1. split; [exact Hkey1|].
    apply rawkey_fields_record, getRandomValues_length.
Qed.

Lemma wrong_password_outcome_witness :
  Pbkdf2Gcm.decryptText Sample.platform (js "hunter3") hunter2_record
    = throw Pbkdf2Gcm.bad_password /\
  rawkey_fields hunter2_b64 =
    Some (nonce_of 12 Sample.random,
          aes_gcm_encrypt Sample.platform (RawKeyGcm.keyData (js "hunter2"))
            (nonce_of 12 Sample.random) (TextEncoder_encode (js "buy milk"))) /\
  RawKeyGcm.decryptText Sample.platform hunter2_b64 (js "hunter3")
    = ret (RawKeyGcm.failure_prefix ++ hunter2_b64) /\
  RawKeyGcm.decryptText Sample.platform hunter2_b64 [] = ret hunter2_b64.
Proof.
  destruct (wrong_password_outcome Sample.platform (js "hunter2") (js "hunter3")
              (js "buy milk") Sample.random)
    as [[json_record [Hjson Hpbkdf2]] [_ [Hempty [Hcases Hrecord]]]].
  split; [|split; [|split]].
  - vm_compute in Hjson. injection Hjson as <-.
    etransitivity; [exact Hpbkdf2|]. vm_compute. reflexivity.
  - destruct (Hrecord hunter2_b64) as [key1 [Hkey1 Hfields]];
      [reflexivity | vm_compute; reflexivity |].
    vm_compute in Hkey1. injection Hkey1 as <-. exact Hfields.
  - etransitivity; [apply Hcases; reflexivity|]. vm_compute. reflexivity.
  - apply Hempty.
Defined.

(** On this platform the second password is indeed rejected. *)
Example hunter3_rejected :
  Pbkdf2Gcm.decryptText Sample.platform (js "hunter3") hunter2_record
    = throw Pbkdf2Gcm.bad_password /\
  Pbkdf2Gcm.decryptText Sample.platform (js "hunter2") hunter2_record
    = ret (js "buy milk").
Proof. split; vm_compute; reflexivity. Qed.

(* ================================================================== *)
(** * Decrypting a changed record *)
(* ================================================================== *)

(** C3, as stated, fails on the CBC version: with the first byte of the
    nonce changed the record still decrypts, to a different text. *)
Lemma changed_nonce_changes_text :
  fst (AesCbc.encryptText Sample.platform (js "attack at dawn!!")
         dawn_password Sample.random)
    = ret (AesCbc.join_record (base64_encode dawn_iv)
                              (base64_encode dawn_ciphertext)) /\
  AesCbc.decryptText Sample.platform
    (AesCbc.join_record (base64_encode dawn_iv) (base64_encode dawn_ciphertext))
    dawn_password = ret (js "attack at dawn!!") /\
  AesCbc.decryptText Sample.platform
    (AesCbc.join_record (base64_encode (flip_byte 0 x03 dawn_iv))
                        (base64_encode dawn_ciphertext))
    dawn_password = ret (js "bttack at dawn!!").
Proof. repeat split; vm_compute; reflexivity. Qed.

(** C3 (amended). The CBC version authenticates nothing: of a record that
    encryptText returned for a text of at least 16 bytes, with one byte of
    the nonce changed, decryptText returns the decoding of the text's bytes
    with that byte changed.  The GCM versions decrypt a changed record only
    if AES-GCM accepts it: otherwise the PBKDF2 version throws its error
    and the raw-key version returns the failure text followed by the
    record. *)
Theorem changed_record_outcome (W : Platform) (text password : jsstring)
        (g : rng) (record : jsstring) (i : nat) (mask : byte) :
  block_cipher W -> block_inverse W ->
  fst (AesCbc.encryptText W text password g) = ret record ->
  (16 <= List.length (TextEncoder_encode text))%nat ->
  (i < 16)%nat -> mask <> x00 ->
  (exists ciphertext,
     record = AesCbc.join_record (base64_encode (nonce_of 16 g))
                                 (base64_encode ciphertext) /\
     AesCbc.decryptText W
       (AesCbc.join_record (base64_encode (flip_byte i mask (nonce_of 16 g)))
                           (base64_encode ciphertext)) password
     = ret (TextDecoder_decode (flip_byte i mask (TextEncoder_encode text)))) /\
  flip_byte i mask (TextEncoder_encode text) <> TextEncoder_encode text /\
  (forall secret iv' data',
     Pbkdf2Gcm.decryptText W secret (stringify_iv_data iv' data') =
     match aes_gcm_decrypt W (Pbkdf2Gcm.key_of W secret) iv' data' with
     | Some accepted => ret (TextDecoder_decode accepted)
     | None => throw Pbkdf2Gcm.bad_password
     end) /\
  (forall key iv' data',
     RawKeyGcm.is_empty key = false -> List.length iv' = 12%nat ->
     RawKeyGcm.decryptText W (base64_encode (iv' ++ data')) key =
     match import_aes_key (RawKeyGcm.keyData key) with
     | inl _ => ret (RawKeyGcm.failure_prefix ++ base64_encode (iv' ++ data'))
     | inr key' =>
         match aes_gcm_decrypt W key' iv' data' with
         | Some accepted => ret (TextDecoder_decode accepted)
         | None => ret (RawKeyGcm.failure_prefix ++ base64_encode (iv' ++ data'))
         end
     end).
Proof.
  intros Hblock Hinv Hrec Hlen Hi Hmask. repeat split.
  - destruct (aescbc_encryptText_record W text password g record Hrec)
      as [key [ciphertext [Hkey [Hct ->]]]].
    exists ciphertext. split; [reflexivity|].
    rewrite aescbc_decryptText_of_joined, Hkey. cbn [bind ret].
    rewrite (subtle_decrypt_cbc_flip W key (nonce_of 16 g) ciphertext
               (TextEncoder_encode text) i mask Hblock Hi Hlen)
      by now apply subtle_cbc_roundtrip.
    reflexivity.
  - apply flip_byte_changes; [exact Hmask | lia].
  - intros secret iv' data'. apply pbkdf2_decryptText_of_json.
  - intros key iv' data' Hkey Hiv'. now apply rawkey_decryptText_of_base64.
Qed.

Lemma changed_record_outcome_witness :
  (exists ciphertext,
     AesCbc.join_record (base64_encode dawn_iv) (base64_encode dawn_ciphertext)
     = AesCbc.join_record (base64_encode (nonce_of 16 Sample.random))
                          (base64_encode ciphertext) /\
     AesCbc.decryptText Sample.platform
       (AesCbc.join_record
          (base64_encode (flip_byte 0 x03 (nonce_of 16 Sample.random)))
          (base64_encode ciphertext)) dawn_password
     = ret (TextDecoder_decode
              (flip_byte 0 x03 (TextEncoder_encode (js "attack at dawn!!"))))) /\
  flip_byte 0 x03 (TextEncoder_encode (js "attack at dawn!!"))
    <> TextEncoder_encode (js "attack at dawn!!") /\
  (forall secret iv' data',
     Pbkdf2Gcm.decryptText Sample.platform secret (stringify_iv_data iv' data') =
     match aes_gcm_decrypt Sample.platform
             (Pbkdf2Gcm.key_of Sample.platform secret) iv' data' with
     | Some accepted => ret (TextDecoder_decode accepted)
     | None => throw Pbkdf2Gcm.bad_password
     end) /\
  (forall key iv' data',
     RawKeyGcm.is_empty key = false -> List.length iv' = 12%nat ->
     RawKeyGcm.decryptText Sample.platform (base64_encode (iv' ++ data')) key =
     match import_aes_key (RawKeyGcm.keyData key) with
     | inl _ => ret (RawKeyGcm.failure_prefix ++ base64_encode (iv' ++ data'))
     | inr key' =>
         match aes_gcm_decrypt Sample.platform key' iv' data' with
         | Some accepted => ret (TextDecoder_decode accepted)
         | None => ret (RawKeyGcm.failure_prefix ++ base64_encode (iv' ++ data'))
         end
     end).
Proof.
  apply (changed_record_outcome Sample.platform (js "attack at dawn!!")
           dawn_password Sample.random
           (AesCbc.join_record (base64_encode dawn_iv)
                               (base64_encode dawn_ciphertext)) 0 x03).
  - exact sample_block_cipher.
  - exact sample_block_inverse.
  - vm_compute. reflexivity.
  - vm_compute. lia.
  - lia.
  - discriminate.
Defined.

(** On this platform a changed nonce or ciphertext is rejected by the GCM
    versions: an error in one, a string in the other. *)
Example changed_gcm_record_rejected :
  Pbkdf2Gcm.decryptText Sample.platform (js "hunter2")
    (stringify_iv_data (flip_byte 0 x01 (nonce_of 12 Sample.random))
       (aes_gcm_encrypt Sample.platform
          (Pbkdf2Gcm.key_of Sample.platform (js "hunter2"))
          (nonce_of 12 Sample.random) (TextEncoder_encode (js "buy milk"))))
    = throw Pbkdf2Gcm.bad_password /\
  hunter2_b64 = base64_encode (rawkey_nonce hunter2_b64 ++
                               rawkey_ciphertext hunter2_b64) /\
  RawKeyGcm.decryptText Sample.platform
    (base64_encode (rawkey_nonce hunter2_b64 ++
                    flip_byte 3 x80 (rawkey_ciphertext hunter2_b64)))
    (js "hunter2")
    = ret (RawKeyGcm.failure_prefix ++
           base64_encode (rawkey_nonce hunter2_b64 ++
                          flip_byte 3 x80 (rawkey_ciphertext hunter2_b64))).
Proof. repeat split; vm_compute; reflexivity. Qed.



(* ================================================================== *)
(** * Text that is no record *)
(* ================================================================== *)


(** Text that parses and is no record: the object without members, a
    record cut short, and on the raw-key side the plain note [buy milk],
    which [atob] accepts. *)
Example text_that_is_no_record :
  pbkdf2_fields Sample.platform (js "{}") = Some ([], []) /\
  Pbkdf2Gcm.decryptText Sample.platform (js "hunter2") (js "{}")
    = throw Pbkdf2Gcm.bad_password /\
  Pbkdf2Gcm.decryptText Sample.platform (js "hunter2")
    (firstn 40 hunter2_record) = throw Pbkdf2Gcm.bad_password /\
  rawkey_fields (js "buy milk") = Some ([x6e; xec; xa6; x8a; x59], []) /\
  RawKeyGcm.decryptText Sample.platform (js "buy milk") (js "hunter2")
    = ret (RawKeyGcm.failure_prefix ++ js "buy milk") /\
  RawKeyGcm.decryptText Sample.platform (firstn 24 hunter2_b64) (js "hunter2")
    = ret (RawKeyGcm.failure_prefix ++ firstn 24 hunter2_b64).
Proof. repeat split; vm_compute; reflexivity. Qed.



(* ================================================================== *)
(** * Decrypting all notes *)
(* ================================================================== *)





(** The scenario of three notes on the raw-key version: with the key
    [bravo] the second and the third note are shown decrypted and the
    first, a record under [alpha], as the failure text followed by the
    record. *)
Example one_bad_note_among_three :
  map RawKeyGcm.shown_text
      (RawKeyGcm.decryptedNotes
         (RawKeyGcm.handleDecryptAll Sample.platform three_raw_notes
            (RawKeyGcm.mk_state [] (js "bravo") [] true)))
  = [RawKeyGcm.failure_prefix ++ note_text (hd (mk_note [] []) three_raw_notes);
     js "second"; js "third"].
Proof. vm_compute. reflexivity. Qed.



(* ================================================================== *)
(** * The stored text *)
(* ================================================================== *)

(** C6, as stated, fails on the raw-key and on the AES-CBC version.
    What encryptText of the raw-key version returns for the note
    [buy milk] under the key [correct] is, character for character, what
    it returns with no key for a note whose text happens to be that
    record; and in the AES-CBC version a note typed as the record of
    [attack at dawn!!] and saved with no key is submitted and stored as
    that record. *)
Lemma stored_text_is_ambiguous :
  fst (RawKeyGcm.encryptText Sample.platform (js "buy milk") (js "correct")
         Sample.random) = ret milk_record /\
  fst (RawKeyGcm.encryptText Sample.platform milk_record [] Sample.random)
    = ret milk_record /\
  fst (AesCbc.encryptText Sample.platform (js "attack at dawn!!") dawn_password
         Sample.random) = ret dawn_record /\
  AesCbcRoute.onSubmit Sample.platform dawn_record [] Sample.random =
    (ret [(js "text", Text dawn_record); (js "key", Text []);
          (js "intent", Text (js "create"))], Sample.random) /\
  AesCbcRoute.action
    [(js "text", Text dawn_record); (js "key", Text []);
     (js "intent", Text (js "create"))]
    = ([TodoManager.create dawn_record], success).
Proof. repeat split; vm_compute; reflexivity. Qed.

(** C6 (amended). The records of the PBKDF2 version are recognisable by
    their form: every record begins with the same seven characters, the
    opening of a JSON object with the member [iv], and the create handler
    of that version submits nothing else in the field [text].  The
    records of the raw-key version (bare base64 of the nonce and the
    ciphertext) and of the AES-CBC version (two base64 strings around a
    colon) carry nothing of the kind, and neither version encrypts a note
    saved without a key.  In the raw-key version encryptText with no key
    returns a text that is a record as it is, and the create handler
    submits that record in the field [encryptedText], as it does for the
    note the record was made from.  In the AES-CBC version a note typed as
    a record and saved with a blank key is submitted and stored as that
    record.  So in these two versions the text does not tell a record from
    a plain note. *)
Theorem stored_text_markers (W : Platform)
        (text password key : jsstring) (g g' : rng) :
  (exists rest,
     fst (Pbkdf2Gcm.encryptText W password text g) = ret (iv_prefix ++ rest)) /\
  (forall formData,
     exists rest submitted,
       fst (Pbkdf2GcmRoute.handleCreate W password formData g) = ret submitted /\
       FormData_get (js "text") submitted = Some (Text (iv_prefix ++ rest)) /\
       forall v, In (js "text", v) submitted -> v = Text (iv_prefix ++ rest)) /\
  (forall record,
     RawKeyGcm.is_empty key = false ->
     fst (RawKeyGcm.encryptText W text key g) = ret record ->
     (exists cryptoKey,
        record = base64_encode
                   (nonce_of 12 g ++
                    aes_gcm_encrypt W cryptoKey (nonce_of 12 g)
                                    (TextEncoder_encode text))) /\
     fst (RawKeyGcm.encryptText W record [] g') = ret record /\
     fst (RawKeyGcmRoute.handleEncryptSubmit W [] [(js "text", Text record)] g')
       = Some [(js "text", Text record); (js "encryptedText", Text record)] /\
     (RawKeyGcm.is_empty text = false ->
      fst (RawKeyGcmRoute.handleEncryptSubmit W key [(js "text", Text text)] g)
        = Some [(js "text", Text text); (js "encryptedText", Text record)])) /\
  (forall record,
     fst (AesCbc.encryptText W text password g) = ret record ->
     (exists ciphertext,
        record = AesCbc.join_record (base64_encode (nonce_of 16 g))
                                    (base64_encode ciphertext)) /\
     forall blank,
       RawKeyGcm.is_empty (trim blank) = true ->
       AesCbcRoute.onSubmit W record blank g' =
         (ret [(js "text", Text record); (js "key", Text blank);
               (js "intent", Text (js "create"))], g') /\
       AesCbcRoute.action
         [(js "text", Text record); (js "key", Text blank);
          (js "intent", Text (js "create"))]
         = ([TodoManager.create record], success)).
Proof.
  assert (Hprefix : forall iv data,
            stringify_iv_data iv data
            = iv_prefix ++ tl (stringify_array iv) ++
              ch "," :: quote :: js "data" ++ quote :: ch ":" ::
              stringify_array data ++ [ch "}"]).
  { intros iv data. unfold stringify_iv_data, iv_prefix.
    destruct iv as [|b iv]; reflexivity. }
  split; [|split; [|split]].
  - rewrite pbkdf2_encryptText_record, Hprefix. now eexists.
  - intros formData. rewrite handleCreate_submits, Hprefix.
    eexists _, _. split; [reflexivity|].
    split; [apply FormData_get_set | intros v; apply FormData_set_all].
  - intros record Hkey Hrec.
    destruct (rawkey_encryptText_record W text key g record Hkey Hrec)
      as [cryptoKey [_ Hrecord]].
    assert (Hnonempty : RawKeyGcm.is_empty record = false).
    { rewrite Hrecord. unfold getRandomValues. cbn [fst seq map app].
      apply base64_encode_nonempty. }
    split; [now exists cryptoKey|]. split; [reflexivity|]. split.
    + unfold RawKeyGcmRoute.handleEncryptSubmit.
      cbn [FormData_get truthy_entry String_of RawKeyGcm.is_empty app fst].
      rewrite jsstring_eqb_refl. cbn [truthy_entry String_of].
      rewrite Hnonempty. reflexivity.
    + intros Htext. unfold RawKeyGcmRoute.handleEncryptSubmit.
      cbn [FormData_get]. rewrite jsstring_eqb_refl.
      cbn [truthy_entry String_of]. rewrite Htext, Hkey. cbn [negb].
      destruct (RawKeyGcm.encryptText W text key g) as [[e|r] g''];
        cbn [fst] in Hrec |- *; [discriminate|].
      unfold ret in Hrec. now injection Hrec as ->.
  - intros record Hrec.
    destruct (aescbc_encryptText_record W text password g record Hrec)
      as [k [ciphertext [_ [_ Hrecord]]]].
    split; [now exists ciphertext|].
    intros blank Hblank. split.
    + unfold AesCbcRoute.onSubmit. now rewrite Hblank.
    + rewrite Hrecord. unfold AesCbc.join_record.
      destruct (base64_encode (nonce_of 16 g)); reflexivity.
Qed.

Lemma stored_text_markers_witness :
  firstn 7 hunter2_record = iv_prefix /\
  fst (RawKeyGcmRoute.handleEncryptSubmit Sample.platform []
         [(js "text", Text milk_record)] Sample.random)
    = Some [(js "text", Text milk_record);
            (js "encryptedText", Text milk_record)] /\
  fst (RawKeyGcmRoute.handleEncryptSubmit Sample.platform (js "correct")
         [(js "text", Text (js "buy milk"))] Sample.random)
    = Some [(js "text", Text (js "buy milk"));
            (js "encryptedText", Text milk_record)] /\
  AesCbcRoute.action
    [(js "text", Text dawn_record); (js "key", Text (js "  "));
     (js "intent", Text (js "create"))]
    = ([TodoManager.create dawn_record], success).
Proof.
  destruct (stored_text_markers Sample.platform (js "buy milk") (js "hunter2")
              (js "correct") Sample.random Sample.random)
    as [[rest Hrest] [_ [Hraw _]]].
  destruct (stored_text_markers Sample.platform (js "attack at dawn!!")
              dawn_password (js "correct") Sample.random Sample.random)
    as [_ [_ [_ Hcbc]]].
  assert (Hkey : RawKeyGcm.is_empty (js "correct") = false) by reflexivity.
  assert (Htext : RawKeyGcm.is_empty (js "buy milk") = false) by reflexivity.
  assert (Hblank : RawKeyGcm.is_empty (trim (js "  ")) = true) by reflexivity.
  destruct (Hraw milk_record Hkey) as [_ [_ [Hplain Hencrypted]]];
    [vm_compute; reflexivity|].
  destruct (Hcbc dawn_record) as [_ Hstored]; [vm_compute; reflexivity|].
  split; [|split; [|split]].
  - apply (f_equal returned) in Hrest. apply (f_equal (firstn 7)) in Hrest.
    exact Hrest.
  - exact Hplain.
  - exact (Hencrypted Htext).
  - exact (proj2 (Hstored (js "  ") Hblank)).
Defined.

(* ================================================================== *)
(** * Two encryptions of one text *)
(* ================================================================== *)






(* ================================================================== *)
(** * Deriving a key *)
(* ================================================================== *)

(** C8, as stated, fails: deriveKey returns a key for the empty
    password. *)
Lemma empty_password_derives_a_key :
  Pbkdf2Gcm.deriveKey Sample.platform [] =
  ret (pbkdf2_sha256 Sample.platform [] Pbkdf2Gcm.salt 150000).
Proof. reflexivity. Qed.

(** C8 (amended). deriveKey validates nothing and never throws: for every
    password, the empty one included, it returns the PBKDF2 key of the
    encoded password under the salt "fixed-salt-for-derivation" and 150000
    iterations, which are constants of the function and no arguments. *)
Theorem deriveKey_validates_nothing (W : Platform) (password : jsstring) :
  Pbkdf2Gcm.deriveKey W password =
    ret (pbkdf2_sha256 W (TextEncoder_encode password)
           (TextEncoder_encode (js "fixed-salt-for-derivation")) 150000) /\
  Pbkdf2Gcm.deriveKey W [] =
    ret (pbkdf2_sha256 W []
           (TextEncoder_encode (js "fixed-salt-for-derivation")) 150000) /\
  (forall e, Pbkdf2Gcm.deriveKey W password <> throw e).
Proof. repeat split. intros e. discriminate. Qed.

(* ================================================================== *)
(** * The age armor hides nothing *)
(* ================================================================== *)

Lemma payload_of_record (payload : jsstring) :
  Age.payload_of (Age.header ++ Age.recipient_line ++ payload ++ Age.footer)
  = payload.
Proof.
  unfold Age.payload_of.
  rewrite (app_assoc Age.header), skipn_app, Nat.sub_diag, skipn_all.
  cbn [skipn app]. rewrite length_app, Nat.add_sub.
  rewrite firstn_app, Nat.sub_diag, firstn_all, firstn_O. apply app_nil_r.
Qed.

(** C9, as stated, fails for a text with a surrogate outside a pair: the
    encoder writes the bytes of U+FFFD in its place, so the payload
    decodes to U+FFFD and not to the text, and the record is, character
    for character, the record of the text U+FFFD. *)
Lemma half_pair_is_not_recovered :
  Age.encryptWithAge Sample.platform half_pair = ret half_pair_record /\
  Age.payload_of half_pair_record = js "77+9" /\
  atob (Age.payload_of half_pair_record) = ret (fromCharCode [xef; xbf; xbd]) /\
  Age.read_without_key half_pair_record = ret [0xFFFD] /\
  Age.encryptWithAge Sample.platform [0xFFFD] = ret half_pair_record.
Proof. repeat split; vm_compute; reflexivity. Qed.

(** C9 (amended). In the age version the record encryptWithAge returns
    for a text is the header, the recipient line, the base64 encoding of
    the UTF-8 bytes of the text, and the footer; decoding that payload
    from base64, with no key of any kind, gives those bytes, and decoding
    them from UTF-8 gives the text with every surrogate outside a pair
    replaced by U+FFFD: the text itself when it is well-formed. *)
Theorem age_record_is_readable (W : Platform) (text record : jsstring) :
  Age.encryptWithAge W text = ret record ->
  record = Age.header ++ Age.recipient_line ++
           base64_encode (TextEncoder_encode text) ++ Age.footer /\
  Age.payload_of record = base64_encode (TextEncoder_encode text) /\
  atob (Age.payload_of record) = ret (fromCharCode (TextEncoder_encode text)) /\
  (code_units text = true ->
   Age.read_without_key record = ret (scalar_value_string text)) /\
  (well_formed text = true -> Age.read_without_key record = ret text).
Proof.
  unfold Age.encryptWithAge, fromCharCode_spread.
  destruct (Nat.leb _ (max_arguments W)); [|discriminate].
  cbn [bind ret try_catch]. rewrite btoa_fromCharCode. cbn [bind ret try_catch].
  intros E.
  assert (Hrec : record = Age.header ++ Age.recipient_line ++
                          base64_encode (TextEncoder_encode text) ++ Age.footer)
    by (unfold ret in E; congruence).
  clear E. subst record.
  unfold Age.read_without_key. rewrite payload_of_record, atob_base64_encode.
  cbn [bind ret]. rewrite charCodes_fromCharCode.
  split; [reflexivity|]. split; [reflexivity|]. split; [reflexivity|]. split.
  - intros Hunits. now rewrite utf8_decode_encode_any.
  - intros Hwf. now rewrite utf8_decode_encode.
Qed.

Lemma age_record_is_readable_witness :
  cafe_record = Age.header ++ Age.recipient_line ++
                base64_encode (TextEncoder_encode (js "caf" ++ [0xE9; 0x20AC])) ++
                Age.footer /\
  Age.payload_of cafe_record
    = base64_encode (TextEncoder_encode (js "caf" ++ [0xE9; 0x20AC])) /\
  atob (Age.payload_of cafe_record)
    = ret (fromCharCode (TextEncoder_encode (js "caf" ++ [0xE9; 0x20AC]))) /\
  (code_units (js "caf" ++ [0xE9; 0x20AC]) = true ->
   Age.read_without_key cafe_record
     = ret (scalar_value_string (js "caf" ++ [0xE9; 0x20AC]))) /\
  (well_formed (js "caf" ++ [0xE9; 0x20AC]) = true ->
   Age.read_without_key cafe_record = ret (js "caf" ++ [0xE9; 0x20AC])).
Proof.
  apply (age_record_is_readable Sample.platform (js "caf" ++ [0xE9; 0x20AC])
           cafe_record).
  vm_compute. reflexivity.
Defined.

(** encryptWithAge returns whenever the bytes of the text can be spread
    into one call. *)
Lemma age_encrypt_returns (W : Platform) (text : jsstring) :
  (List.length (TextEncoder_encode text) <= max_arguments W)%nat ->
  exists record, Age.encryptWithAge W text = ret record.
Proof.
  intros Hlen. unfold Age.encryptWithAge, fromCharCode_spread.
  apply Nat.leb_le in Hlen. rewrite Hlen. cbn [bind ret].
  rewrite btoa_fromCharCode. cbn [bind ret try_catch]. now eexists.
Qed.

(* ================================================================== *)
(** * Keys that pad to the same 32 characters *)
(* ================================================================== *)

Lemma padded_key_length (key : jsstring) : List.length (padded_key key) = 32%nat.
Proof.
  unfold padded_key, slice_to, padEnd.
  rewrite length_firstn, length_app, repeat_length. lia.
Qed.

Lemma encode_ascii (s : jsstring) :
  is_ascii s = true -> TextEncoder_encode s = map byte_of_N s.
Proof.
  unfold TextEncoder_encode. induction s as [|c s IH]; [reflexivity|].
  cbn [is_ascii forallb]. intros H. apply andb_true_iff in H.
  destruct H as [Hc Hs]. cbn [code_points map].
  replace (is_high_surrogate c) with false
    by (unfold is_high_surrogate; apply N.ltb_lt in Hc; symmetry;
        apply andb_false_iff; left; apply N.leb_gt; lia).
  replace (is_low_surrogate c) with false
    by (unfold is_low_surrogate; apply N.ltb_lt in Hc; symmetry;
        apply andb_false_iff; left; apply N.leb_gt; lia).
  cbn [flat_map]. unfold utf8_of_code_point at 1. rewrite Hc.
  cbn [app]. f_equal. now apply IH.
Qed.

Lemma in_firstn {A} (x : A) (n : nat) (l : list A) : In x (firstn n l) -> In x l.
Proof.
  intros H. rewrite <- (firstn_skipn n l). apply in_or_app. now left.
Qed.

Lemma padded_key_ascii (key : jsstring) :
  is_ascii key = true -> is_ascii (padded_key key) = true.
Proof.
  intros H. unfold is_ascii in *. apply forallb_forall. intros c Hc.
  unfold padded_key, slice_to, padEnd in Hc. apply in_firstn in Hc.
  apply in_app_or in Hc. destruct Hc as [Hc|Hc].
  - revert c Hc. now apply forallb_forall.
  - apply repeat_spec in Hc. now subst c.
Qed.

(** C10. In the raw-key version the key is padded with [0] and cut to 32
    code units before use, not to 32 bytes as the source comments it.  Two
    keys that are not empty and have the same padded form are one key:
    encryptText and decryptText compute the same under both.  When the
    padded form is ASCII it is 32 bytes long, encryptText returns the
    record of the nonce and of the text encrypted under these bytes
    (provided nonce and ciphertext fit one call of [String.fromCharCode]),
    and the record decrypts under the other key to the decoding of the
    encoded text (provided AES-GCM decrypts what it encrypted).  When the
    padded form holds a character outside ASCII it is longer than 32 bytes
    and no key at all: encryptText throws DataError without drawing a
    nonce, and decryptText returns the failure text for every stored
    text. *)
Theorem padded_keys_are_one_key (W : Platform) (key1 key2 : jsstring) :
  RawKeyGcm.is_empty key1 = false -> RawKeyGcm.is_empty key2 = false ->
  padded_key key1 = padded_key key2 ->
  RawKeyGcm.keyData key1 = TextEncoder_encode (padded_key key1) /\
  RawKeyGcm.keyData key1 = RawKeyGcm.keyData key2 /\
  List.length (padded_key key1) = 32%nat /\
  (forall text g,
     RawKeyGcm.encryptText W text key1 g = RawKeyGcm.encryptText W text key2 g) /\
  (forall record,
     RawKeyGcm.decryptText W record key1 = RawKeyGcm.decryptText W record key2) /\
  (is_ascii (padded_key key1) = true ->
   List.length (RawKeyGcm.keyData key1) = 32%nat /\
   forall text g,
     (12 + List.length (aes_gcm_encrypt W (RawKeyGcm.keyData key1)
                          (nonce_of 12 g) (TextEncoder_encode text))
      <= max_arguments W)%nat ->
     fst (RawKeyGcm.encryptText W text key1 g) =
       ret (base64_encode
              (nonce_of 12 g ++
               aes_gcm_encrypt W (RawKeyGcm.keyData key1) (nonce_of 12 g)
                               (TextEncoder_encode text))) /\
     (gcm_correct W ->
      RawKeyGcm.decryptText W
        (base64_encode
           (nonce_of 12 g ++
            aes_gcm_encrypt W (RawKeyGcm.keyData key1) (nonce_of 12 g)
                            (TextEncoder_encode text))) key2 =
      ret (TextDecoder_decode (TextEncoder_encode text)))) /\
  (is_ascii (padded_key key1) = false ->
   (32 < List.length (RawKeyGcm.keyData key1))%nat /\
   (forall text g,
      RawKeyGcm.encryptText W text key1 g = (throw DataError, g)) /\
   (forall record,
      RawKeyGcm.decryptText W record key2 =
      ret (RawKeyGcm.failure_prefix ++ record))).
Proof.
  intros H1 H2 Hpad.
  assert (Hdata : RawKeyGcm.keyData key1 = RawKeyGcm.keyData key2)
    by (unfold RawKeyGcm.keyData; fold (padded_key key1); fold (padded_key key2);
        now rewrite Hpad).
  assert (Hdec : forall record,
            RawKeyGcm.decryptText W record key1 = RawKeyGcm.decryptText W record key2)
    by (intros record; unfold RawKeyGcm.decryptText; now rewrite H1, H2, Hdata).
  split; [reflexivity|]. split; [exact Hdata|].
  split; [apply padded_key_length|].
  split; [intros text g; unfold RawKeyGcm.encryptText; now rewrite H1, H2, Hdata|].
  split; [exact Hdec|]. split.
  - intros Hascii.
    assert (Hlen : List.length (RawKeyGcm.keyData key1) = 32%nat).
    { unfold RawKeyGcm.keyData. fold (padded_key key1).
      rewrite encode_ascii by exact Hascii.
      rewrite length_map. apply padded_key_length. }
    split; [exact Hlen|]. intros text g Hfits.
    pose proof (rawkey_encryptText_returns W text key1 g _ H1
                  (import_aes_key_32 _ Hlen) Hfits) as Henc.
    split; [now rewrite Henc|].
    intros Hgcm. rewrite <- Hdec.
    apply (rawkey_decrypt_encrypt W text key1 g _ Hgcm H1).
    now rewrite Henc.
  - intros Hascii.
    assert (Hlen : (32 < List.length (RawKeyGcm.keyData key1))%nat).
    { pose proof (encode_longer _ Hascii) as H.
      rewrite padded_key_length in H. exact H. }
    assert (Himport : import_aes_key (RawKeyGcm.keyData key1) = throw DataError)
      by (apply import_aes_key_other_length; lia).
    split; [exact Hlen|]. split.
    + intros text g. unfold RawKeyGcm.encryptText. now rewrite H1, Himport.
    + intros record. rewrite <- Hdec. unfold RawKeyGcm.decryptText.
      rewrite H1, Himport. destruct (atob record); reflexivity.
Qed.

Lemma padded_keys_are_one_key_witness :
  (32 < List.length (RawKeyGcm.keyData accented_key))%nat /\
  RawKeyGcm.encryptText Sample.platform (js "buy milk") accented_key
    Sample.random = (throw DataError, Sample.random) /\
  RawKeyGcm.decryptText Sample.platform milk_record accented_key0
    = ret (RawKeyGcm.failure_prefix ++ milk_record) /\
  List.length (RawKeyGcm.keyData (js "abc")) = 32%nat /\
  fst (RawKeyGcm.encryptText Sample.platform (js "buy milk") (js "abc")
         Sample.random) = ret abc_record /\
  RawKeyGcm.decryptText Sample.platform abc_record (js "abc0")
    = ret (js "buy milk").
Proof.
  destruct (padded_keys_are_one_key Sample.platform accented_key accented_key0)
    as [_ [_ [_ [_ [_ [_ Haccented]]]]]]; [vm_compute; reflexivity ..|].
  assert (Hno : is_ascii (padded_key accented_key) = false)
    by (vm_compute; reflexivity).
  destruct (Haccented Hno) as [Hlonger [Hthrows Hfails]].
  destruct (padded_keys_are_one_key Sample.platform (js "abc") (js "abc0"))
    as [_ [_ [_ [_ [_ [Hascii _]]]]]]; [vm_compute; reflexivity ..|].
  assert (Hyes : is_ascii (padded_key (js "abc")) = true)
    by (vm_compute; reflexivity).
  destruct (Hascii Hyes) as [Hlen Hrecord].
  destruct (Hrecord (js "buy milk") Sample.random) as [Henc Hdec];
    [apply Nat.leb_le; vm_compute; reflexivity|].
  split; [exact Hlonger|]. split; [apply Hthrows|]. split; [apply Hfails|].
  split; [exact Hlen|]. split; [exact Henc|].
  exact (Hdec sample_gcm_correct).
Defined.

(** C10, as stated, fails for keys with a character outside ASCII.  The
    key [caf\u00e9] and the same key followed by [0] are not empty and pad
    to the same 32 code units, which are 33 bytes and not 32: importKey
    takes no key of that length, so encryptText throws under the first
    key and returns no record, and decryptText under the second returns
    the failure text. *)
Lemma accented_key_is_no_key :
  padded_key accented_key = padded_key accented_key0 /\
  List.length (padded_key accented_key) = 32%nat /\
  List.length (RawKeyGcm.keyData accented_key) = 33%nat /\
  import_aes_key (RawKeyGcm.keyData accented_key) = throw DataError /\
  RawKeyGcm.encryptText Sample.platform (js "buy milk") accented_key
    Sample.random = (throw DataError, Sample.random) /\
  RawKeyGcm.decryptText Sample.platform milk_record accented_key0
    = ret (RawKeyGcm.failure_prefix ++ milk_record).
Proof. repeat split; vm_compute; reflexivity. Qed.

(** On this platform: encrypted under [abc], decrypted under [abc0]. *)
Example abc0_decrypts_abc :
  fst (RawKeyGcm.encryptText Sample.platform (js "buy milk") (js "abc")
         Sample.random) = ret abc_record /\
  RawKeyGcm.decryptText Sample.platform abc_record (js "abc0")
    = ret (js "buy milk").
Proof. split; vm_compute; reflexivity. Qed.

(* ================================================================== *)
(** * Concrete round trips *)
(* ================================================================== *)

Lemma pbkdf2_roundtrip_witness :
  Pbkdf2Gcm.decryptText Sample.platform (js "hunter2") hunter2_record
  = ret (js "buy milk").
Proof.
  apply (pbkdf2_roundtrip Sample.platform (js "hunter2") (js "buy milk")
           Sample.random hunter2_record).
  - exact sample_gcm_correct.
  - reflexivity.
  - reflexivity.
  - vm_compute. reflexivity.
Defined.

Lemma rawkey_roundtrip_witness :
  RawKeyGcm.decryptText Sample.platform hunter2_b64 (js "hunter2")
  = ret (js "buy milk").
Proof.
  apply (rawkey_roundtrip Sample.platform (js "buy milk") (js "hunter2")
           Sample.random hunter2_b64).
  - exact sample_gcm_correct.
  - reflexivity.
  - reflexivity.
  - vm_compute. reflexivity.
Defined.

Lemma aescbc_roundtrip_witness :
  AesCbc.decryptText Sample.platform
    (AesCbc.join_record (base64_encode dawn_iv) (base64_encode dawn_ciphertext))
    dawn_password
  = ret (js "attack at dawn!!").
Proof.
  apply (aescbc_roundtrip Sample.platform (js "attack at dawn!!") dawn_password
           Sample.random).
  - exact sample_block_cipher.
  - exact sample_block_inverse.
  - reflexivity.
  - reflexivity.
  - vm_compute. reflexivity.
Defined.

(* ================================================================== *)
(** * Forms and JSON strings *)
(* ================================================================== *)

(** ** The model on known values *)

Example trim_both : trim (js "  my key ") = js "my key".
Proof. reflexivity. Qed.
Example trim_blank : trim (js "   ") = [].
Proof. reflexivity. Qed.
Example trim_inner : trim [0xFEFF; 97; 10; 98; 0x2028] = [97; 10; 98].
Proof. reflexivity. Qed.
Example quote_plain : QuoteJSONString (js "buy milk") = quote :: js "buy milk" ++ [quote].
Proof. reflexivity. Qed.
Example quote_escapes :
  QuoteJSONString [97; 10; 34; 92; 1; 0xD800; 0xD83D; 0xDE00] =
  quote :: js "a\n\" ++ [quote] ++ js "\\\u0001\ud800" ++ [0xD83D; 0xDE00; quote].
Proof. reflexivity. Qed.
Example set_replaces :
  FormData_set (js "text") (js "new")
    [(js "a", Text (js "1")); (js "text", Text (js "old")); (js "text", File)] =
  [(js "a", Text (js "1")); (js "text", Text (js "new"))].
Proof. reflexivity. Qed.
Example set_appends :
  FormData_set (js "text") (js "new") [(js "a", Text (js "1"))] =
  [(js "a", Text (js "1")); (js "text", Text (js "new"))].
Proof. reflexivity. Qed.


(** ** JSON.parse reads back the strings JSON.stringify wrote *)

Lemma hex_value_digit (d : N) : d < 16 -> hex_value (hex_digit d) = Some d.
Proof.
  intros Hd. unfold hex_digit, hex_value, is_digit.
  destruct (d <? 10) eqn:E; bool_to_prop.
  - replace (48 <=? 48 + d) with true by (symmetry; apply N.leb_le; lia).
    replace (48 + d <=? 57) with true by (symmetry; apply N.leb_le; lia).
    cbn [andb]. f_equal. lia.
  - replace (87 + d <=? 57) with false by (symmetry; apply N.leb_gt; lia).
    rewrite andb_false_r.
    replace (87 + d <=? 70) with false by (symmetry; apply N.leb_gt; lia).
    rewrite andb_false_r.
    replace (97 <=? 87 + d) with true by (symmetry; apply N.leb_le; lia).
    replace (87 + d <=? 102) with true by (symmetry; apply N.leb_le; lia).
    cbn [andb]. f_equal. lia.
Qed.

Lemma hex4_UnicodeEscape (c : N) :
  c < 65536 ->
  hex4 (hex_digit (c / 4096)) (hex_digit (c / 256 mod 16))
       (hex_digit (c / 16 mod 16)) (hex_digit (c mod 16)) = Some c.
Proof.
  intros Hc. unfold hex4.
  rewrite !hex_value_digit by lia. f_equal. lia.
Qed.

Lemma parse_UnicodeEscape (c : N) (rest : jsstring) :
  c < 65536 ->
  parse_string_body (UnicodeEscape c ++ rest) =
  match parse_string_body rest with
  | Some (str, tail) => Some (c :: str, tail)
  | None => None
  end.
Proof.
  intros Hc. unfold UnicodeEscape. cbn [app parse_string_body].
  change (backslash =? quote) with false.
  change (backslash =? backslash) with true.
  change (ch "u" =? ch "u") with true. cbv iota.
  now rewrite hex4_UnicodeEscape.
Qed.

Lemma parse_escape_code_unit (c : N) (rest : jsstring) :
  parse_string_body (escape_code_unit c ++ rest) =
  match parse_string_body rest with
  | Some (str, tail) => Some (c :: str, tail)
  | None => None
  end.
Proof.
  unfold escape_code_unit.
  repeat match goal with
    | |- context [if c =? ?k then _ else _] =>
        destruct (N.eqb_spec c k) as [->|?]; [reflexivity|]
    end.
  destruct (c <? 32) eqn:E; bool_to_prop.
  - apply parse_UnicodeEscape. lia.
  - cbn [app parse_string_body].
    replace (c =? quote) with false by (symmetry; now apply N.eqb_neq).
    replace (c =? backslash) with false by (symmetry; now apply N.eqb_neq).
    replace (c <? 32) with false by (symmetry; apply N.ltb_ge; lia).
    reflexivity.
Qed.

Lemma surrogate_bound (c : N) :
  is_high_surrogate c || is_low_surrogate c = true -> c < 65536.
Proof.
  unfold is_high_surrogate, is_low_surrogate. intros H. bool_to_prop; lia.
Qed.

Lemma parse_surrogate (c : N) (rest : jsstring) :
  is_high_surrogate c || is_low_surrogate c = true ->
  parse_string_body (c :: rest) =
  match parse_string_body rest with
  | Some (str, tail) => Some (c :: str, tail)
  | None => None
  end.
Proof.
  unfold is_high_surrogate, is_low_surrogate. intros H.
  cbn [parse_string_body]. unfold quote, backslash.
  replace (c =? 34) with false by (symmetry; apply N.eqb_neq; bool_to_prop; lia).
  replace (c =? 92) with false by (symmetry; apply N.eqb_neq; bool_to_prop; lia).
  replace (c <? 32) with false by (symmetry; apply N.ltb_ge; bool_to_prop; lia).
  reflexivity.
Qed.

Lemma parse_quoted_characters_bounded (n : nat) :
  forall (s tail : jsstring),
  (List.length s <= n)%nat ->
  parse_string_body (quoted_characters s ++ quote :: tail) = Some (s, tail).
Proof.
  induction n as [|n IH]; intros s tail Hlen.
  - destruct s; [|cbn [List.length] in Hlen; lia]. reflexivity.
  - destruct s as [|c rest]; [reflexivity|].
    cbn [List.length] in Hlen. cbn [quoted_characters].
    destruct (is_high_surrogate c) eqn:Eh.
    + destruct rest as [|d rest'].
      * rewrite parse_UnicodeEscape
          by (apply surrogate_bound; now rewrite Eh).
        reflexivity.
      * destruct (is_low_surrogate d) eqn:El.
        -- cbn [app].
           rewrite parse_surrogate by now rewrite Eh.
           rewrite parse_surrogate by (rewrite El; apply orb_true_r).
           rewrite IH by (cbn [List.length] in Hlen; lia). reflexivity.
        -- rewrite <- app_assoc.
           rewrite parse_UnicodeEscape
             by (apply surrogate_bound; now rewrite Eh).
           rewrite IH by lia. reflexivity.
    + destruct (is_low_surrogate c) eqn:El; rewrite <- app_assoc.
      * rewrite parse_UnicodeEscape
          by (apply surrogate_bound; rewrite El; apply orb_true_r).
        rewrite IH by lia. reflexivity.
      * rewrite parse_escape_code_unit. rewrite IH by lia. reflexivity.
Qed.

Lemma parse_quoted_characters (s tail : jsstring) :
  parse_string_body (quoted_characters s ++ quote :: tail) = Some (s, tail).
Proof. now apply (parse_quoted_characters_bounded (List.length s)). Qed.

(** A value that starts with a quote is a string. *)
Lemma parse_value_QuoteJSONString (f : nat) (s tail : jsstring) :
  parse_value (S f) (QuoteJSONString s ++ tail) = Some (JString s, tail).
Proof.
  rewrite parse_value_S. unfold QuoteJSONString. cbn [app].
  rewrite skip_ws_plain by reflexivity.
  change (quote =? ch "[") with false. change (quote =? ch "{") with false.
  rewrite N.eqb_refl. cbv iota.
  rewrite <- app_assoc. cbn [app]. now rewrite parse_quoted_characters.
Qed.

(** [JSON.parse(JSON.stringify(s))] is [s], for every string. *)
Lemma JSON_parse_QuoteJSONString (s : jsstring) :
  JSON_parse (QuoteJSONString s) = ret (JString s).
Proof.
  unfold JSON_parse.
  remember (2 * List.length (QuoteJSONString s) + 2)%nat as fuel eqn:Hfuel.
  destruct fuel as [|f]; [lia|].
  rewrite <- (app_nil_r (QuoteJSONString s)).
  now rewrite parse_value_QuoteJSONString.
Qed.


(* ================================================================== *)
(** * The server actions *)
(* ================================================================== *)

Example action_creates :
  Pbkdf2GcmRoute.action
    [(js "text", Text (js "buy milk")); (js "intent", Text (js "create"))] =
  ([TodoManager.create (js "buy milk")], success).
Proof. reflexivity. Qed.
Example action_empty_text :
  Pbkdf2GcmRoute.action
    [(js "text", Text []); (js "intent", Text (js "create"))] =
  ([], failure (js "Invalid text") 400).
Proof. reflexivity. Qed.
Example action_no_intent :
  Pbkdf2GcmRoute.action [(js "text", Text (js "buy milk"))] =
  ([], failure (js "Invalid intent") 400).
Proof. reflexivity. Qed.
Example action_toggle_unknown :
  Pbkdf2GcmRoute.action [(js "id", Text (js "7")); (js "intent", Text (js "toggle"))] =
  ([], failure (js "Invalid intent") 400) /\
  AgeRoute.action [(js "id", Text (js "7")); (js "intent", Text (js "toggle"))] =
  ([TodoManager.toggle (Some (Text (js "7")))], success).
Proof. split; reflexivity. Qed.

(** X4. The action of app/routes/$id.tsx (the same text in both versions)
    is decided by the field [intent].  With the intent [create] it stores
    the field [text], unchanged, when that is a string and not empty, and
    otherwise answers with status 400, [Invalid text], without any call
    of the note manager.  With the intent [delete] it deletes the note of
    the field [id].  With every other intent, a missing one and a file
    included, it answers with status 400, [Invalid intent], without any
    call. *)
Theorem action_outcome (formData : FormData) :
  (FormData_get (js "intent") formData = Some (Text (js "create")) ->
   (forall t,
      FormData_get (js "text") formData = Some (Text t) -> t <> [] ->
      Pbkdf2GcmRoute.action formData = ([TodoManager.create t], success)) /\
   (FormData_get (js "text") formData = Some (Text []) \/
    FormData_get (js "text") formData = Some File \/
    FormData_get (js "text") formData = None ->
    Pbkdf2GcmRoute.action formData = ([], failure (js "Invalid text") 400))) /\
  (FormData_get (js "intent") formData = Some (Text (js "delete")) ->
   Pbkdf2GcmRoute.action formData =
   ([TodoManager.delete (FormData_get (js "id") formData)], success)) /\
  (FormData_get (js "intent") formData <> Some (Text (js "create")) ->
   FormData_get (js "intent") formData <> Some (Text (js "delete")) ->
   Pbkdf2GcmRoute.action formData = ([], failure (js "Invalid intent") 400)) /\
  AesCbcRoute.action formData = Pbkdf2GcmRoute.action formData.
Proof.
  split; [|split; [|split; [|reflexivity]]].
  - intros Hintent. unfold Pbkdf2GcmRoute.action.
    rewrite Hintent, jsstring_eqb_refl. split.
    + intros t -> Ht. destruct t as [|c t]; [now elim Ht | reflexivity].
    + intros [-> | [-> | ->]]; reflexivity.
  - intros Hintent. unfold Pbkdf2GcmRoute.action. rewrite Hintent.
    assert (E : jsstring_eqb (js "delete") (js "create") = false)
      by (vm_compute; reflexivity).
    now rewrite E, jsstring_eqb_refl.
  - intros Hcreate Hdelete. unfold Pbkdf2GcmRoute.action.
    destruct (FormData_get (js "intent") formData) as [[intent|]|];
      [|reflexivity ..].
    destruct (jsstring_eqb intent (js "create")) eqn:E1.
    + apply jsstring_eqb_eq in E1. subst intent. now elim Hcreate.
    + destruct (jsstring_eqb intent (js "delete")) eqn:E2; [|reflexivity].
      apply jsstring_eqb_eq in E2. subst intent. now elim Hdelete.
Qed.

Lemma action_outcome_witness :
  Pbkdf2GcmRoute.action
    [(js "text", Text (js "buy milk")); (js "intent", Text (js "create"))]
    = ([TodoManager.create (js "buy milk")], success) /\
  Pbkdf2GcmRoute.action [(js "intent", Text (js "create"))]
    = ([], failure (js "Invalid text") 400) /\
  Pbkdf2GcmRoute.action
    [(js "id", Text (js "7")); (js "intent", Text (js "delete"))]
    = ([TodoManager.delete (Some (Text (js "7")))], success) /\
  Pbkdf2GcmRoute.action milk_form = ([], failure (js "Invalid intent") 400).
Proof.
  destruct (action_outcome
              [(js "text", Text (js "buy milk")); (js "intent", Text (js "create"))])
    as [Hcreate _].
  destruct (action_outcome [(js "intent", Text (js "create"))]) as [Hempty _].
  destruct (action_outcome
              [(js "id", Text (js "7")); (js "intent", Text (js "delete"))])
    as [_ [Hdelete _]].
  destruct (action_outcome milk_form) as [_ [_ [Hother _]]].
  split; [|split; [|split]].
  - apply (proj1 (Hcreate eq_refl) (js "buy milk")); [reflexivity|discriminate].
  - apply (proj2 (Hempty eq_refl)). right. right. reflexivity.
  - apply (Hdelete eq_refl).
  - apply Hother; discriminate.
Defined.

(** X5. The action of the raw-key version stores the field
    [encryptedText] whenever it is a non-empty string, whatever the field
    [text] holds. *)
Theorem encryptedText_takes_precedence (formData : FormData) (e : jsstring) :
  FormData_get (js "intent") formData = Some (Text (js "create")) ->
  FormData_get (js "encryptedText") formData = Some (Text e) ->
  e <> [] ->
  RawKeyGcmRoute.action formData = ([TodoManager.create e], success).
Proof.
  intros Hintent Henc He.
  unfold RawKeyGcmRoute.action, RawKeyGcmRoute.textToStore.
  rewrite Hintent, Henc. rewrite jsstring_eqb_refl.
  destruct e as [|c e]; [congruence|]. reflexivity.
Qed.

Lemma encryptedText_takes_precedence_witness :
  FormData_get (js "text") ((js "intent", Text (js "create")) :: milk_submission)
    = Some (Text (js "buy milk")) /\
  RawKeyGcmRoute.action ((js "intent", Text (js "create")) :: milk_submission)
    = ([TodoManager.create milk_record], success).
Proof.
  split; [reflexivity|].
  apply (encryptedText_takes_precedence
           ((js "intent", Text (js "create")) :: milk_submission) milk_record).
  - reflexivity.
  - reflexivity.
  - discriminate.
Defined.

(** X6. Without a usable [encryptedText] the action of the raw-key version
    stores the field [text] converted to a string before it is checked: a
    file sent as [text] is stored as the words [[object File]], where the
    action of app/routes/$id.tsx answers [Invalid text]. *)
Theorem file_is_stored_as_text (formData : FormData) :
  FormData_get (js "intent") formData = Some (Text (js "create")) ->
  FormData_get (js "text") formData = Some File ->
  truthy_entry (FormData_get (js "encryptedText") formData) = false ->
  RawKeyGcmRoute.action formData
    = ([TodoManager.create (js "[object File]")], success) /\
  Pbkdf2GcmRoute.action formData = ([], failure (js "Invalid text") 400).
Proof.
  intros Hintent Htext Henc.
  unfold RawKeyGcmRoute.action, RawKeyGcmRoute.textToStore,
    Pbkdf2GcmRoute.action.
  rewrite Hintent, Htext, Henc. split; reflexivity.
Qed.

Lemma file_is_stored_as_text_witness :
  RawKeyGcmRoute.action
    [(js "intent", Text (js "create")); (js "text", File);
     (js "encryptedText", Text [])]
    = ([TodoManager.create (js "[object File]")], success) /\
  Pbkdf2GcmRoute.action
    [(js "intent", Text (js "create")); (js "text", File);
     (js "encryptedText", Text [])]
    = ([], failure (js "Invalid text") 400).
Proof.
  apply (file_is_stored_as_text
           [(js "intent", Text (js "create")); (js "text", File);
            (js "encryptedText", Text [])]); reflexivity.
Defined.


(* ================================================================== *)
(** * Notes of the age version: what the action stores, parseNote reads *)
(* ================================================================== *)

Lemma parse_value_true (f : nat) (tail : jsstring) :
  parse_value (S f) (js "true" ++ tail) = Some (JBool true, tail).
Proof. reflexivity. Qed.

Lemma parse_value_false (f : nat) (tail : jsstring) :
  parse_value (S f) (js "false" ++ tail) = Some (JBool false, tail).
Proof. reflexivity. Qed.

Lemma parse_value_null (f : nat) (tail : jsstring) :
  parse_value (S f) (js "null" ++ tail) = Some (JNull, tail).
Proof. reflexivity. Qed.

Lemma parse_value_empty_object (f : nat) (tail : jsstring) :
  parse_value (S f) (js "{}" ++ tail) = Some (JObject [], tail).
Proof. reflexivity. Qed.

Lemma parse_value_entry (f : nat) (v : option entry_value) (tail : jsstring) :
  parse_value (S f) (stringify_entry v ++ tail) = Some (json_of_entry v, tail).
Proof.
  destruct v as [[s|]|]; cbn [stringify_entry json_of_entry].
  - apply parse_value_QuoteJSONString.
  - apply parse_value_empty_object.
  - apply parse_value_null.
Qed.

(** [JSON.parse] reads the note data back as the object of its three
    members. *)
Lemma JSON_parse_noteData (t : jsstring) (e : bool) (ts : option entry_value) :
  JSON_parse (AgeRoute.stringify_noteData t e ts) =
  ret (JObject [(js "text", JString t); (js "encrypted", JBool e);
                (js "timestamp", json_of_entry ts)]).
Proof.
  unfold JSON_parse.
  assert (Hlen : (3 <= List.length (AgeRoute.stringify_noteData t e ts))%nat).
  { unfold AgeRoute.stringify_noteData.
    cbn [List.length js map list_ascii_of_string app]. lia. }
  remember (2 * List.length (AgeRoute.stringify_noteData t e ts) + 2)%nat
    as fuel eqn:Hfuel.
  destruct fuel as [|[|[|[|[|f]]]]]; try lia.
  unfold AgeRoute.stringify_noteData.
  rewrite parse_value_S. rewrite skip_ws_plain by reflexivity.
  rewrite N.eqb_refl. rewrite skip_ws_plain by reflexivity.
  change (quote =? ch "}") with false. cbv iota.
  rewrite parse_members_S. rewrite skip_ws_plain by reflexivity.
  rewrite N.eqb_refl.
  change (parse_string_body (js "text" ++ quote :: ch ":" :: ?x))
    with (Some (js "text", ch ":" :: x)).
  cbv iota. rewrite skip_ws_plain by reflexivity. rewrite N.eqb_refl.
  rewrite parse_value_QuoteJSONString.
  rewrite skip_ws_plain by reflexivity. rewrite N.eqb_refl.
  rewrite parse_members_S. rewrite skip_ws_plain by reflexivity.
  rewrite N.eqb_refl.
  change (parse_string_body (js "encrypted" ++ quote :: ch ":" :: ?x))
    with (Some (js "encrypted", ch ":" :: x)).
  cbv iota. rewrite skip_ws_plain by reflexivity. rewrite N.eqb_refl.
  assert (Hflag : forall tail,
             parse_value (S (S f)) ((if e then js "true" else js "false") ++ tail)
             = Some (JBool e, tail)).
  { intros tail. destruct e; [apply parse_value_true | apply parse_value_false]. }
  rewrite Hflag.
  rewrite skip_ws_plain by reflexivity. rewrite N.eqb_refl.
  rewrite parse_members_S. rewrite skip_ws_plain by reflexivity.
  rewrite N.eqb_refl.
  change (parse_string_body (js "timestamp" ++ quote :: ch ":" :: ?x))
    with (Some (js "timestamp", ch ":" :: x)).
  cbv iota. rewrite skip_ws_plain by reflexivity. rewrite N.eqb_refl.
  rewrite parse_value_entry.
  rewrite skip_ws_plain by reflexivity.
  change (ch "}" =? ch ",") with false. cbv iota. rewrite N.eqb_refl.
  reflexivity.
Qed.

Lemma or_else_timestamp (literal_is_zero : jsstring -> bool)
      (ts : option entry_value) :
  or_else literal_is_zero (Some (json_of_entry ts)) JNull = shown_timestamp ts.
Proof.
  destruct ts as [[[|c s]|]|]; reflexivity.
Qed.

Example parseNote_plain :
  AgeRoute.parseNote no_zero_literal (mk_note (js "1") (js "buy milk")) =
  ret (AgeRoute.mk_parsed (JString (js "buy milk")) (JBool false) JNull).
Proof. reflexivity. Qed.
Example parseNote_null :
  AgeRoute.parseNote no_zero_literal (mk_note (js "1") (js "null")) =
  ret (AgeRoute.mk_parsed (JString (js "null")) (JBool false) JNull).
Proof. reflexivity. Qed.
Example parseNote_number :
  AgeRoute.parseNote no_zero_literal (mk_note (js "1") (js "42")) =
  ret (AgeRoute.mk_parsed (JString (js "42")) (JBool false) JNull).
Proof. reflexivity. Qed.
Example parseNote_empty_text :
  AgeRoute.parseNote no_zero_literal
    (mk_note (js "1")
       (ch "{" :: quote :: js "text" ++ quote :: ch ":" :: quote :: quote ::
        js "}")) =
  ret (AgeRoute.as_it_is (mk_note (js "1")
       (ch "{" :: quote :: js "text" ++ quote :: ch ":" :: quote :: quote ::
        js "}"))).
Proof. reflexivity. Qed.

(** X7. What the action of the age version stores, parseNote reads back:
    for a create request with a non-empty string [text] the action makes
    one call, creating the JSON text of the note data, and parseNote of a
    note with that text returns the text as it was posted, the flag
    [encrypted] as a boolean (true exactly for the field value [true]) and
    the timestamp (null when it is missing or empty). *)
Theorem parseNote_reads_created_note (literal_is_zero : jsstring -> bool)
        (formData : FormData) (t id : jsstring) :
  FormData_get (js "intent") formData = Some (Text (js "create")) ->
  FormData_get (js "text") formData = Some (Text t) ->
  t <> [] ->
  exists noteData,
    AgeRoute.action formData = ([TodoManager.create noteData], success) /\
    AgeRoute.parseNote literal_is_zero (mk_note id noteData) =
    ret (AgeRoute.mk_parsed
           (JString t)
           (JBool (AgeRoute.encrypted_flag formData))
           (shown_timestamp (FormData_get (js "timestamp") formData))).
Proof.
  intros Hintent Htext Ht.
  exists (AgeRoute.stringify_noteData t (AgeRoute.encrypted_flag formData)
            (FormData_get (js "timestamp") formData)).
  split.
  - unfold AgeRoute.action. rewrite Hintent, Htext, jsstring_eqb_refl.
    destruct t as [|c t]; [congruence | reflexivity].
  - unfold AgeRoute.parseNote. cbn [note_text].
    rewrite JSON_parse_noteData. cbn [bind ret get_property].
    change (lookup (js "text") [(js "text", ?a); (js "encrypted", ?b);
                                (js "timestamp", ?c)]) with (Some a).
    change (lookup (js "encrypted") [(js "text", ?a); (js "encrypted", ?b);
                                     (js "timestamp", ?c)]) with (Some b).
    change (lookup (js "timestamp") [(js "text", ?a); (js "encrypted", ?b);
                                     (js "timestamp", ?c)]) with (Some c).
    cbn [bind ret try_catch]. rewrite or_else_timestamp.
    destruct t as [|c t]; [congruence|].
    destruct (AgeRoute.encrypted_flag formData); reflexivity.
Qed.

Lemma parseNote_reads_created_note_witness :
  exists noteData,
    AgeRoute.action age_form = ([TodoManager.create noteData], success) /\
    AgeRoute.parseNote no_zero_literal (mk_note (js "1") noteData) =
    ret (AgeRoute.mk_parsed
           (JString (js "buy milk")) (JBool false)
           (JString (js "2024-05-01T10:00:00.000Z"))).
Proof.
  apply (parseNote_reads_created_note no_zero_literal age_form
           (js "buy milk") (js "1")).
  - reflexivity.
  - reflexivity.
  - discriminate.
Defined.

(** X8. parseNote never throws, and it shows a note as it is stored, not
    encrypted and without timestamp, unless the stored text is the JSON
    text of an object. *)
Theorem parseNote_shows_other_text_as_it_is
        (literal_is_zero : jsstring -> bool) (n : note) :
  exists p,
    AgeRoute.parseNote literal_is_zero n = ret p /\
    ((forall members, JSON_parse (note_text n) <> ret (JObject members)) ->
     p = AgeRoute.as_it_is n).
Proof.
  unfold AgeRoute.parseNote.
  destruct (JSON_parse (note_text n)) as [e|v] eqn:E.
  - eexists. split; [reflexivity|]. reflexivity.
  - destruct v; cbn [bind get_property ret throw try_catch];
      try (eexists; split; [reflexivity|]; intros _; reflexivity).
    eexists. split; [reflexivity|]. intros H. now destruct (H members).
Qed.


(* ================================================================== *)
(** * Creating a note in the PBKDF2 version *)
(* ================================================================== *)




(** X11. handleCreate adds no field to the form: when the data of the
    form has no entry [intent] (the text area is the only control of the
    form besides its button), the action answers what it submits with
    status 400, [Invalid intent], and calls the note manager not at all. *)
Theorem handleCreate_adds_no_intent (W : Platform) (password : jsstring)
        (formData : FormData) (g : rng) :
  FormData_get (js "intent") formData = None ->
  exists submitted,
    fst (Pbkdf2GcmRoute.handleCreate W password formData g) = ret submitted /\
    Pbkdf2GcmRoute.action submitted = ([], failure (js "Invalid intent") 400).
Proof.
  intros Hintent. eexists. split; [apply handleCreate_submits|].
  unfold Pbkdf2GcmRoute.action.
  rewrite FormData_get_set_other by discriminate.
  now rewrite Hintent.
Qed.

Lemma handleCreate_adds_no_intent_witness :
  exists submitted,
    fst (Pbkdf2GcmRoute.handleCreate Sample.platform (js "hunter2") milk_form
           Sample.random) = ret submitted /\
    Pbkdf2GcmRoute.action submitted = ([], failure (js "Invalid intent") 400).
Proof.
  apply (handleCreate_adds_no_intent Sample.platform (js "hunter2") milk_form
           Sample.random).
  reflexivity.
Defined.


(* ================================================================== *)
(** * Creating a note in the raw-key version *)
(* ================================================================== *)


(** A record of the raw-key encryptText is no empty string. *)
Lemma rawkey_record_nonempty (W : Platform) (text key : jsstring) (g : rng)
      (record : jsstring) :
  RawKeyGcm.is_empty key = false ->
  fst (RawKeyGcm.encryptText W text key g) = ret record ->
  RawKeyGcm.is_empty record = false.
Proof.
  intros Hkey Hrec.
  destruct (rawkey_encryptText_record W text key g record Hkey Hrec)
    as [cryptoKey [_ ->]].
  unfold getRandomValues. cbn [fst seq map app].
  apply base64_encode_nonempty.
Qed.

(** What handleEncryptSubmit submits, when it submits. *)
Lemma handleEncryptSubmit_submitted (W : Platform) (encryptKey : jsstring)
      (formData submitted : FormData) (g : rng) :
  fst (RawKeyGcmRoute.handleEncryptSubmit W encryptKey formData g)
    = Some submitted ->
  truthy_entry (FormData_get (js "text") formData) = true /\
  exists textToSubmit,
    submitted = formData ++ [(js "encryptedText", Text textToSubmit)] /\
    fst (RawKeyGcm.encryptText W
           (String_of (FormData_get (js "text") formData)) encryptKey g)
      = ret textToSubmit.
Proof.
  unfold RawKeyGcmRoute.handleEncryptSubmit.
  destruct (truthy_entry (FormData_get (js "text") formData));
    cbn [negb fst]; [|discriminate].
  destruct (RawKeyGcm.is_empty encryptKey) eqn:Hkey; cbn [fst].
  - intros H. injection H as <-. split; [reflexivity|].
    eexists. split; [reflexivity|].
    destruct encryptKey; [reflexivity | discriminate].
  - destruct (RawKeyGcm.encryptText W _ encryptKey g) as [[e|encrypted] g'];
      cbn [fst]; [discriminate|].
    intros H. injection H as <-. split; [reflexivity|].
    eexists. split; reflexivity.
Qed.

(** X12. Whenever handleEncryptSubmit submits, the form it submits is the
    form as it was, the text that was typed in its field [text] included,
    with one more field at its end: [encryptedText], holding what
    encryptText returned for the text under the key. *)
Theorem handleEncryptSubmit_keeps_plaintext (W : Platform)
        (encryptKey : jsstring) (formData submitted : FormData) (g : rng) :
  fst (RawKeyGcmRoute.handleEncryptSubmit W encryptKey formData g)
    = Some submitted ->
  exists textToSubmit,
    submitted = formData ++ [(js "encryptedText", Text textToSubmit)] /\
    fst (RawKeyGcm.encryptText W
           (String_of (FormData_get (js "text") formData)) encryptKey g)
      = ret textToSubmit /\
    FormData_get (js "text") submitted = FormData_get (js "text") formData /\
    truthy_entry (FormData_get (js "text") submitted) = true /\
    FormData_get (js "intent") submitted = FormData_get (js "intent") formData.
Proof.
  intros H. apply handleEncryptSubmit_submitted in H.
  destruct H as [Htext [textToSubmit [-> Henc]]].
  exists textToSubmit. split; [reflexivity|]. split; [exact Henc|].
  assert (Hget : FormData_get (js "text")
                   (formData ++ [(js "encryptedText", Text textToSubmit)])
                 = FormData_get (js "text") formData).
  { rewrite FormData_get_app.
    destruct (FormData_get (js "text") formData); [reflexivity | discriminate]. }
  split; [exact Hget|]. split; [now rewrite Hget|].
  rewrite FormData_get_app.
  destruct (FormData_get (js "intent") formData); reflexivity.
Qed.

Lemma handleEncryptSubmit_keeps_plaintext_witness :
  exists textToSubmit,
    milk_submission = milk_form ++ [(js "encryptedText", Text textToSubmit)] /\
    fst (RawKeyGcm.encryptText Sample.platform
           (String_of (FormData_get (js "text") milk_form)) (js "correct")
           Sample.random) = ret textToSubmit /\
    FormData_get (js "text") milk_submission
      = FormData_get (js "text") milk_form /\
    truthy_entry (FormData_get (js "text") milk_submission) = true /\
    FormData_get (js "intent") milk_submission
      = FormData_get (js "intent") milk_form.
Proof.
  apply (handleEncryptSubmit_keeps_plaintext Sample.platform (js "correct")
           milk_form milk_submission Sample.random).
  vm_compute. reflexivity.
Defined.

(** X13. From the form to the action, raw-key version: handleEncryptSubmit
    adds the field [encryptedText] and nothing else, so when the data of
    the form has no entry [intent] (the text area is the only control of
    the form besides its button), the action answers what the handler
    submits with status 400, [Invalid intent], and calls the note manager
    not at all, whatever the key and the text. *)
Theorem handleEncryptSubmit_then_action (W : Platform) (encryptKey : jsstring)
        (formData submitted : FormData) (g : rng) :
  FormData_get (js "intent") formData = None ->
  fst (RawKeyGcmRoute.handleEncryptSubmit W encryptKey formData g)
    = Some submitted ->
  RawKeyGcmRoute.action submitted = ([], failure (js "Invalid intent") 400).
Proof.
  intros Hintent H.
  apply handleEncryptSubmit_submitted in H.
  destruct H as [_ [textToSubmit [-> _]]].
  unfold RawKeyGcmRoute.action.
  rewrite FormData_get_app, Hintent. reflexivity.
Qed.

Lemma handleEncryptSubmit_then_action_witness :
  RawKeyGcmRoute.action milk_submission
    = ([], failure (js "Invalid intent") 400).
Proof.
  apply (handleEncryptSubmit_then_action Sample.platform (js "correct")
           milk_form milk_submission Sample.random).
  - reflexivity.
  - vm_compute. reflexivity.
Defined.


(* ================================================================== *)
(** * The handlers of the AES-CBC version *)
(* ================================================================== *)

Lemma aescbc_decrypt_encrypt (W : Platform) (text password : jsstring)
      (g : rng) (record : jsstring) :
  block_cipher W -> block_inverse W ->
  fst (AesCbc.encryptText W text password g) = ret record ->
  AesCbc.decryptText W record password =
  ret (TextDecoder_decode (TextEncoder_encode text)).
Proof.
  intros Hblock Hinv Hrec.
  destruct (aescbc_encryptText_record W text password g record Hrec)
    as [key [ciphertext [Hkey [Hct ->]]]].
  rewrite aescbc_decryptText_of_joined, Hkey. cbn [bind ret].
  now rewrite (subtle_cbc_roundtrip W key _ _ ciphertext Hblock Hinv Hct).
Qed.

Lemma atob_throws (s : jsstring) (e : exn) :
  atob s = throw e -> e = InvalidCharacterError.
Proof.
  unfold atob.
  repeat match goal with
    | |- context [if ?c then _ else _] => destruct c
    | |- context [match sextets_of_chars ?d with _ => _ end] =>
        destruct (sextets_of_chars d)
    end; unfold throw, ret; congruence.
Qed.

(** Text without a colon is no record: the second part is missing. *)
Lemma aescbc_decryptText_no_colon (W : Platform) (text password : jsstring) :
  no_colon text ->
  AesCbc.decryptText W text password = throw InvalidCharacterError.
Proof.
  intros Hno. unfold AesCbc.decryptText.
  rewrite split_no_separator by exact Hno. cbn [nth].
  destruct (atob text) as [e|chars] eqn:E.
  - apply atob_throws in E. now subst e.
  - reflexivity.
Qed.

Example onSubmit_blank_key :
  AesCbcRoute.onSubmit Sample.platform (js "buy milk") (js "  ") Sample.random =
  (ret [(js "text", Text (js "buy milk")); (js "key", Text (js "  "));
        (js "intent", Text (js "create"))], Sample.random) /\
  AesCbcRoute.action
    [(js "text", Text (js "buy milk")); (js "key", Text (js "  "));
     (js "intent", Text (js "create"))] =
  ([TodoManager.create (js "buy milk")], success).
Proof. split; reflexivity. Qed.

Lemma onClick_app (W : Platform) (keyInput : jsstring) (a b : list jsstring) :
  AesCbcRoute.onClick W keyInput (a ++ b) =
  AesCbcRoute.onClick W keyInput a ++ AesCbcRoute.onClick W keyInput b.
Proof.
  unfold AesCbcRoute.onClick.
  destruct (RawKeyGcm.is_empty (trim keyInput)); [reflexivity | apply map_app].
Qed.

(** X14. With a key typed in, the form the AES-CBC version submits holds
    the record in its field [text] and the key itself, as it was typed, in
    its field [key]; it holds no intent, so the action answers it with
    status 400, [Invalid intent], and calls the note manager not at all. *)
Theorem onSubmit_sends_the_key (W : Platform) (textArea keyInput : jsstring)
        (g : rng) (submitted : FormData) :
  RawKeyGcm.is_empty (trim keyInput) = false ->
  fst (AesCbcRoute.onSubmit W textArea keyInput g) = ret submitted ->
  FormData_get (js "key") submitted = Some (Text keyInput) /\
  (exists record,
      fst (AesCbc.encryptText W textArea (trim keyInput) g) = ret record /\
      FormData_get (js "text") submitted = Some (Text record)) /\
  AesCbcRoute.action submitted = ([], failure (js "Invalid intent") 400).
Proof.
  intros Hkey. unfold AesCbcRoute.onSubmit. rewrite Hkey. cbn [negb].
  destruct (AesCbc.encryptText W textArea (trim keyInput) g)
    as [[e|record] g']; cbn [fst bind ret]; intros H.
  - discriminate.
  - unfold ret in H. injection H as <-.
    split; [reflexivity|]. split; [|reflexivity].
    exists record. split; reflexivity.
Qed.

Lemma onSubmit_sends_the_key_witness :
  FormData_get (js "key")
    [(js "text", Text dawn_record); (js "key", Text dawn_key_input)]
    = Some (Text dawn_key_input) /\
  (exists record,
      fst (AesCbc.encryptText Sample.platform (js "attack at dawn!!")
             (trim dawn_key_input) Sample.random) = ret record /\
      FormData_get (js "text")
        [(js "text", Text dawn_record); (js "key", Text dawn_key_input)]
        = Some (Text record)) /\
  AesCbcRoute.action
    [(js "text", Text dawn_record); (js "key", Text dawn_key_input)]
    = ([], failure (js "Invalid intent") 400).
Proof.
  apply (onSubmit_sends_the_key Sample.platform (js "attack at dawn!!")
           dawn_key_input Sample.random
           [(js "text", Text dawn_record); (js "key", Text dawn_key_input)]).
  - reflexivity.
  - vm_compute. reflexivity.
Defined.

(** X15. For every block cipher on blocks of 16 bytes that its inverse
    inverts: when the create form, with a key typed in that is not blank,
    encrypted a text and submitted its record, the button that decrypts
    all notes shows for that record, under every key input that is the
    same key once the blanks around it are removed, the decoding of the
    encoded text, and it treats every note on its own: the notes before
    and after are shown as the button shows them without it.  The decoding
    is the text that was typed when that is well-formed and does not begin
    with U+FEFF; of a well-formed text behind a leading U+FEFF it is the
    text without that character. *)
Theorem onClick_shows_what_onSubmit_encrypted (W : Platform)
        (textArea keyInput keyInput' : jsstring) (g : rng)
        (submitted : FormData) (record : jsstring)
        (before after : list jsstring) :
  block_cipher W -> block_inverse W ->
  RawKeyGcm.is_empty (trim keyInput) = false ->
  trim keyInput' = trim keyInput ->
  fst (AesCbcRoute.onSubmit W textArea keyInput g) = ret submitted ->
  FormData_get (js "text") submitted = Some (Text record) ->
  AesCbcRoute.onClick W keyInput' (before ++ record :: after) =
    AesCbcRoute.onClick W keyInput' before ++
    TextDecoder_decode (TextEncoder_encode textArea) ::
    AesCbcRoute.onClick W keyInput' after /\
  (well_formed textArea = true -> starts_with_bom textArea = false ->
   TextDecoder_decode (TextEncoder_encode textArea) = textArea) /\
  (forall rest,
     textArea = 0xFEFF :: rest -> well_formed rest = true ->
     TextDecoder_decode (TextEncoder_encode textArea) = rest).
Proof.
  intros Hblock Hinv Hkey Hsame Hsub Htext.
  split; [|split].
  - change (record :: after) with ([record] ++ after).
    rewrite !onClick_app. f_equal. f_equal.
    unfold AesCbcRoute.onSubmit in Hsub. rewrite Hkey in Hsub.
    cbn [negb] in Hsub.
    destruct (AesCbc.encryptText W textArea (trim keyInput) g)
      as [[e|r] g'] eqn:Henc; cbn [fst bind ret] in Hsub; [discriminate|].
    unfold ret in Hsub. injection Hsub as <-.
    cbn in Htext. injection Htext as ->.
    unfold AesCbcRoute.onClick. rewrite Hsame, Hkey. cbn [map].
    now rewrite (aescbc_decrypt_encrypt W textArea (trim keyInput) g record
                   Hblock Hinv) by now rewrite Henc.
  - apply TextDecoder_TextEncoder.
  - intros rest -> Hwf. now apply TextDecoder_TextEncoder_bom.
Qed.

Lemma onClick_shows_what_onSubmit_encrypted_witness :
  AesCbcRoute.onClick Sample.platform dawn_password
    ([js "buy milk"] ++ dawn_record :: [js "call home"]) =
  AesCbcRoute.onClick Sample.platform dawn_password [js "buy milk"] ++
  js "attack at dawn!!" ::
  AesCbcRoute.onClick Sample.platform dawn_password [js "call home"].
Proof.
  destruct (onClick_shows_what_onSubmit_encrypted Sample.platform
              (js "attack at dawn!!") dawn_key_input dawn_password Sample.random
              [(js "text", Text dawn_record); (js "key", Text dawn_key_input)]
              dawn_record [js "buy milk"] [js "call home"])
    as [Hshown [Hsame _]].
  - exact sample_block_cipher.
  - exact sample_block_inverse.
  - reflexivity.
  - reflexivity.
  - vm_compute. reflexivity.
  - reflexivity.
  - rewrite Hshown, Hsame by reflexivity. reflexivity.
Defined.

(** X16. With a key typed in, the button that decrypts all notes replaces
    every note that holds no colon, so every plain note without one, by
    the words [[Failed to decrypt]], whatever the key. *)
Theorem onClick_fails_on_plain_notes (W : Platform) (keyInput : jsstring)
        (noteElements : list jsstring) :
  RawKeyGcm.is_empty (trim keyInput) = false ->
  Forall no_colon noteElements ->
  AesCbcRoute.onClick W keyInput noteElements =
  map (fun _ => AesCbcRoute.failed_to_decrypt) noteElements.
Proof.
  intros Hkey Hall. unfold AesCbcRoute.onClick. rewrite Hkey.
  apply map_ext_in. intros el Hin.
  rewrite Forall_forall in Hall.
  now rewrite aescbc_decryptText_no_colon by now apply Hall.
Qed.

Lemma onClick_fails_on_plain_notes_witness :
  AesCbcRoute.onClick Sample.platform dawn_key_input
    [js "buy milk"; js "call home"] =
  map (fun _ => AesCbcRoute.failed_to_decrypt) [js "buy milk"; js "call home"].
Proof.
  apply (onClick_fails_on_plain_notes Sample.platform dawn_key_input
           [js "buy milk"; js "call home"]).
  - reflexivity.
  - repeat constructor; discriminate.
Defined.

(** X17. Decrypting all notes twice loses them: when the texts the first
    click shows hold no colon, a second click with the same key replaces
    every note, the decrypted ones included, by [[Failed to decrypt]]. *)
Theorem onClick_twice (W : Platform) (keyInput : jsstring)
        (noteElements : list jsstring) :
  RawKeyGcm.is_empty (trim keyInput) = false ->
  Forall no_colon (AesCbcRoute.onClick W keyInput noteElements) ->
  AesCbcRoute.onClick W keyInput (AesCbcRoute.onClick W keyInput noteElements) =
  map (fun _ => AesCbcRoute.failed_to_decrypt) noteElements.
Proof.
  intros Hkey Hall. unfold AesCbcRoute.onClick in *. rewrite Hkey in *.
  rewrite map_map. apply map_ext_in. intros el Hin.
  rewrite Forall_forall in Hall.
  rewrite aescbc_decryptText_no_colon; [reflexivity|].
  apply Hall. apply in_map_iff. exists el. split; [reflexivity | exact Hin].
Qed.

Lemma onClick_twice_witness :
  AesCbcRoute.onClick Sample.platform dawn_password [dawn_record]
    = [js "attack at dawn!!"] /\
  AesCbcRoute.onClick Sample.platform dawn_password
    (AesCbcRoute.onClick Sample.platform dawn_password [dawn_record]) =
  map (fun _ => AesCbcRoute.failed_to_decrypt) [dawn_record].
Proof.
  split; [vm_compute; reflexivity|].
  apply (onClick_twice Sample.platform dawn_password [dawn_record]).
  - reflexivity.
  - vm_compute. repeat constructor; discriminate.
Defined.

(** X18. decryptText of the AES-CBC version reads the first two parts of
    the text and nothing else: whatever follows a second colon changes
    neither what it returns nor what it throws. *)
Theorem decryptText_ignores_a_third_part (W : Platform)
        (ivB64 ctB64 more password : jsstring) :
  no_colon ivB64 -> no_colon ctB64 ->
  AesCbc.decryptText W (AesCbc.join_record ivB64 ctB64 ++ ch ":" :: more)
                     password =
  AesCbc.decryptText W (AesCbc.join_record ivB64 ctB64) password.
Proof.
  intros Hiv Hct. unfold AesCbc.decryptText, AesCbc.join_record.
  rewrite <- app_assoc. cbn [app].
  rewrite !split_at_separator by assumption.
  rewrite (split_no_separator _ ctB64) by assumption. reflexivity.
Qed.

Lemma decryptText_ignores_a_third_part_witness :
  AesCbc.decryptText Sample.platform
    (AesCbc.join_record (base64_encode dawn_iv) (base64_encode dawn_ciphertext)
     ++ ch ":" :: js "anything:else")
    dawn_password =
  AesCbc.decryptText Sample.platform
    (AesCbc.join_record (base64_encode dawn_iv) (base64_encode dawn_ciphertext))
    dawn_password.
Proof.
  apply (decryptText_ignores_a_third_part Sample.platform
           (base64_encode dawn_iv) (base64_encode dawn_ciphertext)
           (js "anything:else") dawn_password).
  - apply base64_encode_no_colon.
  - apply base64_encode_no_colon.
Defined.


(** X19. The AES-CBC version works only with keys of 16, 24 or 32 bytes:
    with a key typed in whose UTF-8 encoding, blanks around it removed,
    has another length, the create form submits nothing (encryptText
    throws DataError before drawing a nonce) and the button that decrypts
    all notes replaces every note by [[Failed to decrypt]]. *)
Theorem other_key_lengths_never_work (W : Platform)
        (textArea keyInput : jsstring) (g : rng)
        (noteElements : list jsstring) :
  RawKeyGcm.is_empty (trim keyInput) = false ->
  List.length (TextEncoder_encode (trim keyInput)) <> 16%nat ->
  List.length (TextEncoder_encode (trim keyInput)) <> 24%nat ->
  List.length (TextEncoder_encode (trim keyInput)) <> 32%nat ->
  AesCbcRoute.onSubmit W textArea keyInput g = (throw DataError, g) /\
  AesCbcRoute.onClick W keyInput noteElements =
  map (fun _ => AesCbcRoute.failed_to_decrypt) noteElements.
Proof.
  intros Hkey H16 H24 H32.
  pose proof (import_aes_key_other_length _ H16 H24 H32) as Himport.
  split.
  - unfold AesCbcRoute.onSubmit, AesCbc.encryptText, AesCbc.importKey.
    rewrite Hkey, Himport. reflexivity.
  - unfold AesCbcRoute.onClick. rewrite Hkey.
    apply map_ext. intros el.
    unfold AesCbc.decryptText, AesCbc.importKey. rewrite Himport.
    destruct (atob _) as [e|iv_chars]; [reflexivity|]. cbn [bind].
    destruct (atob _) as [e|ct_chars]; reflexivity.
Qed.

Lemma other_key_lengths_never_work_witness :
  AesCbcRoute.onSubmit Sample.platform (js "buy milk") (js "hunter2")
    Sample.random = (throw DataError, Sample.random) /\
  AesCbcRoute.onClick Sample.platform (js "hunter2") [dawn_record; js "buy milk"] =
  map (fun _ => AesCbcRoute.failed_to_decrypt) [dawn_record; js "buy milk"].
Proof.
  apply (other_key_lengths_never_work Sample.platform (js "buy milk")
           (js "hunter2") Sample.random [dawn_record; js "buy milk"]).
  - reflexivity.
  - vm_compute. discriminate.
  - vm_compute. discriminate.
  - vm_compute. discriminate.
Defined.


(* ================================================================== *)
(** * Keys the raw-key version cannot use *)
(* ================================================================== *)


(** X20. A key with a character outside ASCII among its first 32 code
    units cannot be used in the raw-key version: its padded form takes
    more than 32 bytes, so encryptText throws DataError without drawing a
    nonce, handleEncryptSubmit submits nothing, and decryptText returns
    the failure text for every stored text. *)
Theorem non_ascii_key_never_works (W : Platform) (key text stored : jsstring)
        (formData : FormData) (g : rng) :
  RawKeyGcm.is_empty key = false ->
  is_ascii (padded_key key) = false ->
  (32 < List.length (RawKeyGcm.keyData key))%nat /\
  RawKeyGcm.encryptText W text key g = (throw DataError, g) /\
  RawKeyGcmRoute.handleEncryptSubmit W key formData g = (None, g) /\
  RawKeyGcm.decryptText W stored key
    = ret (RawKeyGcm.failure_prefix ++ stored).
Proof.
  intros Hkey Hascii.
  assert (Hlen : (32 < List.length (RawKeyGcm.keyData key))%nat).
  { pose proof (encode_longer _ Hascii) as H.
    rewrite padded_key_length in H. exact H. }
  assert (Himport : import_aes_key (RawKeyGcm.keyData key) = throw DataError)
    by (apply import_aes_key_other_length; lia).
  assert (Henc : forall t, RawKeyGcm.encryptText W t key g = (throw DataError, g)).
  { intros t. unfold RawKeyGcm.encryptText. now rewrite Hkey, Himport. }
  split; [exact Hlen|]. split; [apply Henc|]. split.
  - unfold RawKeyGcmRoute.handleEncryptSubmit.
    destruct (truthy_entry _); cbn [negb]; [|reflexivity].
    now rewrite Hkey, Henc.
  - unfold RawKeyGcm.decryptText. rewrite Hkey, Himport.
    destruct (atob stored); reflexivity.
Qed.

Lemma non_ascii_key_never_works_witness :
  (32 < List.length (RawKeyGcm.keyData accented_key))%nat /\
  RawKeyGcm.encryptText Sample.platform (js "buy milk") accented_key
    Sample.random = (throw DataError, Sample.random) /\
  RawKeyGcmRoute.handleEncryptSubmit Sample.platform accented_key milk_form
    Sample.random = (None, Sample.random) /\
  RawKeyGcm.decryptText Sample.platform milk_record accented_key
    = ret (RawKeyGcm.failure_prefix ++ milk_record).
Proof.
  apply (non_ascii_key_never_works Sample.platform accented_key
           (js "buy milk") milk_record milk_form Sample.random).
  - reflexivity.
  - reflexivity.
Defined.


(* ================================================================== *)
(** * The age armor fails only on long texts *)
(* ================================================================== *)

(** X21. encryptWithAge uses no key and no random source: it returns the
    same armor for the same text, the header, the recipient line, the
    base64 of the UTF-8 bytes and the footer, and it fails in one case
    only, with RangeError, when the text has more bytes than a call may
    take arguments. *)
Theorem encryptWithAge_outcome (W : Platform) (text : jsstring) :
  Age.encryptWithAge W text =
  if Nat.leb (List.length (TextEncoder_encode text)) (max_arguments W)
  then ret (Age.header ++ Age.recipient_line ++
            base64_encode (TextEncoder_encode text) ++ Age.footer)
  else throw RangeError.
Proof.
  unfold Age.encryptWithAge, fromCharCode_spread.
  destruct (Nat.leb _ _); cbn [bind ret try_catch throw]; [|reflexivity].
  now rewrite btoa_fromCharCode.
Qed.


(* ================================================================== *)
(** * Unlocking the notebook of the PBKDF2 version *)
(* ================================================================== *)

Example empty_notebook_unlocks :
  Pbkdf2Gcm.attemptUnlock Sample.platform []
    (Pbkdf2Gcm.mk_state (js "any password") false [] (js "Incorrect password"))
  = Pbkdf2Gcm.mk_state (js "any password") true [] [].
Proof. reflexivity. Qed.

(** X22. When every stored note decrypts under the password, attemptUnlock
    unlocks: it publishes the decrypted texts in the order and under the
    ids of the stored notes and clears the error.  A notebook without
    notes is unlocked by every password. *)
Theorem attemptUnlock_when_all_decrypt (W : Platform) (notes : list note)
        (st : Pbkdf2Gcm.state) :
  Forall (fun n => exists dec,
            Pbkdf2Gcm.decryptText W (Pbkdf2Gcm.password st) (note_text n)
            = ret dec) notes ->
  Pbkdf2Gcm.attemptUnlock W notes st =
  Pbkdf2Gcm.mk_state
    (Pbkdf2Gcm.password st) true
    (map (fun n =>
            mk_note (note_id n)
              (returned (Pbkdf2Gcm.decryptText W (Pbkdf2Gcm.password st)
                           (note_text n))))
         notes)
    [].
Proof.
  intros Hall. unfold Pbkdf2Gcm.attemptUnlock.
  assert (H : mapM (fun n =>
                      bind (Pbkdf2Gcm.decryptText W (Pbkdf2Gcm.password st)
                              (note_text n))
                           (fun dec => ret (mk_note (note_id n) dec)))
                   notes
              = ret (map (fun n =>
                            mk_note (note_id n)
                              (returned (Pbkdf2Gcm.decryptText W
                                           (Pbkdf2Gcm.password st)
                                           (note_text n))))
                         notes)).
  { induction Hall as [|n rest [dec Hdec] _ IH]; [reflexivity|].
    cbn [mapM map]. rewrite Hdec. cbn [bind ret returned].
    now rewrite IH. }
  now rewrite H.
Qed.

Lemma attemptUnlock_when_all_decrypt_witness :
  Pbkdf2Gcm.attemptUnlock Sample.platform (tl three_notes)
    (Pbkdf2Gcm.mk_state (js "bravo") false [] (js "Incorrect password")) =
  Pbkdf2Gcm.mk_state (js "bravo") true
    [mk_note (js "2") (js "second"); mk_note (js "3") (js "third")] [].
Proof.
  apply (attemptUnlock_when_all_decrypt Sample.platform (tl three_notes)
           (Pbkdf2Gcm.mk_state (js "bravo") false [] (js "Incorrect password"))).
  repeat constructor; eexists; vm_compute; reflexivity.
Defined.
